(** * fynalist_v1: the two fixture-extraction scripts

    A shallow embedding of [extract_data.py] (the static variant) and
    [extract_all_transactions.py] (the discovery variant), and the
    properties of the identifier discovery and bulk-fetch pipeline.

    Conventions of the embedding.
    - A Python [str] is the list of its code points ([text]); a literal is
      written [py "..."], the double quote is [dq], the newline is [nl].
    - A decoded JSON document is a [json] value; Python's [None] is [JNull],
      so [fetch_json] returns a [json] and its callers test [truthy].
    - The outside world is the class [Env]: what [curl -s --max-time 30 url]
      yields for a url, [json.loads], the text [json.dump] writes and the
      directory of the script. The scripts are parametric in it; the API is
      taken to answer a url the same way throughout.
    - A run threads a [world]: the directory entries (each with what
      [read_text] yields for it), the chunks written to standard output, and
      the urls curl was invoked on, in order. Paths are lists of components
      below the root; glob patterns match as on a POSIX file system.
    - Creating a directory is taken to succeed, and so is opening a file
      as far as the state of the file system goes. Saving a document fails
      where the data makes it fail: [open] refuses a name with a NUL or one
      that is too long, and [json.dump] stops at a string that UTF-8 cannot
      encode, leaving what it has written. An uncaught Python exception
      ends the run with [Raise]. *)

From Stdlib Require Import ZArith NArith Ascii String Floats DecimalString.
From stdpp Require Import base option list sorting sets gmap.

#[local] Open Scope N_scope.
#[local] Set Warnings "-register-all,-clear-no-such-hyp".

(** ** Python strings *)

Module Py.

Abbreviation text := (list N).

Definition py (s : string) : text := N_of_ascii <$> list_ascii_of_string s.
#[global] Arguments py : simpl never.

Definition dq : N := 34.
Definition nl : text := [10].

(** [str(n)] for an [int]. *)
Definition str_of_Z (z : Z) : text := py (NilZero.string_of_int (Z.to_int z)).
Definition str_of_nat (n : nat) : text := str_of_Z (Z.of_nat n).

(** [needle in hay] *)
Fixpoint startswith (p s : text) : bool :=
  match p, s with
  | [], _ => true
  | a :: p', b :: s' => (a =? b) && startswith p' s'
  | _ :: _, [] => false
  end.

Fixpoint contains (needle hay : text) : bool :=
  startswith needle hay ||
  match hay with
  | [] => false
  | _ :: hay' => contains needle hay'
  end.

Definition endswith (p s : text) : bool := startswith (reverse p) (reverse s).

(** [s.replace(old, new)] for a one-character [old]. *)
Definition replace (old : N) (new : text) (s : text) : text :=
  s ≫= (λ c, if c =? old then new else [c]).

(** Lexicographic order on code points: [<=] of [str], which [sorted] uses. *)
Fixpoint text_leb (a b : text) : bool :=
  match a, b with
  | [], _ => true
  | _ :: _, [] => false
  | x :: a', y :: b' => (x <? y) || ((x =? y) && text_leb a' b')
  end.

Fixpoint insert_sorted (x : text) (l : list text) : list text :=
  match l with
  | [] => [x]
  | y :: l' => if text_leb x y then x :: l else y :: insert_sorted x l'
  end.

Definition sorted (l : list text) : list text := foldr insert_sorted [] l.

(** ** JSON documents as Python values *)

Inductive json :=
  | JNull
  | JBool (b : bool)
  | JInt (z : Z)
  | JFloat (f : float)
  | JStr (s : text)
  | JList (l : list json)
  | JDict (kv : list (text * json)).

(** [bool(v)]: what [if data:] tests. *)
Definition truthy (v : json) : bool :=
  match v with
  | JNull => false
  | JBool b => b
  | JInt z => negb (z =? 0)%Z
  | JFloat f => negb (PrimFloat.eqb f 0%float)
  | JStr [] | JList [] | JDict [] => false
  | JStr (_ :: _) | JList (_ :: _) | JDict (_ :: _) => true
  end.

(** [d.get(k)] on the items of a dict: [None] when the key is absent. *)
Fixpoint dict_get (k : text) (kv : list (text * json)) : json :=
  match kv with
  | [] => JNull
  | (k', v) :: kv' => if decide (k = k') then v else dict_get k kv'
  end.

(** ** [re]: the pattern ["transaction_id":\s*"([a-f0-9-]{36})"] *)

(** [\s] of a [str] pattern: the code points for which [str.isspace] holds. *)
Definition is_space (c : N) : bool :=
  ((9 <=? c) && (c <=? 13)) || ((28 <=? c) && (c <=? 32))
  || (c =? 133) || (c =? 160) || (c =? 5760)
  || ((8192 <=? c) && (c <=? 8202))
  || (c =? 8232) || (c =? 8233) || (c =? 8239) || (c =? 8287) || (c =? 12288).

(** [[a-f0-9-]] *)
Definition is_hexdash (c : N) : bool :=
  ((97 <=? c) && (c <=? 102)) || ((48 <=? c) && (c <=? 57)) || (c =? 45).

Definition key_lit : text := dq :: py "transaction_id" ++ [dq; 58].

Fixpoint strip_prefix (p s : text) : option text :=
  match p, s with
  | [], _ => Some s
  | a :: p', b :: s' => if a =? b then strip_prefix p' s' else None
  | _ :: _, [] => None
  end.

(** The greedy [\s*]: the run of white space and what follows it. *)
Fixpoint span_space (s : text) : nat * text :=
  match s with
  | c :: s' => if is_space c then let '(n, r) := span_space s' in (S n, r) else (O, s)
  | [] => (O, [])
  end.

(** [[a-f0-9-]{n}] *)
Fixpoint take_hexdash (n : nat) (s : text) : option (text * text) :=
  match n, s with
  | O, _ => Some ([], s)
  | S n', c :: s' =>
      if is_hexdash c then
        match take_hexdash n' s' with
        | Some (g, r) => Some (c :: g, r)
        | None => None
        end
      else None
  | S _, [] => None
  end.

(** A match of the pattern at the head of [s]: the captured group and the
    number of characters the match spans. *)
Definition match_at (s : text) : option (text * nat) :=
  match strip_prefix key_lit s with
  | Some r =>
      let '(n, r1) := span_space r in
      match r1 with
      | q :: r2 =>
          if q =? dq then
            match take_hexdash 36 r2 with
            | Some (g, q' :: _) =>
                if q' =? dq then Some (g, (length key_lit + n + 38)%nat) else None
            | _ => None
            end
          else None
      | [] => None
      end
  | None => None
  end.

(** [pattern.findall(s)]: left to right, the next search starting where the
    last match ended. [skip] is the number of characters of [s] that the
    last match still covers. *)
Fixpoint findall_from (skip : nat) (s : text) : list text :=
  match s with
  | [] => []
  | _ :: s' =>
      match skip with
      | S k => findall_from k s'
      | O =>
          match match_at s with
          | Some (g, n) => g :: findall_from (pred n) s'
          | None => findall_from O s'
          end
      end
  end.

Definition findall (s : text) : list text := findall_from O s.

(** ** [urllib.parse.quote(s, safe="")] *)

(** [str.encode("utf-8")], strict: [None] is [UnicodeEncodeError]. *)
Definition utf8_char (c : N) : option (list N) :=
  if c <? 128 then Some [c]
  else if c <? 2048 then Some [192 + c / 64; 128 + c mod 64]
  else if (55296 <=? c) && (c <=? 57343) then None
  else if c <? 65536 then Some [224 + c / 4096; 128 + (c / 64) mod 64; 128 + c mod 64]
  else if c <? 1114112 then
    Some [240 + c / 262144; 128 + (c / 4096) mod 64; 128 + (c / 64) mod 64; 128 + c mod 64]
  else None.

Fixpoint utf8_encode (s : text) : option (list N) :=
  match s with
  | [] => Some []
  | c :: s' =>
      match utf8_char c, utf8_encode s' with
      | Some b, Some bs => Some (b ++ bs)
      | _, _ => None
      end
  end.

(** The code points [str.encode("utf-8")] refuses: the surrogates (and, in
    the model only, numbers beyond U+10FFFF). *)
Definition unencodable (c : N) : bool :=
  ((55296 <=? c) && (c <=? 57343)) || (1114112 <=? c).

(** The characters [quote] never encodes: letters, digits and [_.-~]. *)
Definition always_safe (b : N) : bool :=
  ((65 <=? b) && (b <=? 90)) || ((97 <=? b) && (b <=? 122)) || ((48 <=? b) && (b <=? 57))
  || (b =? 95) || (b =? 46) || (b =? 45) || (b =? 126).

Definition hex_digit (d : N) : N := if d <? 10 then 48 + d else 55 + d.

Definition quote_byte (b : N) : text :=
  if always_safe b then [b] else [37; hex_digit (b / 16); hex_digit (b mod 16)].

Definition quote_bytes (bs : list N) : text := bs ≫= quote_byte.

(** ** [json.dump(data, f, ensure_ascii=False)] into a UTF-8 file *)

(** The strings and keys of a document are written as they are, so the
    dump goes through exactly when UTF-8 can encode each of them. *)
Fixpoint encodable (v : json) : bool :=
  match v with
  | JStr s => forallb (λ c, negb (unencodable c)) s
  | JList l => forallb encodable l
  | JDict kv =>
      forallb (λ e, let '(k, x) := e in forallb (λ c, negb (unencodable c)) k && encodable x) kv
  | _ => true
  end.

(** ** [pathlib] *)

(** An absolute path is the list of its components. *)
Abbreviation path := (list text).

Definition str_of_path (p : path) : text := p ≫= (λ c, 47 :: c).

Definition name (p : path) : text := default [] (last p).

Definition parent (p : path) : path := take (pred (length p)) p.

(** [PurePath.stem]: the name up to its last dot, when that dot is neither
    the first nor the last character. *)
Fixpoint rfind_dot (s : text) : option nat :=
  match s with
  | [] => None
  | c :: s' =>
      match rfind_dot s' with
      | Some i => Some (S i)
      | None => if c =? 46 then Some O else None
      end
  end.

Definition stem_of (nm : text) : text :=
  match rfind_dot nm with
  | Some i => if (0 <? i)%nat && (i <? pred (length nm))%nat then take i nm else nm
  | None => nm
  end.

Definition stem (p : path) : text := stem_of (name p).

(** [fnmatch(name, "*.json")] *)
Definition is_json_name (nm : text) : bool := endswith (py ".json") nm.

(** ** [open(p, "w")] *)

(** [os.fsencode]: UTF-8 with the surrogateescape handler, which turns the
    code points U+DC80..U+DCFF back into the bytes they stand for. *)
Definition fs_char (c : N) : option (list N) :=
  if (56448 <=? c) && (c <=? 56575) then Some [c - 56320] else utf8_char c.

Fixpoint fs_encode (s : text) : option (list N) :=
  match s with
  | [] => Some []
  | c :: s' =>
      match fs_char c, fs_encode s' with
      | Some b, Some bs => Some (b ++ bs)
      | _, _ => None
      end
  end.

(** The longest file name, in bytes, of the common file systems. *)
Definition NAME_MAX : nat := 255.

End Py.
Export Py.

(** ** The outside world and the state of a run *)

(** What [subprocess.run(["curl", ...], capture_output=True, text=True)]
    yields: it raises, or it completes with an exit status and two streams. *)
Inductive proc :=
  | RunRaised (e : text)
  | Completed (returncode : Z) (out err : text).

(** What [Path.read_text(encoding="utf-8")] yields for a directory entry:
    its text, or an exception (unreadable, a directory, not UTF-8). *)
Inductive file :=
  | Unreadable (e : text)
  | Content (t : text).

#[global] Instance file_eq_dec : EqDecision file.
Proof. solve_decision. Defined.

(** [json_dumps] is the text a dump writes when it goes through,
    [json_written] the part of it that a dump has written when it stops at a
    string it cannot encode. *)
Class Env := {
  curl : text → proc;
  json_loads : text → text + json;
  json_dumps : json → text;
  json_written : json → text;
  script_dir : path
}.

Record world := World {
  files : gmap path file;
  stdout : list text;
  invoked : list text
}.

Inductive exn := TypeError | AttributeError | UnicodeEncodeError | ValueError | OSError.

Inductive res (A : Type) :=
  | Done (a : A) (w : world)
  | Raise (e : exn) (w : world).
Arguments Done {A} a w.
Arguments Raise {A} e w.

Definition M (A : Type) : Type := world → res A.

#[global] Instance M_ret : MRet M := λ A a w, Done a w.
#[global] Instance M_bind : MBind M := λ A B f c w,
  match c w with
  | Done a w' => f a w'
  | Raise e w' => Raise e w'
  end.

Definition raise {A} (e : exn) : M A := λ w, Raise e w.

Definition final {A} (r : res A) : world :=
  match r with
  | Done _ w => w
  | Raise _ w => w
  end.

(** [print(s, end=e)] *)
Definition print_end (s e : text) : M unit := λ w,
  Done () (World (files w) (stdout w ++ [s ++ e]) (invoked w)).
Definition print (s : text) : M unit := print_end s nl.

(** The scripts reach the network only through this call. *)
Definition run_curl `{Env} (url : text) : M proc := λ w,
  Done (curl url) (World (files w) (stdout w) (invoked w ++ [url])).

Definition mkdir_parents (p : path) : M unit := mret ().

(** The exception that [open(p, "w", encoding="utf-8")] raises because of
    the name of the file, if any: the name cannot be encoded, it holds a
    NUL (ValueError), or it is too long for the file system (OSError).
    Nothing is created then. *)
Definition name_error (nm : text) : option exn :=
  match fs_encode nm with
  | None => Some UnicodeEncodeError
  | Some bs =>
      if bool_decide (0 ∈ nm) then Some ValueError
      else if (NAME_MAX <? length bs)%nat then Some OSError
      else None
  end.

Definition open_error (p : path) : option exn := name_error (name p).

(** [with open(p, "w", encoding="utf-8") as f:
       json.dump(data, f, indent=2, ensure_ascii=False)]:
    the file is created or emptied when it is opened; a dump that raises
    leaves in it what it has written. *)
Definition dump_json `{Env} (data : json) (p : path) : M unit := λ w,
  match open_error p with
  | Some e => Raise e w
  | None =>
      if encodable data then
        Done () (World (<[p := Content (json_dumps data)]> (files w)) (stdout w) (invoked w))
      else
        Raise UnicodeEncodeError
          (World (<[p := Content (json_written data)]> (files w)) (stdout w) (invoked w))
  end.

Definition read_text (p : path) : M (text + text) := λ w,
  Done (match files w !! p with
        | Some (Content t) => inr t
        | Some (Unreadable e) => inl e
        | None => inl (py "No such file or directory")
        end) w.

(** [d.rglob("*.json")]: the entries below [d] whose name matches. *)
Definition rglob_json (d : path) : M (list path) := λ w,
  Done (filter (λ p, d `prefix_of` p ∧ d ≠ p ∧ is_json_name (name p))
          (map_to_list (files w)).*1) w.

(** [d.glob("*.json")]: the entries of [d] itself whose name matches. *)
Definition glob_json (d : path) : M (list path) := λ w,
  Done (filter (λ p, p ≠ [] ∧ parent p = d ∧ is_json_name (name p))
          (map_to_list (files w)).*1) w.

Fixpoint for_each {A} (l : list A) (body : A → M unit) : M unit :=
  match l with
  | [] => mret ()
  | x :: l' => body x;; for_each l' body
  end.

Fixpoint for_fold {A S} (l : list A) (body : A → S → M S) (s : S) : M S :=
  match l with
  | [] => mret s
  | x :: l' => s' ← body x s; for_fold l' body s'
  end.

(** [enumerate(l, 1)] *)
Definition enumerate1 {A} (l : list A) : list (nat * A) := zip (seq 1 (length l)) l.

Definition rule60 : text := replicate 60 61.

(** [len(v)], [iter(v)], [v.get(k)] and [urllib.parse.quote(v, safe="")] on
    a decoded document. *)
Definition py_len (v : json) : M nat :=
  match v with
  | JStr s => mret (length s)
  | JList l => mret (length l)
  | JDict kv => mret (length kv)
  | _ => raise TypeError
  end.

Definition py_iter (v : json) : M (list json) :=
  match v with
  | JStr s => mret ((λ c, JStr [c]) <$> s)
  | JList l => mret l
  | JDict kv => mret ((λ e, JStr e.1) <$> kv)
  | _ => raise TypeError
  end.

Definition py_get (v : json) (k : text) : M json :=
  match v with
  | JDict kv => mret (dict_get k kv)
  | _ => raise AttributeError
  end.

Definition quote (v : json) : M text :=
  match v with
  | JStr s =>
      match utf8_encode s with
      | Some bs => mret (quote_bytes bs)
      | None => raise UnicodeEncodeError
      end
  | _ => raise TypeError
  end.

(** [s.replace(":", "_").replace("/", "_")] on the plan key. *)
Definition py_safe_key (v : json) : M text :=
  match v with
  | JStr s => mret (replace 47 (py "_") (replace 58 (py "_") s))
  | _ => raise AttributeError
  end.

(** ** extract_data.py *)

Module ExtractData.
Section script.
Context `{Env}.

Definition BASE_URL : text := py "http://localhost:8000/api".
Definition DATA_DIR : path := script_dir ++ [py "data"].

Definition MERCHANT_IDS : list Z := [30; 243; 405]%Z.

Definition TRANSACTION_IDS : list text := py <$> [
  "dd129486-0b41-4b60-b023-b84834eb88d1";
  "dd120776-d050-44ad-a807-0881ec66b25c";
  "dd12603e-30b4-4893-b057-d1424ce10003";
  "dd12344d-722b-437d-8666-aef69eb17b61";
  "dd125369-f35e-4e36-907d-239111edb4a9";
  "dd12df73-641f-40f2-872f-0778b2be7e61";
  "dd121f11-f763-405d-98ce-842f34c35c6c";
  "dd1206b0-34ca-46be-9295-16e931c93e1a";
  "dd125d74-2755-45aa-9417-7fd1d713c029";
  "dd12856f-3ac4-47cb-b29d-def4dccf6fb8";
  "dd128d1b-8ba1-41cd-927e-d026dffc34ed";
  "dd122799-534a-4e19-877f-1a10553825e0";
  "dd12018c-c025-4f86-9430-b97bc8106d51";
  "dd125388-c220-4011-9761-e146588451e5";
  "dd121522-c0ea-46d9-9074-a9e409521d16";
  "dd51749a-4664-4f9b-8834-3996c32a24bc";
  "dd51011c-8d82-4970-b29b-d3fe460d8505";
  "dd118c65-bbb1-4e92-bbd7-570c1f43529b";
  "dd110d81-b79a-4732-8640-e3a9b27252be";
  "dd11abab-cfff-44eb-98e4-6eab31e07281";
  "dd11fe33-3411-4063-81b5-b690c12a9d05";
  "dd11f147-bc61-440a-9c57-da3ee1555c33";
  "dd112beb-08f1-4704-a9d7-50641a87ffab";
  "dd51e51b-0bd3-4836-bdcb-f1c6a7461a18";
  "dd51e08a-dc97-4661-8bb7-62b80ee14c90";
  "dd5125eb-e841-4243-9671-fe970e4889e1";
  "dd1165e7-c8f8-4f36-8491-0aba02258787";
  "dd1164da-0615-4722-a71b-b7e57527be28";
  "dd115ffb-fc94-463d-91db-f1d97fbeeec6";
  "dd529820-7122-4654-a460-780793c69d2d";
  "dd529e47-1d23-4cc9-93c3-09f358f1ce81";
  "dd52ccfb-a405-4f6e-9ea3-817937b7ecdb";
  "dd110f78-8797-478d-b3e6-71f00e2ed4a9";
  "dd1172bf-ffe6-4722-b158-53b800aeea29";
  "dd11e06e-ab40-4983-b765-e37a72e63a9c";
  "dd1230a4-aeee-4348-bb78-108c86a228a9";
  "dd122c66-a05a-4222-8f58-096a6ee93695";
  "dd126839-98c9-471f-a2c2-e3627e5b3321";
  "dd125455-3bae-440c-890a-938b482232e7";
  "dd12b879-ce1f-4f32-b053-947ff3f01206";
  "dd121dc7-5631-4b65-bc0e-f7b61e65ab15";
  "dd12bd17-a537-4da0-9a8e-57281544f63a";
  "dd1241e1-dd57-4836-ac8a-c16299efb867";
  "dd124584-e716-4f4b-acc7-6054a3a32888";
  "dd529fe7-95f5-4682-b09e-2281b7358158";
  "dd516e91-6817-4d4a-82bf-028d4734a783";
  "dd518512-77dd-4aaf-98b6-2838cac63908"
]%string.

Definition fetch_json (path : text) : M json :=
  let url := BASE_URL ++ path in
  result ← run_curl url;
  match result with
  | Completed returncode out err =>
      if (returncode =? 0)%Z && bool_decide (out ≠ []) then
        match json_loads out with
        | inr v => mret v
        | inl e => print (py "  ERROR fetching " ++ url ++ py ": " ++ e);; mret JNull
        end
      else
        print (py "  ERROR fetching " ++ url ++ py ": " ++ err);; mret JNull
  | RunRaised e =>
      print (py "  ERROR fetching " ++ url ++ py ": " ++ e);; mret JNull
  end.

Definition save_json (data : json) (filepath : path) : M unit :=
  mkdir_parents (parent filepath);;
  dump_json data filepath;;
  print (py "  Saved: " ++ name filepath).

Definition extract_merchants : M unit :=
  print (nl ++ py "=== Extracting merchants list ===");;
  data ← fetch_json (py "/merchants");
  if truthy data then save_json data (DATA_DIR ++ [py "merchants.json"]) else mret ().

(** The body of [for plan in data]. *)
Definition extract_plan (merchant_id : Z) (plan : json) : M unit :=
  plan_key ← py_get plan (py "plan_key");
  if truthy plan_key then
    encoded_key ← quote plan_key;
    plan_data ← fetch_json (py "/merchants/" ++ str_of_Z merchant_id ++ py "/plans/" ++ encoded_key);
    if truthy plan_data then
      safe_key ← py_safe_key plan_key;
      save_json plan_data (DATA_DIR ++ [py "plans"; py "details"; safe_key ++ py ".json"])
    else mret ()
  else mret ().

(** The body of [for merchant_id in MERCHANT_IDS]. *)
Definition extract_merchant (merchant_id : Z) : M unit :=
  let mid := str_of_Z merchant_id in
  print (nl ++ py "=== Extracting merchant " ++ mid ++ py " ===");;
  data ← fetch_json (py "/merchants/" ++ mid);
  (if truthy data then save_json data (DATA_DIR ++ [py "merchants"; mid ++ py ".json"])
   else mret ());;
  data ← fetch_json (py "/merchants/" ++ mid ++ py "/monthly");
  (if truthy data then save_json data (DATA_DIR ++ [py "monthly"; mid ++ py ".json"])
   else mret ());;
  data ← fetch_json (py "/merchants/" ++ mid ++ py "/plans");
  (if truthy data then
     save_json data (DATA_DIR ++ [py "plans"; mid ++ py ".json"]);;
     n ← py_len data;
     print (py "  Extracting " ++ str_of_nat n ++ py " plan details...");;
     plans ← py_iter data;
     for_each plans (extract_plan merchant_id)
   else mret ());;
  data ← fetch_json (py "/merchants/" ++ mid ++ py "/stability");
  if truthy data then save_json data (DATA_DIR ++ [py "stability"; mid ++ py ".json"])
  else mret ().

Definition extract_merchant_details : M unit :=
  for_each MERCHANT_IDS extract_merchant.

(** The body of [for i, tx_id in enumerate(TRANSACTION_IDS, 1)]. *)
Definition extract_transaction (it : nat * text) : M unit :=
  let '(i, tx_id) := it in
  print (py "  [" ++ str_of_nat i ++ py "/" ++ str_of_nat (length TRANSACTION_IDS)
         ++ py "] " ++ take 8 tx_id ++ py "...");;
  data ← fetch_json (py "/transactions/" ++ tx_id);
  (if truthy data then
     save_json data (DATA_DIR ++ [py "transactions"; tx_id ++ py ".json"])
   else mret ());;
  data ← fetch_json (py "/transactions/" ++ tx_id ++ py "/why");
  if truthy data then
    save_json data (DATA_DIR ++ [py "transactions"; py "why"; tx_id ++ py ".json"])
  else mret ().

Definition extract_transactions : M unit :=
  print (nl ++ py "=== Extracting " ++ str_of_nat (length TRANSACTION_IDS)
         ++ py " transactions ===");;
  for_each (enumerate1 TRANSACTION_IDS) extract_transaction.

Definition main : M unit :=
  print rule60;;
  print (py "Extracting JSON data from API for static demo");;
  print rule60;;
  print (py "Base URL: " ++ BASE_URL);;
  print (py "Data dir: " ++ str_of_path DATA_DIR);;
  mkdir_parents (DATA_DIR ++ [py "merchants"]);;
  mkdir_parents (DATA_DIR ++ [py "monthly"]);;
  mkdir_parents (DATA_DIR ++ [py "plans"; py "details"]);;
  mkdir_parents (DATA_DIR ++ [py "stability"]);;
  mkdir_parents (DATA_DIR ++ [py "transactions"; py "why"]);;
  extract_merchants;;
  extract_merchant_details;;
  extract_transactions;;
  print (nl ++ rule60);;
  print (py "Extraction complete!");;
  print rule60.

End script.
End ExtractData.

(** ** extract_all_transactions.py *)

Module ExtractAllTransactions.
Section script.
Context `{Env}.

Definition BASE_URL : text := py "http://localhost:8000/api".
Definition DATA_DIR : path := script_dir ++ [py "data"].
Definition TX_DIR : path := DATA_DIR ++ [py "transactions"].
Definition WHY_DIR : path := TX_DIR ++ [py "why"].

(** The body of [for json_file in DATA_DIR.rglob("*.json")]. *)
Definition scan_file (json_file : path) (tx_ids : gset text) : M (gset text) :=
  if contains (py "transactions") (str_of_path json_file) then mret tx_ids
  else
    r ← read_text json_file;
    match r with
    | inr content =>
        let matches := findall content in
        mret (tx_ids ∪ list_to_set matches)
    | inl e =>
        print (py "  Error reading " ++ str_of_path json_file ++ py ": " ++ e);;
        mret tx_ids
    end.

Definition find_all_transaction_ids : M (gset text) :=
  json_files ← rglob_json DATA_DIR;
  for_fold json_files scan_file ∅.

Definition fetch_json (path : text) : M json :=
  let url := BASE_URL ++ path in
  result ← run_curl url;
  match result with
  | Completed returncode out err =>
      if (returncode =? 0)%Z && bool_decide (out ≠ []) then
        match json_loads out with
        | inr v => mret v
        | inl e => print (py "  ERROR fetching " ++ url ++ py ": " ++ e);; mret JNull
        end
      else mret JNull
  | RunRaised e =>
      print (py "  ERROR fetching " ++ url ++ py ": " ++ e);; mret JNull
  end.

Definition save_json (data : json) (filepath : path) : M unit :=
  mkdir_parents (parent filepath);;
  dump_json data filepath.

(** [existing]: the loop over [TX_DIR.glob("*.json")]. *)
Definition add_existing (f : path) (existing : gset text) : M (gset text) :=
  if bool_decide (name f ≠ py "why") then mret (existing ∪ {[stem f]})
  else mret existing.

Definition existing_ids : M (gset text) :=
  fs ← glob_json TX_DIR;
  for_fold fs add_existing ∅.

(** Lines 68-81 of [main]: the identifiers found, those already extracted,
    and the work set [missing]. *)
Definition missing_ids : M (gset text) :=
  print (nl ++ py "Scanning existing JSON files for transaction IDs...");;
  tx_ids ← find_all_transaction_ids;
  print (py "Found " ++ str_of_nat (size tx_ids) ++ py " unique transaction IDs");;
  existing ← existing_ids;
  let missing := tx_ids ∖ existing in
  print (py "Already extracted: " ++ str_of_nat (size existing));;
  print (py "Need to extract: " ++ str_of_nat (size missing));;
  mret missing.

(** The body of [for i, tx_id in enumerate(sorted(missing), 1)], on the
    counters [(success, failed)]. *)
Definition extract_one (total : nat) (it : nat * text) (counts : nat * nat)
    : M (nat * nat) :=
  let '(i, tx_id) := it in
  let '(success, failed) := counts in
  print_end (py "  [" ++ str_of_nat i ++ py "/" ++ str_of_nat total ++ py "] "
             ++ take 12 tx_id ++ py "...") (py " ");;
  data ← fetch_json (py "/transactions/" ++ tx_id);
  if truthy data then
    save_json data (TX_DIR ++ [tx_id ++ py ".json"]);;
    why_data ← fetch_json (py "/transactions/" ++ tx_id ++ py "/why");
    (if truthy why_data then save_json why_data (WHY_DIR ++ [tx_id ++ py ".json"])
     else mret ());;
    print (py "OK");;
    mret (S success, failed)
  else
    print (py "FAILED");;
    mret (success, S failed).

Definition extract_missing (missing : gset text) : M (nat * nat) :=
  for_fold (enumerate1 (sorted (elements missing))) (extract_one (size missing)) (O, O).

Definition main : M unit :=
  print rule60;;
  print (py "Extracting all transaction details");;
  print rule60;;
  mkdir_parents TX_DIR;;
  mkdir_parents WHY_DIR;;
  missing ← missing_ids;
  if bool_decide (missing = ∅) then
    print (nl ++ py "All transactions already extracted!")
  else
    print (nl ++ py "Extracting " ++ str_of_nat (size missing) ++ py " transactions...");;
    counts ← extract_missing missing;
    print (nl ++ rule60);;
    print (py "Extraction complete!");;
    print (py "Success: " ++ str_of_nat counts.1 ++ py ", Failed: " ++ str_of_nat counts.2);;
    print rule60.

End script.
End ExtractAllTransactions.

(** ** Specification-side definitions *)

Module Spec.

(** An occurrence of the pattern: the quoted key and the colon, a run of
    white space, and a quoted group of 36 characters of [[a-f0-9-]]. *)
Definition occurrence (ws g : text) : text := key_lit ++ ws ++ dq :: g ++ [dq].

Definition shaped (ws g : text) : Prop :=
  Forall is_space ws ∧ length g = 36%nat ∧ Forall is_hexdash g.

(** The pattern matches [s] at offset [i] and captures [g] there. *)
Definition captured_at (s : text) (i : nat) (g : text) : Prop :=
  ∃ ws post, shaped ws g ∧ drop i s = occurrence ws g ++ post.

Definition captured (s g : text) : Prop := ∃ i, captured_at s i g.

(** The offset just past the occurrence of the pattern found at [i]. *)
Definition ends_at (s : text) (i j : nat) : Prop :=
  ∃ ws g post, shaped ws g ∧ drop i s = occurrence ws g ++ post
               ∧ j = (i + length (occurrence ws g))%nat.

(** The document [fetch_json] hands to its caller for a url: [JNull] is
    Python's [None]. *)
Definition fetched `{Env} (url : text) : json :=
  match curl url with
  | Completed returncode out _ =>
      if (returncode =? 0)%Z && bool_decide (out ≠ []) then
        match json_loads out with
        | inr v => v
        | inl _ => JNull
        end
      else JNull
  | RunRaised _ => JNull
  end.

(** What the discovery scan takes from one directory entry. *)
Definition contribution (fs : gmap path file) (p : path) : gset text :=
  if contains (py "transactions") (str_of_path p) then ∅
  else
    match fs !! p with
    | Some (Content t) => list_to_set (findall t)
    | _ => ∅
    end.


(** What [existing] takes from one entry of the transactions directory. *)
Definition stem_contribution (p : path) : gset text :=
  if bool_decide (name p ≠ py "why") then {[stem p]} else ∅.

(** *** Saving a document *)

(** The result of a computation that raises [e], if any, or returns [a]. *)
Definition outcome {A} (e : option exn) (a : A) (w : world) : res A :=
  match e with
  | None => Done a w
  | Some e => Raise e w
  end.

(** The first of two steps that raises. *)
Definition or_else (e1 e2 : option exn) : option exn :=
  match e1 with
  | Some e => Some e
  | None => e2
  end.

(** A loop whose turn at [x] raises [stops x]: the elements it gets to, up
    to and including the one that stops it, and the exception it ends
    with. *)
Fixpoint reached {A} (stops : A → option exn) (l : list A) : list A :=
  match l with
  | [] => []
  | x :: l' =>
      match stops x with
      | Some _ => [x]
      | None => x :: reached stops l'
      end
  end.

Fixpoint first_stop {A} (stops : A → option exn) (l : list A) : option exn :=
  match l with
  | [] => None
  | x :: l' => or_else (stops x) (first_stop stops l')
  end.

Section saving.
Context `{Env}.

(** What a save leaves in the file once it is open: the dump of the
    document or, when the dump stops, the part written. *)
Definition artifact (d : json) : file :=
  Content (if encodable d then json_dumps d else json_written d).

(** The exception [save_json(d, p)] raises, if any, and the files after
    it. *)
Definition save_error (d : json) (p : path) : option exn :=
  match open_error p with
  | Some e => Some e
  | None => if encodable d then None else Some UnicodeEncodeError
  end.

Definition saved (fs : gmap path file) (d : json) (p : path) : gmap path file :=
  match open_error p with
  | Some _ => fs
  | None => <[p := artifact d]> fs
  end.

(** The same for [if d: save_json(d, p)]. *)
Definition save_if_error (d : json) (p : path) : option exn :=
  if truthy d then save_error d p else None.

Definition saved_if (fs : gmap path file) (d : json) (p : path) : gmap path file :=
  if truthy d then saved fs d p else fs.

End saving.

Section discovery.
Context `{Env}.
Import ExtractAllTransactions.

(** The identifiers the scan finds in a directory tree, and the stems
    already present in the transactions directory. *)
Definition discovered (fs : gmap path file) : gset text :=
  ⋃ (contribution fs <$>
       filter (λ p, DATA_DIR `prefix_of` p ∧ DATA_DIR ≠ p ∧ is_json_name (name p))
              (map_to_list fs).*1).

Definition existing (fs : gmap path file) : gset text :=
  ⋃ (stem_contribution <$>
       filter (λ p, p ≠ [] ∧ parent p = TX_DIR ∧ is_json_name (name p))
              (map_to_list fs).*1).

(** [p] is a document the scan reads, and [t] is its text. *)
Definition scanned_text (fs : gmap path file) (p : path) (t : text) : Prop :=
  fs !! p = Some (Content t)
  ∧ DATA_DIR `prefix_of` p ∧ DATA_DIR ≠ p ∧ is_json_name (name p)
  ∧ contains (py "transactions") (str_of_path p) = false.

(** The work list of a run that starts from the files [fs]. *)
Definition work_list (fs : gmap path file) : list text :=
  sorted (elements (discovered fs ∖ existing fs)).

Definition tx_url (tx_id : text) : text := BASE_URL ++ py "/transactions/" ++ tx_id.
Definition why_url (tx_id : text) : text :=
  BASE_URL ++ py "/transactions/" ++ tx_id ++ py "/why".
Definition tx_file (tx_id : text) : path := TX_DIR ++ [tx_id ++ py ".json"].
Definition why_file (tx_id : text) : path := WHY_DIR ++ [tx_id ++ py ".json"].

(** The primary fetch of an identifier fails when what comes back is not
    truthy. *)
Definition primary_ok (tx_id : text) : bool := truthy (fetched (tx_url tx_id)).

(** The exception that ends the worker loop at an identifier, if any: the
    save of its detail document or, after that, of its why document. *)
Definition stops (tx_id : text) : option exn :=
  let data := fetched (tx_url tx_id) in
  let why := fetched (why_url tx_id) in
  if truthy data then
    or_else (save_error data (tx_file tx_id)) (save_if_error why (why_file tx_id))
  else None.

(** The effect of one turn of the worker loop: the urls curl is invoked on
    and the files left behind. The why url is requested once the detail
    document is saved. *)
Definition urls_of (tx_id : text) : list text :=
  let data := fetched (tx_url tx_id) in
  if truthy data then
    match save_error data (tx_file tx_id) with
    | Some _ => [tx_url tx_id]
    | None => [tx_url tx_id; why_url tx_id]
    end
  else [tx_url tx_id].

Definition files_after (fs : gmap path file) (tx_id : text) : gmap path file :=
  let data := fetched (tx_url tx_id) in
  let why := fetched (why_url tx_id) in
  if truthy data then
    let fs1 := saved fs data (tx_file tx_id) in
    match save_error data (tx_file tx_id) with
    | Some _ => fs1
    | None => saved_if fs1 why (why_file tx_id)
    end
  else fs.

(** The counters after a turn that did not raise. *)
Definition counts_after (counts : nat * nat) (tx_id : text) : nat * nat :=
  if primary_ok tx_id then (S counts.1, counts.2) else (counts.1, S counts.2).

(** The last thing a run with an empty work set prints. *)
Definition nothing_to_do : text :=
  (nl ++ py "All transactions already extracted!") ++ nl.

End discovery.

(** The characters of an encoded url segment: the ones [quote] leaves as
    they are, and the percent sign. *)
Definition url_char (c : N) : bool := always_safe c || (c =? 37).

Section static.
Context `{Env}.

(** The url and the artifact of the details of one plan of a merchant: the
    key as [quote] encodes its bytes, and the key with its colons and slashes
    replaced. *)
Definition plan_url (merchant_id : Z) (bs : list N) : text :=
  ExtractData.BASE_URL ++ py "/merchants/" ++ str_of_Z merchant_id ++ py "/plans/"
    ++ quote_bytes bs.

Definition plan_file (key : text) : path :=
  ExtractData.DATA_DIR
    ++ [py "plans"; py "details"; replace 47 (py "_") (replace 58 (py "_") key) ++ py ".json"].

End static.

Section static_transactions.
Context `{Env}.

(** One turn of the loop over the listed transactions: the two artifacts
    are written independently of each other, the why url is requested
    unless the save of the detail document raises. *)
Definition static_stops (tx_id : text) : option exn :=
  or_else (save_if_error (fetched (tx_url tx_id)) (tx_file tx_id))
          (save_if_error (fetched (why_url tx_id)) (why_file tx_id)).

Definition static_urls_of (tx_id : text) : list text :=
  match save_if_error (fetched (tx_url tx_id)) (tx_file tx_id) with
  | Some _ => [tx_url tx_id]
  | None => [tx_url tx_id; why_url tx_id]
  end.

Definition static_files_after (fs : gmap path file) (tx_id : text) : gmap path file :=
  let fs1 := saved_if fs (fetched (tx_url tx_id)) (tx_file tx_id) in
  match save_if_error (fetched (tx_url tx_id)) (tx_file tx_id) with
  | Some _ => fs1
  | None => saved_if fs1 (fetched (why_url tx_id)) (why_file tx_id)
  end.

End static_transactions.

Section static_merchants.
Context `{Env}.

(** The key of a plan entry and its bytes, when the entry leads to a
    request: the entry is an object and its [plan_key] a string that is not
    empty and that UTF-8 can encode. *)
Definition plan_request (plan : json) : option (text * list N) :=
  match plan with
  | JDict kv =>
      match dict_get (py "plan_key") kv with
      | JStr s => if truthy (JStr s) then bs ← utf8_encode s; Some (s, bs) else None
      | _ => None
      end
  | _ => None
  end.

(** One turn of the loop over the plans of a merchant: the url requested,
    the files left, and the exception that ends the loop, if any.  An entry
    that is no object has no [get]; a truthy key that is no string, or a
    string with a code point UTF-8 refuses, stops [quote]; after the
    request, the save of a truthy document raises as every save does. *)
Definition plan_urls (merchant_id : Z) (plan : json) : list text :=
  match plan_request plan with
  | Some (_, bs) => [plan_url merchant_id bs]
  | None => []
  end.

Definition plan_files_after (merchant_id : Z) (fs : gmap path file) (plan : json)
    : gmap path file :=
  match plan_request plan with
  | Some (s, bs) => saved_if fs (fetched (plan_url merchant_id bs)) (plan_file s)
  | None => fs
  end.

Definition plan_raises (merchant_id : Z) (plan : json) : option exn :=
  match plan with
  | JDict kv =>
      let plan_key := dict_get (py "plan_key") kv in
      if truthy plan_key then
        match plan_key with
        | JStr s =>
            match utf8_encode s with
            | Some bs => save_if_error (fetched (plan_url merchant_id bs)) (plan_file s)
            | None => Some UnicodeEncodeError
            end
        | _ => Some TypeError
        end
      else None
  | _ => Some AttributeError
  end.

(** The four documents of a merchant and their files. *)
Definition merchant_url (merchant_id : Z) (suffix : text) : text :=
  ExtractData.BASE_URL ++ py "/merchants/" ++ str_of_Z merchant_id ++ suffix.

Definition merchant_file (dir : text) (merchant_id : Z) : path :=
  ExtractData.DATA_DIR ++ [dir; str_of_Z merchant_id ++ py ".json"].

Definition plans_url (merchant_id : Z) : text := merchant_url merchant_id (py "/plans").

(** The exception that the part of the loop body that handles the plans
    document of a merchant raises, if any: the save of the document, [len]
    of a number or of true, [get] on the characters of a string or on the
    keys of an object, or what the first entry of a list that raises
    raises. *)
Definition plans_raise (merchant_id : Z) (data : json) : option exn :=
  if truthy data then
    or_else (save_error data (merchant_file (py "plans") merchant_id))
      match data with
      | JList l => first_stop (plan_raises merchant_id) l
      | JStr _ | JDict _ => Some AttributeError
      | _ => Some TypeError
      end
  else None.

(** The exception that ends the turn of a merchant, the fetch of the list
    of the merchants, and the whole run, if any. *)
Definition merchant_raises (merchant_id : Z) : option exn :=
  or_else (save_if_error (fetched (merchant_url merchant_id []))
             (merchant_file (py "merchants") merchant_id))
    (or_else (save_if_error (fetched (merchant_url merchant_id (py "/monthly")))
                (merchant_file (py "monthly") merchant_id))
       (or_else (plans_raise merchant_id (fetched (plans_url merchant_id)))
          (save_if_error (fetched (merchant_url merchant_id (py "/stability")))
             (merchant_file (py "stability") merchant_id)))).




End static_merchants.

(** *** Runs that do not look at the files *)

Definition empty_world : world := World ∅ [] [].

(** The world [w0] that a run reaches from the empty world, laid over [w]. *)
Definition onto (w w0 : world) : world :=
  World (files w0 ∪ files w) (stdout w ++ stdout w0) (invoked w ++ invoked w0).

Definition replay {A} (w : world) (r : res A) : res A :=
  match r with
  | Done a w0 => Done a (onto w w0)
  | Raise e w0 => Raise e (onto w w0)
  end.

(** A computation whose course does not depend on the world it starts in. *)
Definition blind {A} (c : M A) : Prop := ∀ w, c w = replay w (c empty_world).

(** What a run may do to the world: write documents below [d], invoke curl
    on urls that start with [base], and print. *)
Definition confined (d : path) (base : text) (w w' : world) : Prop :=
  (∀ p, files w' !! p = files w !! p
        ∨ (d `prefix_of` p ∧ d ≠ p ∧ ∃ t, files w' !! p = Some (Content t)))
  ∧ (∃ us, invoked w' = invoked w ++ us ∧ Forall (λ u, startswith base u = true) us)
  ∧ (∃ out, stdout w' = stdout w ++ out).

(** A computation that stays within these bounds from every start, whether
    it returns or raises. *)
Definition keeps {A} (d : path) (base : text) (c : M A) : Prop :=
  ∀ w, confined d base w (final (c w)).

(** *** The HTTP exchange behind a curl invocation

    [curl -s --max-time 30 url], run without [--fail]: when no response
    arrives (refused, timed out, unresolved) curl exits with a non-zero
    status; once a response has arrived it prints the body and exits with
    status 0, whatever the HTTP status code of the response. *)
Inductive exchange :=
  | NoResponse (exit : positive) (out err : text)
  | Response (status : Z) (body : text).

Definition curl_silent (x : exchange) : proc :=
  match x with
  | NoResponse exit out err => Completed (Z.pos exit) out err
  | Response _ body => Completed 0 body []
  end.

(** The three failures the specification lists for a fetch. *)
Definition listed_failure (loads : text → text + json) (x : exchange) : Prop :=
  match x with
  | NoResponse _ _ _ => True
  | Response status body =>
      ¬ (200 ≤ status < 300)%Z ∨ ∃ e, loads body = inl e
  end.

(** The same world, except that a body decoding to a document that is not
    truthy decodes to [None] instead. *)
Definition falsy_as_none (E : Env) : Env :=
  {| curl := curl;
     json_loads := λ s,
       match json_loads s with
       | inr v => inr (if truthy v then v else JNull)
       | inl e => inl e
       end;
     json_dumps := json_dumps;
     json_written := json_written;
     script_dir := script_dir |}.

End Spec.
Import Spec.

(** ** Sample worlds, for the examples *)

Module Sample.

Definition id1 : text := py "dd129486-0b41-4b60-b023-b84834eb88d1".
Definition id2 : text := py "dd120776-d050-44ad-a807-0881ec66b25c".

Definition quoted (s : text) : text := dq :: s ++ [dq].

(** The body [{"ok": true}] and the body FastAPI sends with a 404,
    [{"detail": "Not Found"}]. *)
Definition body_ok : text := py "{" ++ quoted (py "ok") ++ py ": true}".
Definition body_404 : text :=
  py "{" ++ quoted (py "detail") ++ py ": " ++ quoted (py "Not Found") ++ py "}".

Definition doc_ok : json := JDict [(py "ok", JBool true)].
Definition doc_404 : json := JDict [(py "detail", JStr (py "Not Found"))].

(** The body [{"note": "\ud800"}], whose string decodes to the lone
    surrogate U+D800. *)
Definition body_surrogate : text :=
  py "{" ++ quoted (py "note") ++ py ": " ++ quoted (py "\ud800") ++ py "}".
Definition doc_surrogate : json := JDict [(py "note", JStr [55296])].

(** [json.loads] on the bodies the examples use; the examples send no
    other body. *)
Definition loads (s : text) : text + json :=
  if decide (s = body_ok) then inr doc_ok
  else if decide (s = body_404) then inr doc_404
  else if decide (s = body_surrogate) then inr doc_surrogate
  else if decide (s = py "null") then inr JNull
  else if decide (s = py "[]") then inr (JList [])
  else inl (py "Expecting value: line 1 column 1 (char 0)").

(** [json.dump(v, indent=2, ensure_ascii=False)] on the documents of the
    examples. *)
Definition dumps (v : json) : text :=
  match v with
  | JDict [(k, JBool true)] => py "{" ++ nl ++ py "  " ++ quoted k ++ py ": true" ++ nl ++ py "}"
  | JDict [(k, JStr x)] =>
      py "{" ++ nl ++ py "  " ++ quoted k ++ py ": " ++ quoted x ++ nl ++ py "}"
  | JList [] => py "[]"
  | _ => py "null"
  end.

(** What such a dump has written when it stops at the string of a
    document it cannot encode. *)
Definition written (v : json) : text :=
  match v with
  | JDict [(k, JStr _)] => py "{" ++ nl ++ py "  " ++ quoted k ++ py ": "
  | _ => []
  end.

Definition dir : path := [py "srv"; py "demo"].

(** An API that cannot be reached: curl exits with status 7. *)
#[export] Instance unreachable : Env | 100 :=
  {| curl := λ _, curl_silent (NoResponse 7 [] []);
     json_loads := loads; json_dumps := dumps; json_written := written;
     script_dir := dir |}.

(** An API that knows no transaction but explains every one: the
    ["/why"] urls answer [{"ok": true}], the others cannot be fetched. *)
#[export] Instance only_why : Env | 100 :=
  {| curl := λ url,
       if endswith (py "/why") url then curl_silent (Response 200 body_ok)
       else curl_silent (NoResponse 7 [] []);
     json_loads := loads; json_dumps := dumps; json_written := written;
     script_dir := dir |}.

(** An API that answers every url with [{"ok": true}]. *)
#[export] Instance always_ok : Env | 100 :=
  {| curl := λ _, curl_silent (Response 200 body_ok);
     json_loads := loads; json_dumps := dumps; json_written := written;
     script_dir := dir |}.

(** An API that answers every url with a 404 and its JSON body. *)
#[export] Instance not_found : Env | 100 :=
  {| curl := λ _, curl_silent (Response 404 body_404);
     json_loads := loads; json_dumps := dumps; json_written := written;
     script_dir := dir |}.

(** An API that answers every url with [{"ok": true}], for a script that
    lives in a directory whose name has the word transactions in it. *)
#[export] Instance in_transactions_checkout : Env | 100 :=
  {| curl := λ _, curl_silent (Response 200 body_ok);
     json_loads := loads; json_dumps := dumps; json_written := written;
     script_dir := [py "srv"; py "transactions-demo"] |}.

(** An API that answers every url with a document that holds a lone
    surrogate. *)
#[export] Instance garbled : Env | 100 :=
  {| curl := λ _, curl_silent (Response 200 body_surrogate);
     json_loads := loads; json_dumps := dumps; json_written := written;
     script_dir := dir |}.

Definition start (fs : gmap path file) : world := World fs [] [].

(** One saved merchant document that mentions [id1]. *)
Definition one_mention : gmap path file :=
  {[ dir ++ [py "data"; py "merchants"; py "30.json"] :=
       Content (py "{" ++ occurrence [32] id1 ++ py "}") ]}.

(** A saved document that mentions [id1] and [id2], and the artifact of
    [id1] already in the transactions directory. *)
Definition two_mentions_one_done : gmap path file :=
  {[ dir ++ [py "data"; py "merchants"; py "30.json"] :=
       Content (py "[{" ++ occurrence [32] id1 ++ py "}, {" ++ occurrence [32] id2 ++ py "}]");
     dir ++ [py "data"; py "transactions"; id1 ++ py ".json"] :=
       Content (py "{}") ]}.

(** A document outside the transactions directory whose name happens to
    contain the word. *)
Definition beside_transactions : gmap path file :=
  {[ dir ++ [py "data"; py "merchants"; py "transactions_30.json"] :=
       Content (py "{" ++ occurrence [32] id1 ++ py "}") ]}.

(** A text in which the second occurrence of the pattern opens on the
    quote that closes the first. *)
Definition abutting : text :=
  occurrence [32] id1 ++ py "transaction_id" ++ [dq; 58; 32; dq] ++ id2 ++ [dq].

Definition abutting_file : gmap path file :=
  {[ dir ++ [py "data"; py "merchants"; py "30.json"] := Content abutting ]}.


End Sample.

(** ** The pattern *)

Ltac norm_app :=
  repeat (rewrite <-app_assoc || rewrite <-app_comm_cons || rewrite app_nil_l).

Section regex.

Lemma strip_prefix_Some p s r : strip_prefix p s = Some r ↔ s = p ++ r.
Proof.
  revert s. induction p as [|a p IH]; intros [|b s]; simpl.
  - split; congruence.
  - split; congruence.
  - split; [discriminate | intros [=]].
  - destruct (N.eqb_spec a b) as [->|Hab].
    + rewrite IH. split; [intros ->; done | intros [=]; done].
    + split; [discriminate | intros [=]; done].
Qed.

Lemma span_space_spec s n r :
  span_space s = (n, r) →
  ∃ ws, s = ws ++ r ∧ Forall is_space ws ∧ length ws = n.
Proof.
  revert n r. induction s as [|c s IH]; intros n r; simpl.
  - intros [= <- <-]. by exists [].
  - destruct (is_space c) eqn:Hc.
    + destruct (span_space s) as [k r'] eqn:Hs. intros [= <- <-].
      destruct (IH _ _ eq_refl) as (ws & -> & Hws & <-).
      exists (c :: ws). split_and!; [done| |done].
      constructor; [by rewrite Hc | done].
    + intros [= <- <-]. by exists [].
Qed.

Lemma span_space_app ws c r :
  Forall is_space ws → is_space c = false →
  span_space (ws ++ c :: r) = (length ws, c :: r).
Proof.
  intros Hws Hc. induction Hws as [|x ws Hx _ IH]; simpl.
  - by rewrite Hc.
  - destruct (is_space x); [|done]. by rewrite IH.
Qed.

Lemma take_hexdash_spec n s g r :
  take_hexdash n s = Some (g, r) →
  s = g ++ r ∧ length g = n ∧ Forall is_hexdash g.
Proof.
  revert s g r. induction n as [|n IH]; intros s g r; simpl.
  - intros [= <- <-]. done.
  - destruct s as [|c s]; [done|].
    destruct (is_hexdash c) eqn:Hc; [|done].
    destruct (take_hexdash n s) as [[g' r']|] eqn:Ht; [|done].
    intros [= <- <-]. destruct (IH _ _ _ Ht) as (-> & <- & Hg).
    split_and!; [done..|]. constructor; [by rewrite Hc | done].
Qed.

Lemma take_hexdash_app g r :
  Forall is_hexdash g → take_hexdash (length g) (g ++ r) = Some (g, r).
Proof.
  induction 1 as [|c g Hc _ IH]; simpl; [done|].
  destruct (is_hexdash c); [|done]. by rewrite IH.
Qed.

Lemma length_occurrence ws g :
  length (occurrence ws g) = (length ws + length g + 19)%nat.
Proof. unfold occurrence. rewrite !length_app. simpl. rewrite length_app. simpl. lia. Qed.

Lemma match_at_spec s g n :
  match_at s = Some (g, n) ↔
  ∃ ws post, shaped ws g ∧ s = occurrence ws g ++ post ∧ n = length (occurrence ws g).
Proof.
  unfold match_at. split.
  - destruct (strip_prefix key_lit s) as [r|] eqn:Hp; [|done].
    apply strip_prefix_Some in Hp as ->.
    destruct (span_space r) as [k r1] eqn:Hs.
    apply span_space_spec in Hs as (ws & -> & Hws & <-).
    destruct r1 as [|q r2]; [done|].
    destruct (N.eqb_spec q dq) as [->|]; [|done].
    destruct (take_hexdash 36 r2) as [[g' [|q' r3]]|] eqn:Ht; [done| |done].
    destruct (N.eqb_spec q' dq) as [->|]; [|done].
    intros [= <- <-]. apply take_hexdash_spec in Ht as (-> & Hlen & Hg).
    exists ws, r3. split; [done|]. split.
    + unfold occurrence. by norm_app.
    + rewrite length_occurrence, Hlen. simpl. lia.
  - intros (ws & post & (Hws & Hlen & Hg) & -> & ->).
    rewrite length_occurrence. unfold occurrence. norm_app.
    assert (strip_prefix key_lit (key_lit ++ ws ++ dq :: g ++ dq :: post)
            = Some (ws ++ dq :: g ++ dq :: post)) as -> by by apply strip_prefix_Some.
    rewrite span_space_app by done.
    change (dq =? dq) with true. cbv iota.
    rewrite <-Hlen, take_hexdash_app by done.
    change (dq =? dq) with true. cbv iota.
    do 2 f_equal. simpl. lia.
Qed.

End regex.

Section overlap.

Lemma key_lit_eval :
  key_lit = [34; 116; 114; 97; 110; 115; 97; 99; 116; 105; 111; 110; 95; 105; 100; 34; 58].
Proof. reflexivity. Qed.

Lemma space_not_dq ws i : Forall is_space ws → ws !! i ≠ Some dq.
Proof.
  intros Hws Hi. by apply (Forall_lookup_1 _ _ _ _ Hws) in Hi.
Qed.

Lemma hexdash_neither g i c :
  Forall is_hexdash g → c = dq ∨ c = 116 → g !! i ≠ Some c.
Proof.
  intros Hg Hc Hi. apply (Forall_lookup_1 _ _ _ _ Hg) in Hi.
  by destruct Hc as [-> | ->].
Qed.

(** Inside an occurrence, the pattern can start again only on the closing
    quote. *)
Lemma occurrence_overlap ws g post k ws' g' post' :
  shaped ws g →
  (0 < k < length (occurrence ws g))%nat →
  drop k (occurrence ws g ++ post) = occurrence ws' g' ++ post' →
  S k = length (occurrence ws g).
Proof.
  intros (Hws & Hlen & Hg) Hk Hdrop.
  assert ((occurrence ws g ++ post) !! k = Some dq) as H0.
  { rewrite <-(Nat.add_0_r k), <-lookup_drop, Hdrop. done. }
  assert ((occurrence ws g ++ post) !! S k = Some 116) as H1.
  { rewrite <-(Nat.add_1_r k), <-lookup_drop, Hdrop. done. }
  rewrite length_occurrence in *. unfold occurrence in H0, H1.
  rewrite key_lit_eval in H0, H1. clear Hdrop.
  do 17 (destruct k as [|k]; [simpl in H0, H1; first [lia | discriminate]|]).
  simpl in H0, H1.
  destruct (decide (k < length ws)%nat) as [Hlt|Hge].
  { rewrite <-app_assoc, lookup_app_l in H0 by done. by apply space_not_dq in H0. }
  rewrite <-app_assoc, lookup_app_r in H0 by lia.
  rewrite <-app_assoc, lookup_app_r in H1 by lia.
  destruct (k - length ws)%nat as [|j] eqn:Hj.
  { replace (S k - length ws)%nat with 1%nat in H1 by lia.
    simpl in H1. rewrite <-app_assoc, lookup_app_l in H1 by lia.
    apply hexdash_neither in H1; [done..|by right]. }
  simpl in H0. rewrite <-app_assoc in H0.
  destruct (decide (j < length g)%nat) as [Hlt|Hge'].
  { rewrite lookup_app_l in H0 by done.
    apply hexdash_neither in H0; [done..|by left]. }
  rewrite lookup_app_r in H0 by lia.
  destruct (j - length g)%nat as [|j'] eqn:Hj'; [lia|].
  replace (S k - length ws)%nat with (S (S j)) in H1 by lia.
  simpl in H1. rewrite <-app_assoc, lookup_app_r in H1 by lia.
  replace (S j - length g)%nat with (S (S j')) in H1 by lia.
  simpl in H1. lia.
Qed.

End overlap.

Section findall.

Lemma captured_at_match s i g :
  captured_at s i g ↔ ∃ n, match_at (drop i s) = Some (g, n).
Proof.
  unfold captured_at. split.
  - intros (ws & post & Hsh & Hd). eexists. apply match_at_spec. eauto.
  - intros (n & (ws & post & Hsh & Hd & _)%match_at_spec). eauto.
Qed.

Lemma findall_from_sound s : ∀ skip g,
  g ∈ findall_from skip s → ∃ i, (skip ≤ i)%nat ∧ captured_at s i g.
Proof.
  induction s as [|c s IH]; intros skip g; simpl; [by intros ?%elem_of_nil|].
  destruct skip as [|k].
  - destruct (match_at (c :: s)) as [[g0 n0]|] eqn:Hm.
    + intros [->|Hin]%elem_of_cons.
      * exists O. split; [lia|]. apply captured_at_match. eauto.
      * destruct (IH _ _ Hin) as (i & _ & Hi). exists (S i). split; [lia | done].
    + intros Hin. destruct (IH _ _ Hin) as (i & _ & Hi). exists (S i). split; [lia | done].
  - intros Hin. destruct (IH _ _ Hin) as (i & Hle & Hi). exists (S i). split; [lia | done].
Qed.

Lemma findall_from_complete s : ∀ skip i g,
  (skip ≤ i)%nat → captured_at s i g →
  (∀ q, (q < i)%nat → ¬ ends_at s q (S i)) →
  g ∈ findall_from skip s.
Proof.
  induction s as [|c s IH]; intros skip i g Hle Hcap Hfree.
  { destruct Hcap as (ws & post & _ & Hd). rewrite drop_nil in Hd.
    apply (f_equal length) in Hd. rewrite length_app, length_occurrence in Hd.
    simpl in Hd. lia. }
  simpl. destruct i as [|i].
  - replace skip with O by lia.
    apply captured_at_match in Hcap as [n Hm]. simpl in Hm. rewrite Hm. left.
  - assert (∀ q, (q < i)%nat → ¬ ends_at s q (S i)) as Hfree'.
    { intros q Hq (ws & g' & post & Hsh & Hd & Hj).
      apply (Hfree (S q)); [lia|]. exists ws, g', post. split_and!; [done..|lia]. }
    destruct skip as [|k]; [|apply (IH k i); [lia | done..]].
    destruct (match_at (c :: s)) as [[g0 n0]|] eqn:Hm; [|apply (IH O i); [lia | done..]].
    right. apply (IH (pred n0) i); [|done..].
    apply match_at_spec in Hm as (ws0 & post0 & Hsh0 & Hs0 & ->).
    destruct (decide (pred (length (occurrence ws0 g0)) ≤ i)%nat) as [|Hgt]; [done|].
    exfalso. destruct Hcap as (ws & post & Hsh & Hd).
    assert (S (S i) = length (occurrence ws0 g0)) as Hend.
    { eapply (occurrence_overlap ws0 g0 post0 (S i)); [done|lia|].
      rewrite <-Hs0. exact Hd. }
    apply (Hfree O); [lia|]. exists ws0, g0, post0. split_and!; [done..|lia].
Qed.

(** Every group [findall] returns is captured by the pattern somewhere. *)
Lemma findall_sound s g : g ∈ findall s → captured s g.
Proof. intros (i & _ & Hi)%findall_from_sound. by exists i. Qed.

(** A group captured at [i] is returned, unless the pattern also matches
    from an earlier offset up to the quote at [i]. *)
Lemma findall_complete s i g :
  captured_at s i g → (∀ q, (q < i)%nat → ¬ ends_at s q (S i)) → g ∈ findall s.
Proof. apply findall_from_complete. lia. Qed.

End findall.

(** ** Runs *)

(** Closed equations are settled by evaluation. *)
Ltac by_vm :=
  lazymatch goal with
  | |- ?x = ?y => vm_cast_no_check (@eq_refl _ y)
  | |- is_Some _ => eexists; by_vm
  end.

Tactic Notation "wsimpl" := cbn [files stdout invoked final fst snd].
Tactic Notation "wsimpl" "in" hyp(H) := cbn [files stdout invoked final fst snd] in H.

Section runs.
Context {env : Env}.

Lemma bind_Done {A B} (c : M A) (f : A → M B) w a w' :
  c w = Done a w' → (c ≫= f) w = f a w'.
Proof. unfold mbind, M_bind. by intros ->. Qed.

Lemma Done_inj {A} (a a' : A) w w' : Done a w = Done a' w' → a = a' ∧ w = w'.
Proof. by intros [= -> ->]. Qed.

Lemma for_fold_app {A S} (l1 l2 : list A) (body : A → S → M S) s w :
  for_fold (l1 ++ l2) body s w =
  match for_fold l1 body s w with
  | Done s' w' => for_fold l2 body s' w'
  | Raise e w' => Raise e w'
  end.
Proof.
  revert s w. induction l1 as [|x l1 IH]; intros s w; simpl; [done|].
  unfold mbind, M_bind. destruct (body x s w); [apply IH | done].
Qed.

Lemma for_each_app {A} (l1 l2 : list A) (body : A → M unit) w :
  for_each (l1 ++ l2) body w =
  match for_each l1 body w with
  | Done _ w' => for_each l2 body w'
  | Raise e w' => Raise e w'
  end.
Proof.
  revert w. induction l1 as [|x l1 IH]; intros w; simpl; [done|].
  unfold mbind, M_bind. destruct (body x w); [apply IH | done].
Qed.

(** Both scripts' [fetch_json] invoke curl once, write no file and never
    raise. *)
Lemma static_fetch_json_run path w :
  ∃ out, ExtractData.fetch_json path w =
    Done (fetched (ExtractData.BASE_URL ++ path))
         (World (files w) (stdout w ++ out) (invoked w ++ [ExtractData.BASE_URL ++ path])).
Proof.
  unfold ExtractData.fetch_json, fetched, run_curl, mbind, M_bind, print, print_end, mret, M_ret.
  destruct (curl _) as [e|rc out err]; simpl; [eauto|].
  destruct (_ && _); simpl; [|eauto].
  destruct (json_loads out); simpl; [eauto|].
  exists []. by rewrite app_nil_r.
Qed.

Lemma fetch_json_run path w :
  ∃ out, ExtractAllTransactions.fetch_json path w =
    Done (fetched (ExtractAllTransactions.BASE_URL ++ path))
         (World (files w) (stdout w ++ out)
                (invoked w ++ [ExtractAllTransactions.BASE_URL ++ path])).
Proof.
  unfold ExtractAllTransactions.fetch_json, fetched, run_curl, mbind, M_bind,
    print, print_end, mret, M_ret.
  destruct (curl _) as [e|rc out err]; simpl; [eauto|].
  destruct (_ && _); simpl; [|exists []; by rewrite app_nil_r].
  destruct (json_loads out); simpl; [eauto|].
  exists []. by rewrite app_nil_r.
Qed.

Lemma bind_outcome {A B} (c : M A) (f : A → M B) w e a w' :
  c w = outcome e a w' →
  (c ≫= f) w = match e with None => f a w' | Some e' => Raise e' w' end.
Proof. unfold mbind, M_bind. intros ->. by destruct e. Qed.

Lemma bind_Raise {A B} (c : M A) (f : A → M B) w e w' :
  c w = Raise e w' → (c ≫= f) w = Raise e w'.
Proof. unfold mbind, M_bind. by intros ->. Qed.

(** A save raises what [open] or the dump raises, and leaves the file as
    far as it got. *)
Lemma dump_json_run d p w :
  dump_json d p w
  = outcome (save_error d p) () (World (saved (files w) d p) (stdout w) (invoked w)).
Proof.
  unfold dump_json, save_error, saved, artifact.
  destruct (open_error p); simpl; [by destruct w|]. by destruct (encodable d).
Qed.

Lemma static_save_json_run d p w :
  ∃ out, ExtractData.save_json d p w
         = outcome (save_error d p) ()
             (World (saved (files w) d p) (stdout w ++ out) (invoked w)).
Proof.
  unfold ExtractData.save_json, mkdir_parents. erewrite bind_Done by reflexivity.
  erewrite bind_outcome by apply dump_json_run.
  destruct (save_error d p); simpl.
  - exists []. by rewrite app_nil_r.
  - unfold print, print_end. by eexists.
Qed.

Lemma save_json_run d p w :
  ExtractAllTransactions.save_json d p w
  = outcome (save_error d p) () (World (saved (files w) d p) (stdout w) (invoked w)).
Proof.
  unfold ExtractAllTransactions.save_json, mkdir_parents. erewrite bind_Done by reflexivity.
  apply dump_json_run.
Qed.

Lemma static_save_if_run d p w :
  ∃ out, (if truthy d then ExtractData.save_json d p else mret ()) w
         = outcome (save_if_error d p) ()
             (World (saved_if (files w) d p) (stdout w ++ out) (invoked w)).
Proof.
  unfold save_if_error, saved_if. destruct (truthy d); [apply static_save_json_run|].
  exists []. unfold mret, M_ret. simpl. rewrite app_nil_r. by destruct w.
Qed.

Lemma save_if_run d p w :
  (if truthy d then ExtractAllTransactions.save_json d p else mret ()) w
  = outcome (save_if_error d p) () (World (saved_if (files w) d p) (stdout w) (invoked w)).
Proof.
  unfold save_if_error, saved_if. destruct (truthy d); [apply save_json_run|].
  unfold mret, M_ret. simpl. by destruct w.
Qed.

(** The scan: what it returns and what it leaves behind. *)
Lemma scan_file_run p acc w :
  ∃ out, ExtractAllTransactions.scan_file p acc w =
    Done (acc ∪ contribution (files w) p) (World (files w) (stdout w ++ out) (invoked w)).
Proof.
  unfold ExtractAllTransactions.scan_file, contribution.
  destruct (contains _ _).
  { exists []. unfold mret, M_ret. rewrite app_nil_r, union_empty_r_L. by destruct w. }
  unfold read_text, mbind, M_bind, print, print_end, mret, M_ret.
  destruct (files w !! p) as [[e|t]|]; simpl.
  - eexists. by rewrite union_empty_r_L.
  - exists []. rewrite app_nil_r. by destruct w.
  - eexists. by rewrite union_empty_r_L.
Qed.

Lemma scan_fold_run l : ∀ acc w,
  ∃ out, for_fold l ExtractAllTransactions.scan_file acc w =
    Done (acc ∪ ⋃ (contribution (files w) <$> l))
         (World (files w) (stdout w ++ out) (invoked w)).
Proof.
  induction l as [|p l IH]; intros acc w; simpl.
  - exists []. unfold mret, M_ret. rewrite app_nil_r, union_empty_r_L. by destruct w.
  - destruct (scan_file_run p acc w) as [out1 H1].
    rewrite (bind_Done _ _ _ _ _ H1).
    destruct (IH (acc ∪ contribution (files w) p)
                 (World (files w) (stdout w ++ out1) (invoked w))) as [out2 H2].
    rewrite H2. simpl. exists (out1 ++ out2).
    by rewrite <-!app_assoc, (assoc_L (∪)).
Qed.

End runs.

Section discovery_runs.
Context {env : Env}.
Import ExtractAllTransactions.

Lemma find_all_transaction_ids_run w :
  ∃ out, find_all_transaction_ids w =
    Done (discovered (files w)) (World (files w) (stdout w ++ out) (invoked w)).
Proof.
  unfold find_all_transaction_ids, rglob_json.
  erewrite bind_Done by reflexivity.
  destruct (scan_fold_run
    (filter (λ p, DATA_DIR `prefix_of` p ∧ DATA_DIR ≠ p ∧ is_json_name (name p))
       (map_to_list (files w)).*1) ∅ w) as [out Hout].
  exists out. rewrite Hout. by rewrite union_empty_l_L.
Qed.

Lemma add_existing_fold_run l : ∀ acc w,
  for_fold l add_existing acc w = Done (acc ∪ ⋃ (stem_contribution <$> l)) w.
Proof.
  induction l as [|p l IH]; intros acc w; simpl.
  - unfold mret, M_ret. by rewrite union_empty_r_L.
  - unfold mbind, M_bind, add_existing at 1, stem_contribution at 1, mret, M_ret.
    destruct (bool_decide _); wsimpl; rewrite IH; f_equal; set_solver.
Qed.

Lemma existing_ids_run w : existing_ids w = Done (existing (files w)) w.
Proof.
  unfold existing_ids, glob_json. erewrite bind_Done by reflexivity.
  rewrite add_existing_fold_run. by rewrite union_empty_l_L.
Qed.

Lemma missing_ids_run w :
  ∃ out, missing_ids w =
    Done (discovered (files w) ∖ existing (files w))
         (World (files w) (stdout w ++ out) (invoked w)).
Proof.
  unfold missing_ids, print, print_end.
  erewrite bind_Done by reflexivity.
  match goal with |- context [mbind _ find_all_transaction_ids ?w1] =>
    destruct (find_all_transaction_ids_run w1) as [out1 H1] end.
  erewrite bind_Done by exact H1. wsimpl.
  erewrite bind_Done by reflexivity.
  erewrite bind_Done by apply existing_ids_run. wsimpl.
  erewrite bind_Done by reflexivity.
  erewrite bind_Done by reflexivity.
  unfold mret, M_ret. wsimpl. eexists. f_equal. f_equal.
  rewrite <-!app_assoc. reflexivity.
Qed.

Lemma extract_one_run total i tx_id counts w :
  ∃ out, extract_one total (i, tx_id) counts w =
    outcome (stops tx_id) (counts_after counts tx_id)
      (World (files_after (files w) tx_id) (stdout w ++ out) (invoked w ++ urls_of tx_id)).
Proof.
  unfold extract_one, counts_after, files_after, urls_of, stops, primary_ok.
  destruct counts as [success failed].
  unfold print, print_end. erewrite bind_Done by reflexivity.
  match goal with |- context [mbind _ (fetch_json ?p) ?w1] =>
    destruct (fetch_json_run p w1) as [out1 H1] end.
  erewrite bind_Done by exact H1. wsimpl.
  change (BASE_URL ++ py "/transactions/" ++ tx_id) with (tx_url tx_id).
  change (TX_DIR ++ [tx_id ++ py ".json"]) with (tx_file tx_id).
  change (WHY_DIR ++ [tx_id ++ py ".json"]) with (why_file tx_id).
  destruct (truthy (fetched (tx_url tx_id))) eqn:Hd; cbv zeta.
  - erewrite bind_outcome by apply save_json_run. wsimpl.
    destruct (save_error (fetched (tx_url tx_id)) (tx_file tx_id)) as [e|]; cbn [outcome].
    { eexists. f_equal. f_equal. rewrite <-!app_assoc. reflexivity. }
    match goal with |- context [mbind _ (fetch_json ?p) ?w1] =>
      destruct (fetch_json_run p w1) as [out2 H2] end.
    erewrite bind_Done by exact H2. wsimpl.
    replace (BASE_URL ++ py "/transactions/" ++ tx_id ++ py "/why")
      with (why_url tx_id) by done.
    erewrite bind_outcome by apply save_if_run. wsimpl.
    destruct (save_if_error (fetched (why_url tx_id)) (why_file tx_id)) as [e|]; cbn [outcome].
    + eexists. f_equal. f_equal; rewrite <-!app_assoc; reflexivity.
    + unfold mbind, M_bind, mret, M_ret; wsimpl.
      eexists. f_equal. f_equal; rewrite <-!app_assoc; reflexivity.
  - unfold mbind, M_bind, mret, M_ret; wsimpl.
    eexists; f_equal; f_equal; rewrite <-!app_assoc; reflexivity.
Qed.

Lemma extract_fold_run total l : ∀ k counts w,
  ∃ out, for_fold (zip (seq k (length l)) l) (extract_one total) counts w =
    outcome (first_stop stops l) (foldl counts_after counts l)
      (World (foldl files_after (files w) (reached stops l)) (stdout w ++ out)
             (invoked w ++ concat (urls_of <$> reached stops l))).
Proof.
  induction l as [|tx l IH]; intros k counts w; simpl.
  - exists []. unfold mret, M_ret. rewrite !app_nil_r. by destruct w.
  - destruct (extract_one_run total k tx counts w) as [out1 H1].
    erewrite bind_outcome by exact H1.
    destruct (stops tx) as [e|]; simpl.
    + exists out1. by rewrite app_nil_r.
    + edestruct IH as [out2 H2]. rewrite H2. wsimpl.
      exists (out1 ++ out2). by rewrite <-!app_assoc.
Qed.

End discovery_runs.

Section work.
Context {env : Env}.
Import ExtractAllTransactions.

Lemma insert_sorted_perm x l : insert_sorted x l ≡ₚ x :: l.
Proof.
  induction l as [|y l IH]; simpl; [done|].
  destruct (text_leb x y); [done|]. by rewrite IH, Permutation_swap.
Qed.

Lemma sorted_perm l : sorted l ≡ₚ l.
Proof.
  unfold sorted. induction l as [|x l IH]; simpl; [done|].
  by rewrite insert_sorted_perm, IH.
Qed.

Lemma elem_of_work_list fs tx_id :
  tx_id ∈ work_list fs ↔ tx_id ∈ discovered fs ∧ tx_id ∉ existing fs.
Proof.
  unfold work_list. by rewrite sorted_perm, elem_of_elements, elem_of_difference.
Qed.

Lemma work_list_nil fs : discovered fs ∖ existing fs = ∅ → work_list fs = [].
Proof. unfold work_list. intros ->. by rewrite elements_empty. Qed.

Lemma elem_of_entries (fs : gmap path file) (p : path) :
  p ∈ (map_to_list fs).*1 ↔ is_Some (fs !! p).
Proof.
  rewrite list_elem_of_fmap. split.
  - intros ([q f] & -> & Hin). apply elem_of_map_to_list in Hin. by exists f.
  - intros [f Hf]. exists (p, f). split; [done|]. by apply elem_of_map_to_list.
Qed.

Lemma elem_of_discovered fs g :
  g ∈ discovered fs ↔
  ∃ p t, fs !! p = Some (Content t)
         ∧ DATA_DIR `prefix_of` p ∧ DATA_DIR ≠ p ∧ is_json_name (name p)
         ∧ contains (py "transactions") (str_of_path p) = false
         ∧ g ∈ findall t.
Proof.
  unfold discovered. rewrite elem_of_union_list. split.
  - intros (X & (p & -> & Hp)%list_elem_of_fmap & Hg).
    apply list_elem_of_filter in Hp as [(Hpre & Hne & Hjs) _].
    unfold contribution in Hg.
    destruct (contains _ _) eqn:Hc; [by apply not_elem_of_empty in Hg|].
    destruct (fs !! p) as [[e|t]|] eqn:Hf; try by apply not_elem_of_empty in Hg.
    apply elem_of_list_to_set in Hg. exists p, t. done.
  - intros (p & t & Hf & Hpre & Hne & Hjs & Hc & Hg).
    exists (contribution fs p). split.
    + apply list_elem_of_fmap. exists p. split; [done|].
      apply list_elem_of_filter. split; [done|]. apply elem_of_entries. eauto.
    + unfold contribution. rewrite Hc. rewrite Hf. by apply elem_of_list_to_set.
Qed.

Lemma elem_of_existing fs s :
  s ∈ existing fs ↔
  ∃ p, is_Some (fs !! p) ∧ p ≠ [] ∧ parent p = TX_DIR ∧ is_json_name (name p)
       ∧ name p ≠ py "why" ∧ s = stem p.
Proof.
  unfold existing. rewrite elem_of_union_list. split.
  - intros (X & (p & -> & Hp)%list_elem_of_fmap & Hs).
    apply list_elem_of_filter in Hp as [(Hne & Hpar & Hjs) Hin%elem_of_entries].
    unfold stem_contribution in Hs. case_bool_decide; [|by apply not_elem_of_empty in Hs].
    apply elem_of_singleton in Hs. exists p. done.
  - intros (p & Hf & Hne & Hpar & Hjs & Hwhy & ->).
    exists (stem_contribution p). split.
    + apply list_elem_of_fmap. exists p. split; [done|].
      apply list_elem_of_filter. split; [done|]. by apply elem_of_entries.
    + unfold stem_contribution. rewrite bool_decide_eq_true_2 by done.
      by apply elem_of_singleton.
Qed.

(** Every identifier the scan finds has the shape of the group. *)
Lemma discovered_shape fs g :
  g ∈ discovered fs → length g = 36%nat ∧ Forall is_hexdash g.
Proof.
  intros (p & t & _ & _ & _ & _ & _ & Hg)%elem_of_discovered.
  apply findall_sound in Hg as (i & ws & post & (_ & Hlen & Hg) & _). done.
Qed.

Lemma main_run w :
  ∃ out, main w =
    outcome (first_stop stops (work_list (files w))) ()
      (World (foldl files_after (files w) (reached stops (work_list (files w))))
             (stdout w ++ out)
             (invoked w ++ concat (urls_of <$> reached stops (work_list (files w))))).
Proof.
  unfold main, print, print_end, mkdir_parents.
  do 5 (erewrite bind_Done by reflexivity; wsimpl).
  match goal with |- context [mbind _ missing_ids ?w1] =>
    destruct (missing_ids_run w1) as [out1 H1] end.
  wsimpl in H1. erewrite bind_Done by exact H1. wsimpl.
  case_bool_decide as Hm.
  - rewrite (work_list_nil _ Hm). simpl. rewrite app_nil_r.
    eexists. f_equal. f_equal. rewrite <-!app_assoc. reflexivity.
  - erewrite bind_Done by reflexivity. wsimpl.
    unfold extract_missing, enumerate1.
    match goal with |- context [mbind _ (for_fold (zip (seq 1 (length ?l)) ?l) ?b ?c) ?w1] =>
      destruct (extract_fold_run (size (discovered (files w) ∖ existing (files w)))
                  l 1 c w1) as [out2 H2] end.
    wsimpl in H2. erewrite bind_outcome by exact H2.
    fold (work_list (files w)).
    destruct (first_stop stops (work_list (files w))) as [e|]; cbn [outcome].
    + eexists. f_equal. f_equal. rewrite <-!app_assoc. reflexivity.
    + do 3 (erewrite bind_Done by reflexivity; wsimpl).
      eexists. f_equal. f_equal. rewrite <-!app_assoc. reflexivity.
Qed.

(** With nothing to extract the run prints its message and stops. *)
Lemma main_nothing_to_do w :
  discovered (files w) ∖ existing (files w) = ∅ →
  ∃ out, main w =
    Done () (World (files w)
                   (stdout w ++ out ++ [(nl ++ py "All transactions already extracted!") ++ nl])
                   (invoked w)).
Proof.
  intros Hm. unfold main, print, print_end, mkdir_parents.
  do 5 (erewrite bind_Done by reflexivity; wsimpl).
  match goal with |- context [mbind _ missing_ids ?w1] =>
    destruct (missing_ids_run w1) as [out1 H1] end.
  wsimpl in H1. erewrite bind_Done by exact H1. wsimpl.
  rewrite bool_decide_eq_true_2 by done.
  exists ([rule60 ++ nl] ++ [py "Extracting all transaction details" ++ nl]
          ++ [rule60 ++ nl] ++ out1).
  f_equal. f_equal. wsimpl. by rewrite <-!app_assoc.
Qed.

End work.

(** ** The identifier discovery (C3, C6, C8) *)

Section captures.
Context {env : Env}.
Import ExtractAllTransactions.

Lemma elem_of_discovered_scanned fs g :
  g ∈ discovered fs ↔ ∃ p t, scanned_text fs p t ∧ g ∈ findall t.
Proof.
  rewrite elem_of_discovered. unfold scanned_text. naive_solver.
Qed.

Lemma scan_order_irrelevant l1 l2 w :
  l1 ≡ₚ l2 →
  ∃ ids w1 w2, for_fold l1 scan_file ∅ w = Done ids w1
               ∧ for_fold l2 scan_file ∅ w = Done ids w2.
Proof.
  intros Hp.
  destruct (scan_fold_run l1 ∅ w) as [o1 H1], (scan_fold_run l2 ∅ w) as [o2 H2].
  rewrite H1, H2.
  assert (⋃ (contribution (files w) <$> l1) = ⋃ (contribution (files w) <$> l2)) as ->.
  { apply leibniz_equiv. by rewrite Hp. }
  by eexists _, _, _.
Qed.

(** C3 (amended). The discovery function returns a set, so duplicates are
    collapsed, and for every collection of files: every identifier in the
    result is captured by the pattern (the quoted key, a colon, any run of
    white space, a quoted group of 36 characters of [a-f0-9-]) in a scanned
    readable file; every group the pattern captures in such a file is in the
    result, unless the pattern also matches from an earlier offset of that
    file up to the quote on which this occurrence opens (findall returns
    matches that do not overlap); and the result does not depend on the
    order in which the files are scanned. *)
Theorem find_all_transaction_ids_captures (w : world) :
  ∃ ids w',
    find_all_transaction_ids w = Done ids w'
    ∧ NoDup (elements ids)
    ∧ (∀ g, g ∈ ids → ∃ p t, scanned_text (files w) p t ∧ captured t g)
    ∧ (∀ g p t i, scanned_text (files w) p t → captured_at t i g →
         (∀ q, (q < i)%nat → ¬ ends_at t q (S i)) → g ∈ ids)
    ∧ (∀ l1 l2, l1 ≡ₚ l2 →
         ∃ ids' w1 w2, for_fold l1 scan_file ∅ w = Done ids' w1
                       ∧ for_fold l2 scan_file ∅ w = Done ids' w2).
Proof.
  destruct (find_all_transaction_ids_run w) as [out Hrun].
  eexists _, _. split; [exact Hrun|]. split_and!.
  - apply NoDup_elements.
  - intros g (p & t & Hs & Hg)%elem_of_discovered_scanned.
    exists p, t. split; [done|]. by apply findall_sound.
  - intros g p t i Hs Hcap Hfree. apply elem_of_discovered_scanned.
    exists p, t. split; [done|]. by apply (findall_complete t i).
  - intros l1 l2. apply scan_order_irrelevant.
Qed.

End captures.

Lemma abutting_second_captured : captured_at Sample.abutting 55 Sample.id2.
Proof.
  exists [32], []. split.
  - split_and!; [by repeat constructor | done | by repeat constructor].
  - vm_compute. reflexivity.
Qed.

(** C3, as stated, fails on a text in which one occurrence of the pattern
    opens on the quote that closes another: the second identifier is
    captured by the pattern in a scanned file and is not in the result. *)
Lemma find_all_transaction_ids_misses_abutting :
  let fs := Sample.abutting_file in
  let p := Sample.dir ++ [py "data"; py "merchants"; py "30.json"] in
  scanned_text (H := Sample.unreachable) fs p Sample.abutting
  ∧ captured Sample.abutting Sample.id2
  ∧ ∃ ids w',
      ExtractAllTransactions.find_all_transaction_ids (H := Sample.unreachable)
        (Sample.start fs) = Done ids w'
      ∧ elements ids = [Sample.id1]
      ∧ Sample.id2 ≠ Sample.id1.
Proof.
  split_and!.
  - split_and!; [by vm_compute | by exists [py "merchants"; py "30.json"]
                 | by vm_compute | by vm_compute | by vm_compute].
  - exists 55%nat. apply abutting_second_captured.
  - assert (match ExtractAllTransactions.find_all_transaction_ids (H := Sample.unreachable)
                    (Sample.start Sample.abutting_file) with
            | Done ids _ => elements ids = [Sample.id1]
            | Raise _ _ => False
            end) as Hrun by (vm_compute; reflexivity).
    destruct (ExtractAllTransactions.find_all_transaction_ids _) as [ids w'|]; [|done].
    exists ids, w'. split_and!; [done..|]. vm_compute. discriminate.
Qed.

Section exclusion.
Context {env : Env}.
Import ExtractAllTransactions.

Lemma startswith_app p s : startswith p (p ++ s) = true.
Proof. induction p as [|a p IH]; simpl; [done|]. by rewrite N.eqb_refl. Qed.

Lemma contains_startswith needle hay :
  startswith needle hay = true → contains needle hay = true.
Proof. intros Hs. destruct hay; simpl; by rewrite Hs. Qed.

Lemma contains_app needle x y : contains needle (x ++ needle ++ y) = true.
Proof.
  induction x as [|a x IH].
  - rewrite app_nil_l. apply contains_startswith, startswith_app.
  - cbn [app contains]. rewrite IH. apply orb_true_r.
Qed.

Lemma str_of_path_app (p q : path) : str_of_path (p ++ q) = str_of_path p ++ str_of_path q.
Proof. unfold str_of_path. apply bind_app. Qed.

(** Whatever lies in the transactions directory has the word in its path. *)
Lemma TX_DIR_contains p :
  TX_DIR `prefix_of` p → contains (py "transactions") (str_of_path p) = true.
Proof.
  intros [q ->]. unfold TX_DIR. rewrite <-app_assoc, !str_of_path_app.
  change (str_of_path [py "transactions"]) with ([47] ++ py "transactions" ++ []).
  rewrite <-!app_assoc. rewrite (app_assoc _ [47]). apply contains_app.
Qed.

(** C6 (amended). The scan enumerates the entries below the data directory
    whose name ends in .json and leaves out exactly those whose path, as a
    string, contains the word transactions: every entry inside the
    transactions output directory is left out, and so is any other entry
    with that word anywhere in its path; every readable entry that is not
    left out contributes its matches. *)
Theorem scan_excludes_paths_with_the_word (w : world) :
  ∃ ids w',
    find_all_transaction_ids w = Done ids w'
    ∧ (∀ g, g ∈ ids ↔
         ∃ p t, files w !! p = Some (Content t)
                ∧ DATA_DIR `prefix_of` p ∧ DATA_DIR ≠ p ∧ is_json_name (name p)
                ∧ contains (py "transactions") (str_of_path p) = false
                ∧ g ∈ findall t)
    ∧ (∀ p, TX_DIR `prefix_of` p → contains (py "transactions") (str_of_path p) = true).
Proof.
  destruct (find_all_transaction_ids_run w) as [out Hrun].
  eexists _, _. split; [exact Hrun|]. split.
  - intros g. apply elem_of_discovered.
  - apply TX_DIR_contains.
Qed.

End exclusion.

(** C6, as stated, fails on a document outside the transactions directory
    whose name contains the word: it is below the data directory, its name
    ends in .json, it is readable and mentions an identifier, and the scan
    returns nothing. *)
Lemma scan_skips_file_beside_transactions :
  let fs := Sample.beside_transactions in
  let p := Sample.dir ++ [py "data"; py "merchants"; py "transactions_30.json"] in
  ¬ ExtractAllTransactions.TX_DIR (H := Sample.unreachable) `prefix_of` p
  ∧ ExtractAllTransactions.DATA_DIR (H := Sample.unreachable) `prefix_of` p
  ∧ is_json_name (name p)
  ∧ (∃ t, fs !! p = Some (Content t) ∧ Sample.id1 ∈ findall t)
  ∧ ∃ ids w',
      ExtractAllTransactions.find_all_transaction_ids (H := Sample.unreachable)
        (Sample.start fs) = Done ids w'
      ∧ elements ids = [].
Proof.
  split_and!.
  - intros [q Hq]. vm_compute in Hq. by destruct q.
  - by exists [py "merchants"; py "transactions_30.json"].
  - by vm_compute.
  - eexists. split; [by vm_compute|]. vm_compute. left.
  - assert (match ExtractAllTransactions.find_all_transaction_ids (H := Sample.unreachable)
                    (Sample.start Sample.beside_transactions) with
            | Done ids _ => elements ids = []
            | Raise _ _ => False
            end) as Hrun by (vm_compute; reflexivity).
    destruct (ExtractAllTransactions.find_all_transaction_ids _) as [ids w'|]; [|done].
    by exists ids, w'.
Qed.

Section tolerance.
Context {env : Env}.
Import ExtractAllTransactions.





End tolerance.


(** ** The idempotency filter (C5, C4) *)

Section filter.
Context {env : Env}.
Import ExtractAllTransactions.

Lemma startswith_spec p s : startswith p s = true ↔ ∃ r, s = p ++ r.
Proof.
  revert s. induction p as [|a p IH]; intros s; simpl.
  - split; [by exists s | done].
  - destruct s as [|b s]; [split; [done | by intros [? ?]]|].
    rewrite andb_true_iff, N.eqb_eq, IH. split.
    + intros [-> [r ->]]. by exists r.
    + intros [r [= -> ->]]. eauto.
Qed.

Lemma endswith_spec suf s : endswith suf s = true ↔ ∃ pre, s = pre ++ suf.
Proof.
  unfold endswith. rewrite startswith_spec. split.
  - intros [r Hr]. exists (reverse r).
    apply (inj reverse). by rewrite reverse_app, reverse_involutive.
  - intros [pre ->]. exists (reverse pre). by rewrite reverse_app.
Qed.

Lemma rfind_dot_app a b :
  rfind_dot (a ++ b) =
  match rfind_dot b with
  | Some i => Some (length a + i)%nat
  | None => rfind_dot a
  end.
Proof.
  induction a as [|c a IH]; simpl.
  - by destruct (rfind_dot b).
  - rewrite IH. by destruct (rfind_dot b).
Qed.

Lemma stem_of_json s : s ≠ [] → stem_of (s ++ py ".json") = s.
Proof.
  intros Hs. unfold stem_of. rewrite rfind_dot_app.
  change (rfind_dot (py ".json")) with (Some O). cbv beta iota.
  rewrite Nat.add_0_r, length_app. change (length (py ".json")) with 5%nat.
  destruct s as [|c s]; [done|]. simpl length.
  replace ((0 <? S (length s))%nat && (S (length s) <? pred (S (length s) + 5))%nat)
    with true.
  - by rewrite (take_app_length (c :: s)).
  - symmetry. apply andb_true_iff. split; apply Nat.ltb_lt; lia.
Qed.

Lemma name_snoc (d : path) x : name (d ++ [x]) = x.
Proof. unfold name. by rewrite last_snoc. Qed.

Lemma parent_snoc (d : path) x : parent (d ++ [x]) = d.
Proof.
  unfold parent. rewrite length_app. simpl.
  replace (pred (length d + 1)) with (length d) by lia. apply take_app_length.
Qed.

Lemma path_split (p : path) : p ≠ [] → p = parent p ++ [name p].
Proof.
  intros Hp. destruct (decide (p = [])) as [|_]; [done|].
  induction p as [|x p _] using rev_ind; [done|].
  by rewrite parent_snoc, name_snoc.
Qed.

(** An identifier whose artifact is in the transactions directory is among
    the existing ones, and conversely. *)
Lemma artifact_existing fs tx_id :
  tx_id ≠ [] → is_Some (fs !! tx_file tx_id) → tx_id ∈ existing fs.
Proof.
  intros Hne Hf. apply elem_of_existing. exists (tx_file tx_id). unfold tx_file.
  split_and!; [done| by destruct TX_DIR | apply parent_snoc | | |].
  - rewrite name_snoc. apply Is_true_true, endswith_spec. eauto.
  - rewrite name_snoc. intros Hw%(f_equal length). rewrite length_app in Hw.
    change (length (py ".json")) with 5%nat in Hw.
    change (length (py "why")) with 3%nat in Hw. lia.
  - unfold stem. by rewrite name_snoc, stem_of_json.
Qed.

Lemma existing_artifact fs s :
  s ∈ existing fs → s ≠ py ".json" → is_Some (fs !! tx_file s).
Proof.
  intros (p & Hf & Hne & Hpar & Hjs & _ & ->)%elem_of_existing Hs.
  apply Is_true_true, endswith_spec in Hjs as [pre Hpre].
  unfold stem in *. rewrite Hpre in *.
  destruct pre as [|c pre]; [done|].
  rewrite stem_of_json by done. unfold tx_file.
  by rewrite <-Hpre, <-Hpar, <-path_split.
Qed.

(** C5. The work set is the set difference of the identifiers the scan
    found and the stems of the .json entries of the transactions directory;
    with dd129486-...json in that directory, no artifact for dd120776-...,
    and both identifiers found, the work set is exactly the second one. *)
Theorem work_set_is_difference (w : world) :
  ∃ tx_ids existing_stems w1 w2 w',
    find_all_transaction_ids w = Done tx_ids w1
    ∧ existing_ids w = Done existing_stems w2
    ∧ missing_ids w = Done (tx_ids ∖ existing_stems) w'
    ∧ (∀ s, s ∈ existing_stems ↔
         ∃ p, is_Some (files w !! p) ∧ p ≠ [] ∧ parent p = TX_DIR
              ∧ is_json_name (name p) ∧ name p ≠ py "why" ∧ s = stem p)
    ∧ (tx_ids = {[Sample.id1; Sample.id2]} →
       is_Some (files w !! (TX_DIR ++ [Sample.id1 ++ py ".json"])) →
       files w !! (TX_DIR ++ [Sample.id2 ++ py ".json"]) = None →
       tx_ids ∖ existing_stems = {[Sample.id2]}).
Proof.
  destruct (find_all_transaction_ids_run w) as [o1 H1], (missing_ids_run w) as [o2 H2].
  eexists _, _, _, _, _. split_and!; [exact H1 | apply existing_ids_run | exact H2 | |].
  - intros s. apply elem_of_existing.
  - intros -> Hin Hout. apply set_eq. intros g.
    rewrite elem_of_difference, elem_of_union, !elem_of_singleton. split.
    + intros [[->| ->] Hn]; [|done]. exfalso. apply Hn.
      by apply artifact_existing.
    + intros ->. split; [by right|]. intros Hex%existing_artifact; [|done].
      unfold tx_file in Hex. rewrite Hout in Hex. by destruct Hex.
Qed.

End filter.

Lemma work_set_is_difference_witness :
  ∃ w', ExtractAllTransactions.missing_ids (H := Sample.unreachable)
          (Sample.start Sample.two_mentions_one_done) = Done {[Sample.id2]} w'.
Proof.
  destruct (work_set_is_difference (env := Sample.unreachable)
              (Sample.start Sample.two_mentions_one_done))
    as (tx_ids & ex & w1 & w2 & w' & H1 & _ & H3 & _ & Hex).
  exists w'. rewrite H3. f_equal. apply Hex.
  - destruct (find_all_transaction_ids_run (env := Sample.unreachable)
                (Sample.start Sample.two_mentions_one_done)) as [out Hrun].
    rewrite Hrun in H1. apply Done_inj in H1 as [<- _]. by_vm.
  - exists (Content (py "{}")). by_vm.
  - by_vm.
Defined.

Section second_run.
Context {env : Env}.
Import ExtractAllTransactions.

Lemma WHY_DIR_parent x : parent (why_file x) ≠ TX_DIR.
Proof.
  unfold why_file, WHY_DIR. rewrite parent_snoc. intros Heq%(f_equal length).
  rewrite length_app in Heq. simpl in Heq. lia.
Qed.



(** File names of letters, digits and punctuation that are short enough
    open without an error. *)
Lemma fs_encode_ascii s : Forall (λ c, c < 128) s → fs_encode s = Some s.
Proof.
  induction 1 as [|c s Hc _ IH]; simpl; [done|]. rewrite IH.
  unfold fs_char, utf8_char.
  destruct (N.leb_spec 56448 c); [lia|]. simpl.
  destruct (N.ltb_spec c 128); [done|lia].
Qed.

Lemma name_error_ascii s :
  Forall (λ c, 0 < c < 128) s → (length s ≤ NAME_MAX)%nat → name_error s = None.
Proof.
  intros Hs Hlen. unfold name_error.
  rewrite fs_encode_ascii by (eapply Forall_impl; [exact Hs|]; simpl; lia).
  rewrite bool_decide_eq_false_2.
  - destruct (Nat.ltb_spec NAME_MAX (length s)); [lia|done].
  - intros Hin. apply (proj1 (Forall_forall _ _) Hs) in Hin. lia.
Qed.

Lemma hexdash_ascii c : is_hexdash c → 0 < c < 128.
Proof.
  unfold is_hexdash. intros Hc.
  destruct (N.leb_spec 97 c), (N.leb_spec c 102), (N.leb_spec 48 c), (N.leb_spec c 57),
    (N.eqb_spec c 45); simpl in Hc; try done; lia.
Qed.

Lemma id_name_error x :
  Forall is_hexdash x → length x = 36%nat → name_error (x ++ py ".json") = None.
Proof.
  intros Hx Hlen. apply name_error_ascii.
  - apply Forall_app. split.
    + eapply Forall_impl; [exact Hx|]. apply hexdash_ascii.
    + apply Forall_forall. intros c Hc%list_elem_of_In. vm_compute in Hc.
      destruct Hc as [<-|[<-|[<-|[<-|[<-|[]]]]]]; lia.
  - rewrite length_app, Hlen. unfold NAME_MAX. simpl. lia.
Qed.

Lemma open_error_tx_file x : open_error (tx_file x) = name_error (x ++ py ".json").
Proof. unfold open_error, tx_file. by rewrite name_snoc. Qed.

Lemma open_error_why_file x : open_error (why_file x) = name_error (x ++ py ".json").
Proof. unfold open_error, why_file. by rewrite name_snoc. Qed.

Lemma work_list_names fs :
  Forall (λ x, name_error (x ++ py ".json") = None) (work_list fs).
Proof.
  apply Forall_forall. intros x [Hx _]%elem_of_work_list.
  apply discovered_shape in Hx as [Hlen Hhex]. by apply id_name_error.
Qed.

(** The identifiers a loop gets to are among those it was given, and all
    of them when nothing stops it. *)
Lemma reached_sublist {A} (stops : A → option exn) l : reached stops l `sublist_of` l.
Proof.
  induction l as [|x l IH]; simpl; [done|].
  destruct (stops x); [|by constructor].
  constructor. apply sublist_nil_l.
Qed.

Lemma elem_of_reached {A} (stops : A → option exn) l x : x ∈ reached stops l → x ∈ l.
Proof. intros Hx. eapply elem_of_sublist; [exact Hx|apply reached_sublist]. Qed.

Lemma reached_all {A} (stops : A → option exn) l :
  first_stop stops l = None → reached stops l = l.
Proof.
  induction l as [|x l IH]; simpl; [done|].
  destruct (stops x); simpl; [done|]. intros ?. f_equal. by apply IH.
Qed.

Lemma Forall_reached {A} (P : A → Prop) (stops : A → option exn) l :
  Forall P l → Forall P (reached stops l).
Proof.
  rewrite !Forall_forall. intros Hl x Hx%elem_of_reached. by apply Hl.
Qed.






Lemma work_list_nonempty fs : Forall (λ x, x ≠ []) (work_list fs).
Proof.
  apply Forall_forall. intros x [Hx _]%elem_of_work_list.
  apply discovered_shape in Hx as [Hlen _]. by destruct x.
Qed.



End second_run.

Section idempotency.
Context {env : Env}.
Import ExtractAllTransactions.


End idempotency.



(** ** Fetching (C2) *)

Section fetching.
Context {env : Env}.

Lemma fetched_None url :
  fetched url = JNull ↔
  match curl url with
  | RunRaised _ => True
  | Completed returncode out _ =>
      returncode ≠ 0%Z ∨ out = [] ∨ (∃ e, json_loads out = inl e)
      ∨ json_loads out = inr JNull
  end.
Proof.
  unfold fetched. destruct (curl url) as [e|rc out err]; [done|].
  destruct (Z.eqb_spec rc 0) as [->|Hrc]; simpl; [|by intuition].
  case_bool_decide as Hout; simpl; [|by intuition].
  destruct (json_loads out) as [e|v]; [by intuition eauto|].
  split; [intros ->; by intuition|].
  intros [?|[?|[[e ?]|[= ->]]]]; done.
Qed.

Lemma fetched_decoded url returncode out err d :
  curl url = Completed returncode out err → returncode = 0%Z → out ≠ [] →
  json_loads out = inr d → fetched url = d.
Proof.
  intros Hc -> Hout Hd. unfold fetched. rewrite Hc. simpl.
  by rewrite bool_decide_eq_true_2, Hd.
Qed.

(** C2 (amended). For every endpoint path, [fetch_json] (in both scripts)
    returns and does not raise. It returns [None] exactly when running curl
    raised, curl exited with a non-zero status, the body is empty, the body
    does not decode as JSON, or the body is the JSON null; in every other
    case it returns the decoded value. The HTTP status of the response plays
    no part: a response of any status with a body that decodes is returned
    decoded. *)
Theorem fetch_json_returns (path : text) (w : world) :
  let url := ExtractData.BASE_URL ++ path in
  ∃ v w1 w2,
    ExtractData.fetch_json path w = Done v w1
    ∧ ExtractAllTransactions.fetch_json path w = Done v w2
    ∧ (v = JNull ↔
         match curl url with
         | RunRaised _ => True
         | Completed returncode out _ =>
             returncode ≠ 0%Z ∨ out = [] ∨ (∃ e, json_loads out = inl e)
             ∨ json_loads out = inr JNull
         end)
    ∧ (∀ out err d,
         curl url = Completed 0 out err → out ≠ [] → json_loads out = inr d → v = d)
    ∧ (∀ status body d,
         curl url = curl_silent (Response status body) → body ≠ [] →
         json_loads body = inr d → v = d).
Proof.
  intros url.
  destruct (static_fetch_json_run path w) as [o1 H1], (fetch_json_run path w) as [o2 H2].
  eexists _, _, _. split; [exact H1|]. split; [exact H2|]. split_and!.
  - apply fetched_None.
  - intros out err d Hc Hout Hd. by eapply fetched_decoded.
  - intros status body d Hc Hout Hd. by eapply fetched_decoded.
Qed.

End fetching.

(** C2, as stated, fails on a response that is not a success: the API
    answers 404 with a JSON body, which is one of the failures the claim
    lists, and both scripts' [fetch_json] return the decoded body, not
    [None]. *)
Lemma fetch_json_returns_body_of_404 :
  let path := py "/transactions/" ++ Sample.id1 in
  let w := Sample.start ∅ in
  listed_failure Sample.loads (Response 404 Sample.body_404)
  ∧ curl (Env := Sample.not_found) (ExtractData.BASE_URL ++ path)
    = curl_silent (Response 404 Sample.body_404)
  ∧ (∃ w', ExtractData.fetch_json (H := Sample.not_found) path w = Done Sample.doc_404 w')
  ∧ (∃ w', ExtractAllTransactions.fetch_json (H := Sample.not_found) path w
           = Done Sample.doc_404 w')
  ∧ Sample.doc_404 ≠ JNull.
Proof.
  intros path w. split_and!.
  - left. lia.
  - done.
  - destruct (static_fetch_json_run (env := Sample.not_found) path w) as [out ->].
    eexists. f_equal; by_vm.
  - destruct (fetch_json_run (env := Sample.not_found) path w) as [out ->].
    eexists. f_equal; by_vm.
  - done.
Qed.

(** ** Plan details (C7, C10) *)

Section plans.
Context {env : Env}.
Import ExtractData.

Lemma replace_colon_slash s :
  replace 47 (py "_") (replace 58 (py "_") s)
  = (λ c, if (c =? 58) || (c =? 47) then 95 else c) <$> s.
Proof.
  unfold replace. induction s as [|c s IH]; [done|].
  cbn [mbind list_bind fmap list_fmap]. 
  destruct (N.eqb_spec c 58) as [->|H58].
  - change (py "_") with [95]. cbn. f_equal. apply IH.
  - cbn. destruct (c =? 47); change (py "_") with [95]; cbn; f_equal; apply IH.
Qed.

Lemma quote_byte_safe b : quote_byte b = [b] ↔ always_safe b = true.
Proof. unfold quote_byte. destruct (always_safe b); split; done. Qed.

Lemma world_eta (w : world) : World (files w) (stdout w ++ []) (invoked w ++ []) = w.
Proof. destruct w. simpl. by rewrite !app_nil_r. Qed.

(** One turn of the loop over the plans of a merchant. *)
Lemma extract_plan_run merchant_id plan w :
  ∃ out,
    extract_plan merchant_id plan w =
      outcome (plan_raises merchant_id plan) ()
        (World (plan_files_after merchant_id (files w) plan) (stdout w ++ out)
               (invoked w ++ plan_urls merchant_id plan)).
Proof.
  exists (match plan_request plan with
          | Some (s, bs) =>
              let out := final (fetch_json (py "/merchants/" ++ str_of_Z merchant_id
                                              ++ py "/plans/" ++ quote_bytes bs) w) in
              drop (length (stdout w)) (stdout out)
              ++ (if truthy (fetched (plan_url merchant_id bs)) then
                    match save_error (fetched (plan_url merchant_id bs)) (plan_file s) with
                    | None => [(py "  Saved: " ++ name (plan_file s)) ++ nl]
                    | Some _ => []
                    end
                  else [])
          | None => []
          end).
  unfold extract_plan, plan_raises, plan_files_after, plan_urls, plan_request.
  destruct plan as [| | | | | |kv];
    try (unfold py_get, raise, mbind, M_bind; cbn [outcome]; by rewrite world_eta).
  unfold py_get. erewrite bind_Done by reflexivity.
  destruct (dict_get (py "plan_key") kv) as [|b|z|f|s|l|kv'] eqn:Hk;
    try (destruct (truthy _);
         [unfold quote, raise, mbind, M_bind | unfold mret, M_ret];
         cbn [outcome]; by rewrite world_eta).
  destruct (truthy (JStr s)) eqn:Ht;
    [|unfold mret, M_ret; cbn [outcome]; by rewrite world_eta].
  unfold quote. destruct (utf8_encode s) as [bs|] eqn:Hbs; cbn [mbind option_bind];
    [|unfold raise, mbind, M_bind; cbn [outcome]; by rewrite world_eta].
  erewrite bind_Done by reflexivity.
  destruct (static_fetch_json_run
              (py "/merchants/" ++ str_of_Z merchant_id ++ py "/plans/" ++ quote_bytes bs) w)
    as [out1 H1].
  rewrite H1. erewrite bind_Done by exact H1. wsimpl.
  rewrite drop_app_length.
  change (BASE_URL ++ py "/merchants/" ++ str_of_Z merchant_id ++ py "/plans/" ++ quote_bytes bs)
    with (plan_url merchant_id bs).
  unfold save_if_error, saved_if.
  destruct (truthy (fetched (plan_url merchant_id bs))).
  - unfold py_safe_key. erewrite bind_Done by reflexivity.
    change (DATA_DIR ++ [py "plans"; py "details";
              replace 47 (py "_") (replace 58 (py "_") s) ++ py ".json"])
      with (plan_file s).
    unfold save_json, mkdir_parents. erewrite bind_Done by reflexivity.
    erewrite bind_outcome by apply dump_json_run. wsimpl.
    destruct (save_error (fetched (plan_url merchant_id bs)) (plan_file s)); cbn [outcome].
    + by rewrite app_nil_r.
    + unfold print, print_end. wsimpl. by rewrite <-app_assoc.
  - unfold mret, M_ret. cbn [outcome]. by rewrite app_nil_r.
Qed.

(** C7. For the plan key m:30:plan/v1 of merchant 30 the per-plan fetch goes
    to .../merchants/30/plans/m%3A30%3Aplan%2Fv1 and, when it yields a
    document, the artifact is plans/details/m_30_plan_v1.json: it holds the
    dump of the document, or what the dump has written when it stops at a
    string it cannot encode (the only case in which the turn raises). In
    general the file name is the key with every colon and slash replaced by
    an underscore, and the url segment is the percent-encoding of the UTF-8
    bytes of the key in which only letters, digits and _.-~ stay as they
    are: no further character is exempt, so colon and slash are encoded. *)
Theorem plan_key_file_name_and_url (w : world) :
  let key := py "m:30:plan/v1" in
  let url := BASE_URL ++ py "/merchants/30/plans/m%3A30%3Aplan%2Fv1" in
  let file := DATA_DIR ++ [py "plans"; py "details"; py "m_30_plan_v1.json"] in
  (∃ out,
     extract_plan 30 (JDict [(py "plan_key", JStr key)]) w =
       outcome (if truthy (fetched url) && negb (encodable (fetched url))
                then Some UnicodeEncodeError else None) ()
         (World (if truthy (fetched url)
                 then <[file := Content (if encodable (fetched url)
                                         then json_dumps (fetched url)
                                         else json_written (fetched url))]> (files w)
                 else files w)
                (stdout w ++ out) (invoked w ++ [url])))
  ∧ (encodable (fetched url) = true →
     ∃ out,
       extract_plan 30 (JDict [(py "plan_key", JStr key)]) w =
         Done () (World (if truthy (fetched url)
                         then <[file := Content (json_dumps (fetched url))]> (files w)
                         else files w)
                        (stdout w ++ out) (invoked w ++ [url])))
  ∧ (∀ s, py_safe_key (JStr s) w
          = Done ((λ c, if (c =? 58) || (c =? 47) then 95 else c) <$> s) w)
  ∧ (∀ s bs, utf8_encode s = Some bs → quote (JStr s) w = Done (bs ≫= quote_byte) w)
  ∧ (∀ b, quote_byte b = [b] ↔ always_safe b = true)
  ∧ quote_byte 58 = py "%3A" ∧ quote_byte 47 = py "%2F".
Proof.
  intros key url file.
  assert (∃ out,
     extract_plan 30 (JDict [(py "plan_key", JStr key)]) w =
       outcome (if truthy (fetched url) && negb (encodable (fetched url))
                then Some UnicodeEncodeError else None) ()
         (World (if truthy (fetched url)
                 then <[file := Content (if encodable (fetched url)
                                         then json_dumps (fetched url)
                                         else json_written (fetched url))]> (files w)
                 else files w)
                (stdout w ++ out) (invoked w ++ [url]))) as Hrun.
  { destruct (extract_plan_run 30 (JDict [(py "plan_key", JStr key)]) w) as [out Hrun].
    exists out. rewrite Hrun. unfold plan_raises, plan_files_after, plan_urls.
    assert (plan_request (JDict [(py "plan_key", JStr key)])
            = Some (key, [109; 58; 51; 48; 58; 112; 108; 97; 110; 47; 118; 49])) as -> by by_vm.
    assert (dict_get (py "plan_key") [(py "plan_key", JStr key)] = JStr key) as -> by by_vm.
    change (truthy (JStr key)) with true. cbv iota.
    assert (utf8_encode key = Some [109; 58; 51; 48; 58; 112; 108; 97; 110; 47; 118; 49])
      as -> by by_vm.
    assert (plan_url 30 [109; 58; 51; 48; 58; 112; 108; 97; 110; 47; 118; 49] = url)
      as -> by by_vm.
    assert (plan_file key = file) as ->.
    { unfold plan_file, file. do 4 f_equal. }
    unfold save_if_error, saved_if, save_error, saved, artifact.
    assert (open_error file = None) as ->.
    { unfold open_error, file, name. rewrite last_app. by_vm. }
    destruct (truthy (fetched url)); [|done]. by destruct (encodable (fetched url)). }
  split_and!.
  - exact Hrun.
  - intros Henc. destruct Hrun as [out Hrun]. exists out. rewrite Hrun, Henc.
    rewrite andb_false_r. done.
  - intros s. unfold py_safe_key, mret, M_ret. by rewrite replace_colon_slash.
  - intros s bs Hs. unfold quote. by rewrite Hs.
  - apply quote_byte_safe.
  - by_vm.
  - by_vm.
Qed.

End plans.

Section skipped_plans.
Context {env : Env}.
Import ExtractData.

Lemma dict_get_missing k kv : k ∉ kv.*1 → dict_get k kv = JNull.
Proof.
  induction kv as [|[k' v] kv IH]; simpl; [done|].
  intros Hk. apply not_elem_of_cons in Hk as [Hne Hk].
  rewrite decide_False by done. by apply IH.
Qed.

Lemma extract_plan_no_key merchant_id kv w :
  truthy (dict_get (py "plan_key") kv) = false →
  extract_plan merchant_id (JDict kv) w = Done () w.
Proof.
  intros Hk. unfold extract_plan, py_get. erewrite bind_Done by reflexivity.
  by rewrite Hk.
Qed.

(** C10. A plan entry whose plan_key is missing, null or the empty string is
    skipped without a trace: processing it leaves the files, the output and
    the list of curl invocations as they were, so no fetch is issued, no
    artifact is written and nothing is printed for it; and the loop over a
    plan list with such an entry runs as the loop over the list without
    it, so every other entry is processed as usual. *)
Theorem plan_without_key_is_skipped
    (merchant_id : Z) (kv : list (text * json)) (before after : list json) (w : world) :
  py "plan_key" ∉ kv.*1
  ∨ dict_get (py "plan_key") kv = JNull
  ∨ dict_get (py "plan_key") kv = JStr [] →
  extract_plan merchant_id (JDict kv) w = Done () w
  ∧ for_each (before ++ JDict kv :: after) (extract_plan merchant_id) w
    = for_each (before ++ after) (extract_plan merchant_id) w.
Proof.
  intros Hkey.
  assert (truthy (dict_get (py "plan_key") kv) = false) as Hk.
  { destruct Hkey as [->%dict_get_missing|[-> | ->]]; done. }
  split; [by apply extract_plan_no_key|].
  rewrite !for_each_app.
  destruct (for_each before (extract_plan merchant_id) w) as [[] w'|]; [|done].
  simpl. erewrite bind_Done by (by apply extract_plan_no_key). done.
Qed.

End skipped_plans.

Lemma plan_without_key_is_skipped_witness :
  let keyed := JDict [(py "plan_key", JStr (py "m:30:plan/v1"))] in
  let unnamed := [(py "name", JStr (py "basic")); (py "plan_key", JNull)] in
  dict_get (py "plan_key") unnamed = JNull
  ∧ ExtractData.extract_plan (H := Sample.always_ok) 30 (JDict unnamed) (Sample.start ∅)
    = Done () (Sample.start ∅)
  ∧ for_each [keyed; JDict unnamed; keyed]
      (ExtractData.extract_plan (H := Sample.always_ok) 30) (Sample.start ∅)
    = for_each [keyed; keyed]
        (ExtractData.extract_plan (H := Sample.always_ok) 30) (Sample.start ∅).
Proof.
  intros keyed unnamed.
  assert (dict_get (py "plan_key") unnamed = JNull) as Hk by by_vm.
  split; [exact Hk|].
  apply (plan_without_key_is_skipped (env := Sample.always_ok) 30 unnamed [keyed] [keyed]).
  right. left. exact Hk.
Defined.

(** ** Documents that are not truthy (C9) *)

Section falsy.
Context {env : Env}.

Lemma bind_ext {A B} (c c' : M A) (k k' : A → M B) :
  (∀ w, c w = c' w) → (∀ a w, k a w = k' a w) → ∀ w, (c ≫= k) w = (c' ≫= k') w.
Proof.
  intros Hc Hk w. unfold mbind, M_bind. rewrite Hc. destruct (c' w); [apply Hk | done].
Qed.

Lemma for_each_ext {A} (l : list A) (f g : A → M unit) :
  (∀ x w, f x w = g x w) → ∀ w, for_each l f w = for_each l g w.
Proof.
  intros Hfg. induction l as [|x l IH]; intros w; simpl; [done|].
  apply bind_ext; [apply Hfg | intros _; apply IH].
Qed.

Lemma for_fold_ext {A S} (l : list A) (f g : A → S → M S) :
  (∀ x s w, f x s w = g x s w) → ∀ s w, for_fold l f s w = for_fold l g s w.
Proof.
  intros Hfg. induction l as [|x l IH]; intros s w; simpl; [done|].
  apply bind_ext; [apply Hfg | intros s'; apply IH].
Qed.

Lemma fetched_falsy_as_none url :
  fetched (H := falsy_as_none env) url
  = if truthy (fetched url) then fetched url else JNull.
Proof.
  unfold fetched. simpl. destruct (curl url) as [e|rc out err]; [done|].
  destruct (_ && _); [|done]. destruct (json_loads out) as [e|v]; done.
Qed.

Lemma static_fetch_falsy_as_none path w :
  ExtractData.fetch_json (H := falsy_as_none env) path w =
  match ExtractData.fetch_json path w with
  | Done v w' => Done (if truthy v then v else JNull) w'
  | Raise e w' => Raise e w'
  end.
Proof.
  unfold ExtractData.fetch_json, run_curl, mbind, M_bind, print, print_end, mret, M_ret.
  simpl. destruct (curl _) as [e|rc out err]; [done|].
  destruct (_ && _); [|done]. destruct (json_loads out) as [e|v]; done.
Qed.

Lemma fetch_falsy_as_none path w :
  ExtractAllTransactions.fetch_json (H := falsy_as_none env) path w =
  match ExtractAllTransactions.fetch_json path w with
  | Done v w' => Done (if truthy v then v else JNull) w'
  | Raise e w' => Raise e w'
  end.
Proof.
  unfold ExtractAllTransactions.fetch_json, run_curl, mbind, M_bind, print, print_end,
    mret, M_ret.
  simpl. destruct (curl _) as [e|rc out err]; [done|].
  destruct (_ && _); [|done]. destruct (json_loads out) as [e|v]; done.
Qed.

(** What follows a fetch sees a document that is not truthy as [None]. *)
Lemma static_after_fetch {B} path (k k' : json → M B) :
  (∀ v w, truthy v = true → k v w = k' v w) →
  (∀ v w, truthy v = false → k v w = k' JNull w) →
  ∀ w, (ExtractData.fetch_json path ≫= k) w
       = (ExtractData.fetch_json (H := falsy_as_none env) path ≫= k') w.
Proof.
  intros Ht Hf w. unfold mbind, M_bind. rewrite static_fetch_falsy_as_none.
  destruct (static_fetch_json_run path w) as [out ->].
  destruct (truthy (fetched _)) eqn:Hv; [by apply Ht | by apply Hf].
Qed.

Lemma after_fetch {B} path (k k' : json → M B) :
  (∀ v w, truthy v = true → k v w = k' v w) →
  (∀ v w, truthy v = false → k v w = k' JNull w) →
  ∀ w, (ExtractAllTransactions.fetch_json path ≫= k) w
       = (ExtractAllTransactions.fetch_json (H := falsy_as_none env) path ≫= k') w.
Proof.
  intros Ht Hf w. unfold mbind, M_bind. rewrite fetch_falsy_as_none.
  destruct (fetch_json_run path w) as [out ->].
  destruct (truthy (fetched _)) eqn:Hv; [by apply Ht | by apply Hf].
Qed.

End falsy.

Section falsy_callers.
Context {env : Env}.

(** One step of a run that does not depend on the decoder. *)
Ltac same_step := apply bind_ext; [intros ?; reflexivity | intros ?].

(** One fetch, on both sides. *)
Ltac static_fetch :=
  apply static_after_fetch;
  (let v := fresh "v" in let w := fresh "w" in let Hv := fresh "Hv" in
   intros v w Hv; rewrite ?Hv; cbn [truthy]; revert w).
Ltac fetch :=
  apply after_fetch;
  (let v := fresh "v" in let w := fresh "w" in let Hv := fresh "Hv" in
   intros v w Hv; rewrite ?Hv; cbn [truthy]; revert w).

Lemma extract_merchants_falsy w :
  ExtractData.extract_merchants w
  = ExtractData.extract_merchants (H := falsy_as_none env) w.
Proof.
  revert w. unfold ExtractData.extract_merchants.
  same_step. static_fetch; reflexivity.
Qed.

Lemma extract_plan_falsy merchant_id plan w :
  ExtractData.extract_plan merchant_id plan w
  = ExtractData.extract_plan (H := falsy_as_none env) merchant_id plan w.
Proof.
  revert w. unfold ExtractData.extract_plan.
  same_step. destruct (truthy _); [|reflexivity].
  same_step. static_fetch; reflexivity.
Qed.

Lemma plan_details_falsy merchant_id data w :
  (ExtractData.save_json data
     (ExtractData.DATA_DIR ++ [py "plans"; str_of_Z merchant_id ++ py ".json"]);;
   n ← py_len data;
   print (py "  Extracting " ++ str_of_nat n ++ py " plan details...");;
   plans ← py_iter data;
   for_each plans (ExtractData.extract_plan merchant_id)) w
  = (ExtractData.save_json (H := falsy_as_none env) data
       (ExtractData.DATA_DIR (H := falsy_as_none env)
          ++ [py "plans"; str_of_Z merchant_id ++ py ".json"]);;
     n ← py_len data;
     print (py "  Extracting " ++ str_of_nat n ++ py " plan details...");;
     plans ← py_iter data;
     for_each plans (ExtractData.extract_plan (H := falsy_as_none env) merchant_id)) w.
Proof.
  revert w. do 4 same_step. apply for_each_ext. intros. apply extract_plan_falsy.
Qed.

Lemma extract_merchant_falsy merchant_id w :
  ExtractData.extract_merchant merchant_id w
  = ExtractData.extract_merchant (H := falsy_as_none env) merchant_id w.
Proof.
  revert w. unfold ExtractData.extract_merchant. cbv zeta.
  same_step.
  static_fetch; same_step;
  static_fetch; same_step;
  static_fetch;
  (apply bind_ext; [intros ?; first [reflexivity | apply plan_details_falsy] | intros ?]);
  static_fetch; reflexivity.
Qed.

Lemma extract_transaction_falsy it w :
  ExtractData.extract_transaction it w
  = ExtractData.extract_transaction (H := falsy_as_none env) it w.
Proof.
  revert w. destruct it as [i tx_id]. unfold ExtractData.extract_transaction.
  same_step. static_fetch; same_step; static_fetch; reflexivity.
Qed.

Lemma extract_one_falsy total it counts w :
  ExtractAllTransactions.extract_one total it counts w
  = ExtractAllTransactions.extract_one (H := falsy_as_none env) total it counts w.
Proof.
  revert w. destruct it as [i tx_id], counts as [success failed].
  unfold ExtractAllTransactions.extract_one.
  same_step. fetch; [|reflexivity].
  same_step. fetch; reflexivity.
Qed.

(** C9. A fetched body that decodes to a document that is not truthy
    (null, false, 0, an empty string, object or array) is to every caller
    what a failed fetch is: both scripts run exactly as they would if the
    body had decoded to [None], which is what [fetch_json] returns for a
    failed fetch and for an empty body. So no artifact is written for it, the
    fetches that depend on it are skipped, and the discovery variant counts
    the identifier as failed. *)
Theorem falsy_document_is_a_failed_fetch (w : world) :
  ExtractData.main w = ExtractData.main (H := falsy_as_none env) w
  ∧ ExtractAllTransactions.main w = ExtractAllTransactions.main (H := falsy_as_none env) w
  ∧ (∀ url, fetched (H := falsy_as_none env) url
            = if truthy (fetched url) then fetched url else JNull)
  ∧ (∀ url err, curl url = Completed 0 [] err → fetched url = JNull)
  ∧ (∀ total i tx_id counts,
       truthy (fetched (tx_url tx_id)) = false →
       ∃ out, ExtractAllTransactions.extract_one total (i, tx_id) counts w
              = Done (counts.1, S counts.2)
                  (World (files w) (stdout w ++ out) (invoked w ++ [tx_url tx_id])))
  ∧ (truthy (fetched (ExtractData.BASE_URL ++ py "/merchants")) = false →
       ∃ out, ExtractData.extract_merchants w
              = Done () (World (files w) (stdout w ++ out)
                           (invoked w ++ [ExtractData.BASE_URL ++ py "/merchants"]))).
Proof.
  split_and!.
  - revert w. unfold ExtractData.main.
    do 10 same_step.
    apply bind_ext; [apply extract_merchants_falsy | intros ?].
    apply bind_ext; [|intros ?].
    { unfold ExtractData.extract_merchant_details. apply for_each_ext.
      intros. apply extract_merchant_falsy. }
    apply bind_ext; [|reflexivity].
    unfold ExtractData.extract_transactions. same_step.
    apply for_each_ext. intros. apply extract_transaction_falsy.
  - revert w. unfold ExtractAllTransactions.main.
    do 6 same_step. destruct (bool_decide _); [reflexivity|].
    same_step. apply bind_ext; [|reflexivity].
    unfold ExtractAllTransactions.extract_missing. apply for_fold_ext.
    intros. apply extract_one_falsy.
  - apply fetched_falsy_as_none.
  - intros url err Hc. unfold fetched. by rewrite Hc.
  - intros total i tx_id counts Hf.
    destruct (extract_one_run total i tx_id counts w) as [out ->].
    unfold counts_after, files_after, urls_of, stops, primary_ok. cbv zeta. rewrite Hf.
    cbn [outcome]. eauto.
  - intros Hf. unfold ExtractData.extract_merchants, print, print_end.
    erewrite bind_Done by reflexivity.
    match goal with |- context [mbind _ (ExtractData.fetch_json ?p) ?w1] =>
      destruct (static_fetch_json_run p w1) as [out1 H1] end.
    erewrite bind_Done by exact H1. rewrite Hf. unfold mret, M_ret. wsimpl.
    eexists. by rewrite <-app_assoc.
Qed.

End falsy_callers.

(** ** A failed primary fetch (C1) *)

Section failed_primary.
Context {env : Env}.
Import ExtractAllTransactions.

Lemma tx_file_inj a b : tx_file a = tx_file b → a = b.
Proof. unfold tx_file. intros [= Heq%app_inv_tail]%app_inv_head. done. Qed.

Lemma why_file_inj a b : why_file a = why_file b → a = b.
Proof. unfold why_file. intros [= Heq%app_inv_tail]%app_inv_head. done. Qed.

Lemma tx_file_not_why a b : tx_file a ≠ why_file b.
Proof.
  unfold tx_file, why_file, WHY_DIR. intros Heq.
  apply (f_equal length) in Heq. rewrite !length_app in Heq. simpl in Heq. lia.
Qed.

Lemma saved_lookup_ne fs d p q : p ≠ q → saved fs d p !! q = fs !! q.
Proof. intros Hne. unfold saved. destruct (open_error p); [done|]. by rewrite lookup_insert_ne. Qed.

Lemma saved_if_lookup_ne fs d p q : p ≠ q → saved_if fs d p !! q = fs !! q.
Proof. intros Hne. unfold saved_if. destruct (truthy d); [|done]. by apply saved_lookup_ne. Qed.

Lemma files_after_why l : ∀ fs tx_id,
  primary_ok tx_id = false →
  foldl files_after fs l !! why_file tx_id = fs !! why_file tx_id.
Proof.
  induction l as [|x l IH]; intros fs tx_id Hfail; simpl; [done|].
  rewrite IH by done. unfold files_after, primary_ok in *.
  destruct (truthy (fetched (tx_url x))) eqn:Hok; [|done].
  assert (why_file x ≠ why_file tx_id) as Hw.
  { intros ?%why_file_inj. congruence. }
  destruct (save_error _ _).
  - rewrite saved_lookup_ne; [done|]. apply tx_file_not_why.
  - rewrite saved_if_lookup_ne, saved_lookup_ne; [done| |done]. apply tx_file_not_why.
Qed.

Lemma elem_of_concat {A} (x : A) (ls : list (list A)) :
  x ∈ concat ls ↔ ∃ l, l ∈ ls ∧ x ∈ l.
Proof.
  induction ls as [|l ls IH]; simpl.
  - split; [by intros ?%elem_of_nil | by intros (? & ?%elem_of_nil & _)].
  - rewrite elem_of_app, IH. split.
    + intros [?|(l' & ? & ?)]; [exists l; split; [left|done] | exists l'; split; [by right|done]].
    + intros (l' & [->|?]%elem_of_cons & ?); [by left | right; eauto].
Qed.

Lemma elem_of_urls_of u x :
  u ∈ urls_of x → u = tx_url x ∨ (u = why_url x ∧ primary_ok x = true).
Proof.
  unfold urls_of, primary_ok. destruct (truthy (fetched (tx_url x))).
  - destruct (save_error _ _).
    + intros ->%list_elem_of_singleton. by left.
    + intros [->| ->%list_elem_of_singleton]%elem_of_cons; auto.
  - intros ->%list_elem_of_singleton. by left.
Qed.

Lemma why_url_not_invoked l tx_id :
  Forall (λ x, Forall is_hexdash x) l →
  primary_ok tx_id = false →
  why_url tx_id ∉ concat (urls_of <$> l).
Proof.
  intros Hl Hfail (us & (x & -> & Hx)%list_elem_of_fmap & Hin)%elem_of_concat.
  apply elem_of_urls_of in Hin as [Heq|[Heq Hok]].
  - unfold why_url, tx_url in Heq. apply app_inv_head, app_inv_head in Heq. subst x.
    pose proof (proj1 (Forall_forall _ _) Hl _ Hx) as Hs.
    apply Forall_app in Hs as [_ Hs]. by inversion Hs.
  - unfold why_url in Heq. apply app_inv_head, app_inv_head, app_inv_tail in Heq.
    congruence.
Qed.

Lemma work_list_hexdash fs : Forall (λ x, Forall is_hexdash x) (work_list fs).
Proof.
  apply Forall_forall. intros x [Hx _]%elem_of_work_list.
  by apply discovered_shape in Hx as [_ ?].
Qed.

Lemma static_tx_file tx_id :
  ExtractData.DATA_DIR ++ [py "transactions"; tx_id ++ py ".json"] = tx_file tx_id.
Proof. unfold tx_file, TX_DIR. by rewrite <-app_assoc. Qed.

Lemma static_why_file tx_id :
  ExtractData.DATA_DIR ++ [py "transactions"; py "why"; tx_id ++ py ".json"]
  = why_file tx_id.
Proof. unfold why_file, WHY_DIR, TX_DIR. by rewrite <-!app_assoc. Qed.

(** One turn of the static loop over the listed transactions. *)
Lemma extract_transaction_run i tx_id w :
  ∃ out, ExtractData.extract_transaction (i, tx_id) w =
    outcome (static_stops tx_id) ()
      (World (static_files_after (files w) tx_id) (stdout w ++ out)
             (invoked w ++ static_urls_of tx_id)).
Proof.
  unfold ExtractData.extract_transaction, static_stops, static_files_after,
    static_urls_of, print, print_end.
  rewrite static_tx_file, static_why_file.
  erewrite bind_Done by reflexivity.
  match goal with |- context [mbind _ (ExtractData.fetch_json ?p) ?w1] =>
    destruct (static_fetch_json_run p w1) as [out1 H1] end.
  erewrite bind_Done by exact H1. wsimpl.
  change (ExtractData.BASE_URL ++ py "/transactions/" ++ tx_id) with (tx_url tx_id).
  match goal with |- context [mbind _ (if truthy ?d then _ else _) ?w1] =>
    destruct (static_save_if_run d (tx_file tx_id) w1) as [out2 H2] end.
  erewrite bind_outcome by exact H2. wsimpl.
  destruct (save_if_error (fetched (tx_url tx_id)) (tx_file tx_id)) as [e|];
    cbn [outcome or_else].
  { eexists. f_equal. f_equal. rewrite <-!app_assoc. reflexivity. }
  match goal with |- context [mbind _ (ExtractData.fetch_json ?p) ?w1] =>
    destruct (static_fetch_json_run p w1) as [out3 H3] end.
  erewrite bind_Done by exact H3. wsimpl.
  change (ExtractData.BASE_URL ++ py "/transactions/" ++ tx_id ++ py "/why")
    with (why_url tx_id).
  match goal with |- context [(if truthy ?d then _ else _) ?w1] =>
    destruct (static_save_if_run d (why_file tx_id) w1) as [out4 H4] end.
  rewrite H4. wsimpl. eexists. f_equal. f_equal; rewrite <-!app_assoc; reflexivity.
Qed.

(** C1 (amended). In the discovery variant, for every identifier of the
    work list whose primary fetch fails, the "why" url is not among the urls
    the run invokes curl on and the "why" artifact of that identifier is
    after the run what it was before (absent if it was absent), however the
    run ends. In the static variant the "why" fetch of an identifier does
    not depend on the primary fetch having succeeded: when the primary fetch
    fails, the "why" url is still fetched and its artifact is written when
    that fetch yields a truthy document. The "why" fetch is left out only
    when the save of a truthy primary document raises, which ends the
    run. *)
Theorem failed_primary_fetch (w : world) :
  (let w1 := final (main w) in
   ∀ tx_id,
     tx_id ∈ work_list (files w) →
     primary_ok tx_id = false →
     (why_url tx_id ∉ drop (length (invoked w)) (invoked w1))
     ∧ files w1 !! why_file tx_id = files w !! why_file tx_id)
  ∧ (∀ i tx_id,
       truthy (fetched (tx_url tx_id)) = false →
       let why := fetched (why_url tx_id) in
       let why_artifact :=
         ExtractData.DATA_DIR ++ [py "transactions"; py "why"; tx_id ++ py ".json"] in
       ∃ out,
         ExtractData.extract_transaction (i, tx_id) w
         = outcome (save_if_error why why_artifact) ()
             (World (saved_if (files w) why why_artifact) (stdout w ++ out)
                    (invoked w ++ [tx_url tx_id; why_url tx_id])))
  ∧ (∀ i tx_id,
       let data := fetched (tx_url tx_id) in
       let data_file := ExtractData.DATA_DIR ++ [py "transactions"; tx_id ++ py ".json"] in
       invoked (final (ExtractData.extract_transaction (i, tx_id) w))
       = invoked w ++ match save_if_error data data_file with
                      | None => [tx_url tx_id; why_url tx_id]
                      | Some _ => [tx_url tx_id]
                      end).
Proof.
  split_and!.
  - intros w1 tx_id Hin Hfail.
    destruct (main_run w) as [out Hrun].
    assert (w1 = World (foldl files_after (files w) (reached stops (work_list (files w))))
                   (stdout w ++ out)
                   (invoked w ++ concat (urls_of <$> reached stops (work_list (files w)))))
      as ->.
    { unfold w1. rewrite Hrun. by destruct (first_stop stops (work_list (files w))). }
    wsimpl. split.
    + rewrite drop_app_length. apply why_url_not_invoked; [|done].
      apply Forall_reached, work_list_hexdash.
    + by apply files_after_why.
  - intros i tx_id Hfail why why_artifact.
    destruct (extract_transaction_run i tx_id w) as [out Hrun]. exists out.
    rewrite Hrun. unfold static_stops, static_files_after, static_urls_of.
    unfold why_artifact. rewrite static_why_file.
    assert (save_if_error (fetched (tx_url tx_id)) (tx_file tx_id) = None) as ->.
    { unfold save_if_error. by rewrite Hfail. }
    assert (saved_if (files w) (fetched (tx_url tx_id)) (tx_file tx_id) = files w) as ->.
    { unfold saved_if. by rewrite Hfail. }
    done.
  - intros i tx_id data data_file.
    destruct (extract_transaction_run i tx_id w) as [out Hrun].
    rewrite Hrun. unfold data_file. rewrite static_tx_file. unfold static_urls_of.
    by destruct (static_stops tx_id).
Qed.

End failed_primary.

Lemma failed_primary_fetch_witness :
  let w := Sample.start Sample.one_mention in
  let w1 := final (ExtractAllTransactions.main (H := Sample.only_why) w) in
  (why_url Sample.id1 ∉ drop (length (invoked w)) (invoked w1))
  ∧ files w1 !! why_file (H := Sample.only_why) Sample.id1 = None.
Proof.
  intros w w1.
  destruct (failed_primary_fetch (env := Sample.only_why) w) as [Hfail _].
  destruct (Hfail Sample.id1) as [Hurl Hfile].
  - apply (bool_decide_eq_true_1 _). by_vm.
  - by_vm.
  - split; [exact Hurl|]. fold w1 in Hfile. rewrite Hfile. by_vm.
Defined.

(** C1, as stated, fails in the static variant: against an API that knows
    no transaction but answers every "why" url, the primary fetch of the
    first listed identifier fails, and still its "why" url is fetched and
    its "why" artifact is there afterwards, next to no primary artifact. *)
Lemma static_variant_fetches_why_regardless :
  let w := Sample.start ∅ in
  let data_file :=
    ExtractData.DATA_DIR (H := Sample.only_why)
      ++ [py "transactions"; Sample.id1 ++ py ".json"] in
  let why_artifact :=
    ExtractData.DATA_DIR (H := Sample.only_why)
      ++ [py "transactions"; py "why"; Sample.id1 ++ py ".json"] in
  Sample.id1 ∈ ExtractData.TRANSACTION_IDS
  ∧ fetched (H := Sample.only_why) (tx_url Sample.id1) = JNull
  ∧ ∃ w',
      ExtractData.extract_transactions (H := Sample.only_why) w = Done () w'
      ∧ why_url Sample.id1 ∈ invoked w'
      ∧ is_Some (files w' !! why_artifact)
      ∧ files w' !! data_file = None.
Proof.
  intros w data_file why_artifact. split_and!.
  - apply (bool_decide_eq_true_1 _). by_vm.
  - by_vm.
  - assert (match ExtractData.extract_transactions (H := Sample.only_why) w with
            | Done _ w' =>
                bool_decide (why_url Sample.id1 ∈ invoked w')
                && bool_decide (is_Some (files w' !! why_artifact))
                && bool_decide (files w' !! data_file = None)
            | Raise _ _ => false
            end = true) as Hrun by by_vm.
    destruct (ExtractData.extract_transactions w) as [[] w'|]; [|done]. exists w'.
    apply andb_true_iff in Hrun as [[H1 H2]%andb_true_iff H3].
    apply bool_decide_eq_true in H1, H2, H3. by split_and!.
Qed.

(** ** Further properties of the code *)

(** *** The pattern scan *)

Section findall_bounds.

Lemma match_at_span s g n :
  match_at s = Some (g, n) → (55 ≤ n ≤ length s)%nat ∧ length g = 36%nat.
Proof.
  intros (ws & post & (_ & Hlen & _) & -> & ->)%match_at_spec.
  rewrite length_app, length_occurrence. lia.
Qed.

Lemma findall_from_bound s : ∀ skip,
  (skip ≤ length s)%nat →
  (55 * length (findall_from skip s) + skip ≤ length s)%nat.
Proof.
  induction s as [|c s IH]; intros skip Hskip; simpl in *; [lia|].
  destruct skip as [|k].
  - destruct (match_at (c :: s)) as [[g n]|] eqn:Hm.
    + apply match_at_span in Hm as [[Hn Hfit] _]. simpl in Hfit.
      specialize (IH (pred n)). simpl. lia.
    + specialize (IH O). lia.
  - specialize (IH k). lia.
Qed.

Lemma findall_from_groups s : ∀ skip g,
  g ∈ findall_from skip s → length g = 36%nat ∧ Forall is_hexdash g.
Proof.
  intros skip g (i & _ & ws & post & (_ & Hlen & Hg) & _)%findall_from_sound. done.
Qed.

(** X1. Every match of the pattern spans at least 55 characters and the
    matches do not overlap: a text of n characters yields at most n/55
    identifiers (none when it is shorter than 55), each of 36 characters of
    [a-f0-9-]. *)
Theorem findall_bounded (s : text) :
  (55 * length (findall s) ≤ length s)%nat
  ∧ ((length s < 55)%nat → findall s = [])
  ∧ (∀ g, g ∈ findall s → length g = 36%nat ∧ Forall is_hexdash g).
Proof.
  pose proof (findall_from_bound s O) as Hb. unfold findall. split_and!.
  - lia.
  - intros Hshort. destruct (findall_from O s); [done|]. simpl in Hb. lia.
  - apply findall_from_groups.
Qed.

End findall_bounds.

(** *** Plan keys in urls and in file names *)

(** Arithmetic with division by a constant. *)
Ltac div_lia := zify; Z.to_euclidean_division_equations; lia.

Section quoting.

Lemma below_256 b : b < 256 → b ∈ (N.of_nat <$> seq 0 256).
Proof.
  intros Hb. apply list_elem_of_fmap. exists (N.to_nat b). split; [lia|].
  apply elem_of_seq. lia.
Qed.

Lemma utf8_char_bytes c bs : utf8_char c = Some bs → Forall (λ b, b < 256) bs.
Proof.
  unfold utf8_char.
  repeat (case_match; try done); intros [= <-];
    repeat (apply Forall_cons; split); try apply Forall_nil;
    repeat match goal with
           | H : (_ <? _) = _ |- _ => apply N.ltb_lt in H || apply N.ltb_ge in H
           | H : (_ && _) = false |- _ => apply andb_false_iff in H as [H|H]
           | H : (_ <=? _) = false |- _ => apply N.leb_gt in H
           end; div_lia.
Qed.

Lemma utf8_encode_bytes s bs : utf8_encode s = Some bs → Forall (λ b, b < 256) bs.
Proof.
  revert bs. induction s as [|c s IH]; intros bs; simpl; [by intros [= <-]|].
  destruct (utf8_char c) as [b|] eqn:Hc; [|done].
  destruct (utf8_encode s) as [bs'|]; [|done]. intros [= <-].
  apply Forall_app. split; [by eapply utf8_char_bytes | by apply IH].
Qed.

Lemma quote_byte_chars b : b < 256 → Forall url_char (quote_byte b).
Proof.
  intros Hb%below_256.
  assert (forallb (λ b, forallb url_char (quote_byte b)) (N.of_nat <$> seq 0 256) = true)
    as Hall by (vm_compute; reflexivity).
  rewrite forallb_forall in Hall. apply list_elem_of_In, Hall in Hb.
  rewrite forallb_forall in Hb. apply Forall_forall.
  intros c Hc%list_elem_of_In. by apply Is_true_true, Hb.
Qed.

Lemma quote_bytes_chars bs :
  Forall (λ b, b < 256) bs → Forall url_char (quote_bytes bs).
Proof.
  unfold quote_bytes. induction 1 as [|b bs Hb _ IH]; [constructor|].
  cbn [mbind list_bind]. apply Forall_app. split; [by apply quote_byte_chars | done].
Qed.

End quoting.

Section quoting_injective.

Lemma utf8_char_prefix_free c1 c2 x1 x2 r1 r2 :
  utf8_char c1 = Some x1 → utf8_char c2 = Some x2 →
  x1 ++ r1 = x2 ++ r2 → c1 = c2.
Proof.
  unfold utf8_char.
  repeat (case_match; try done); intros [= <-] [= <-] Heq; simplify_eq/=;
    repeat match goal with
           | H : (_ <? _) = _ |- _ => apply N.ltb_lt in H || apply N.ltb_ge in H
           | H : (_ && _) = false |- _ => apply andb_false_iff in H as [H|H]
           | H : (_ <=? _) = false |- _ => apply N.leb_gt in H
           end; div_lia.
Qed.

Lemma utf8_encode_inj s1 : ∀ s2 bs,
  utf8_encode s1 = Some bs → utf8_encode s2 = Some bs → s1 = s2.
Proof.
  induction s1 as [|c1 s1 IH]; intros [|c2 s2] bs; simpl.
  - done.
  - intros [= <-]. destruct (utf8_char c2) as [x|] eqn:Hc; [|done].
    destruct (utf8_encode s2); [|done]. intros [= Hnil].
    apply app_eq_nil in Hnil as [-> _]. unfold utf8_char in Hc.
    repeat (case_match; try done).
  - destruct (utf8_char c1) as [x|] eqn:Hc; [|done].
    destruct (utf8_encode s1); [|done]. intros [= <-] [= Hnil]. symmetry in Hnil.
    apply app_eq_nil in Hnil as [-> _]. unfold utf8_char in Hc.
    repeat (case_match; try done).
  - destruct (utf8_char c1) as [x1|] eqn:Hc1; [|done].
    destruct (utf8_encode s1) as [b1|] eqn:Hs1; [|done].
    destruct (utf8_char c2) as [x2|] eqn:Hc2; [|done].
    destruct (utf8_encode s2) as [b2|] eqn:Hs2; [|done].
    intros [= <-] [= Heq].
    assert (c1 = c2) as -> by (symmetry in Heq; by eapply utf8_char_prefix_free).
    rewrite Hc1 in Hc2. injection Hc2 as ->. apply app_inv_head in Heq as ->.
    f_equal. by eapply IH.
Qed.

Lemma hex_digit_inj d1 d2 : hex_digit d1 = hex_digit d2 → d1 = d2.
Proof.
  unfold hex_digit. destruct (N.ltb_spec d1 10), (N.ltb_spec d2 10); lia.
Qed.

Lemma quote_byte_prefix_free b1 b2 r1 r2 :
  quote_byte b1 ++ r1 = quote_byte b2 ++ r2 → b1 = b2.
Proof.
  unfold quote_byte.
  destruct (always_safe b1) eqn:H1, (always_safe b2) eqn:H2; intros Heq.
  - by injection Heq.
  - injection Heq as -> _. by vm_compute in H1.
  - injection Heq as <- _. by vm_compute in H2.
  - injection Heq as Hh Hl _. apply hex_digit_inj in Hh, Hl. div_lia.
Qed.

Lemma quote_bytes_inj bs1 : ∀ bs2, quote_bytes bs1 = quote_bytes bs2 → bs1 = bs2.
Proof.
  unfold quote_bytes. induction bs1 as [|b1 bs1 IH]; intros [|b2 bs2]; cbn [mbind list_bind].
  - done.
  - intros Heq. symmetry in Heq. apply app_eq_nil in Heq as [Hq _].
    unfold quote_byte in Hq. by destruct (always_safe b2).
  - intros Heq. apply app_eq_nil in Heq as [Hq _].
    unfold quote_byte in Hq. by destruct (always_safe b1).
  - intros Heq. pose proof (quote_byte_prefix_free _ _ _ _ Heq) as ->.
    apply app_inv_head in Heq. f_equal. by apply IH.
Qed.

End quoting_injective.

Section plan_keys.
Context {env : Env}.
Import ExtractData.

Lemma quote_Done s w enc w' :
  quote (JStr s) w = Done enc w' →
  w' = w ∧ ∃ bs, utf8_encode s = Some bs ∧ enc = quote_bytes bs.
Proof.
  unfold quote. destruct (utf8_encode s) as [bs|]; [|done].
  intros [<- <-]%Done_inj. eauto.
Qed.

(** X2. The url segment built from a plan key consists of letters, digits,
    the characters _.-~ and percent signs only: whatever the key holds, the
    segment has no slash, colon, question mark, hash or space, so it cannot
    leave its place in the path of the request. *)
Theorem quoted_key_is_one_segment (s : text) (w w' : world) (enc : text) :
  quote (JStr s) w = Done enc w' →
  w' = w ∧ Forall url_char enc
  ∧ (47 ∉ enc) ∧ (58 ∉ enc) ∧ (63 ∉ enc) ∧ (35 ∉ enc) ∧ (32 ∉ enc).
Proof.
  intros (-> & bs & Hbs & ->)%quote_Done.
  assert (Forall url_char (quote_bytes bs)) as Hall.
  { by apply quote_bytes_chars, (utf8_encode_bytes s). }
  split; [done|]. split; [done|].
  split_and!; intros Hin; by apply (proj1 (Forall_forall _ _) Hall) in Hin.
Qed.

(** X3. The encoding of plan keys loses nothing: two keys with the same
    encoded segment are the same key, so different plans of a merchant are
    fetched from different urls. *)
Theorem quoted_keys_differ (s1 s2 : text) (w w1 w2 : world) (enc : text) :
  quote (JStr s1) w = Done enc w1 → quote (JStr s2) w = Done enc w2 → s1 = s2.
Proof.
  intros (_ & bs1 & H1 & ->)%quote_Done (_ & bs2 & H2 & Heq)%quote_Done.
  apply quote_bytes_inj in Heq as ->. by eapply utf8_encode_inj.
Qed.

(** X4. The file name built from a plan key has the length of the key and
    holds no slash and no colon, so the artifact is always an entry of
    plans/details itself; every other character of the key is kept. *)
Theorem safe_key_is_a_file_name (s : text) (w w' : world) (nm : text) :
  py_safe_key (JStr s) w = Done nm w' →
  w' = w ∧ length nm = length s
  ∧ Forall (λ c, c ≠ 47 ∧ c ≠ 58) nm
  ∧ (∀ i c, s !! i = Some c → c ≠ 47 → c ≠ 58 → nm !! i = Some c)
  ∧ parent (plan_file s) = DATA_DIR ++ [py "plans"; py "details"]
  ∧ name (plan_file s) = nm ++ py ".json".
Proof.
  unfold py_safe_key. intros [<- <-]%Done_inj. rewrite replace_colon_slash.
  split; [done|]. split; [by rewrite length_fmap|]. split_and!.
  - apply Forall_fmap, Forall_forall. intros c _. simpl.
    destruct (N.eqb_spec c 58) as [->|]; [done|].
    destruct (N.eqb_spec c 47) as [->|]; done.
  - intros i c Hi H47 H58. rewrite list_lookup_fmap, Hi. simpl.
    destruct (N.eqb_spec c 58); [done|]. by destruct (N.eqb_spec c 47).
  - unfold plan_file.
    change [py "plans"; py "details"; ?x] with ([py "plans"; py "details"] ++ [x]).
    by rewrite app_assoc, parent_snoc.
  - unfold plan_file.
    change [py "plans"; py "details"; ?x] with ([py "plans"; py "details"] ++ [x]).
    by rewrite app_assoc, name_snoc, replace_colon_slash.
Qed.

End plan_keys.

Lemma quoted_key_is_one_segment_witness :
  let w := Sample.start ∅ in
  quote (JStr (py "m:30:plan/v1")) w = Done (py "m%3A30%3Aplan%2Fv1") w
  ∧ 47 ∉ py "m%3A30%3Aplan%2Fv1".
Proof.
  intros w. assert (quote (JStr (py "m:30:plan/v1")) w = Done (py "m%3A30%3Aplan%2Fv1") w)
    as Hq by by_vm.
  split; [exact Hq|]. by apply (quoted_key_is_one_segment _ _ _ _ Hq).
Defined.

Lemma quoted_keys_differ_witness :
  let w := Sample.start ∅ in
  quote (JStr (py "a/b")) w = Done (py "a%2Fb") w ∧ py "a/b" = py "a/b".
Proof.
  intros w. assert (quote (JStr (py "a/b")) w = Done (py "a%2Fb") w) as Hq by by_vm.
  split; [exact Hq|]. exact (quoted_keys_differ _ _ _ _ _ _ Hq Hq).
Defined.

Lemma safe_key_is_a_file_name_witness :
  let w := Sample.start ∅ in
  py_safe_key (JStr (py "m:30:plan/v1")) w = Done (py "m_30_plan_v1") w
  ∧ Forall (λ c, c ≠ 47 ∧ c ≠ 58) (py "m_30_plan_v1").
Proof.
  intros w.
  assert (py_safe_key (JStr (py "m:30:plan/v1")) w = Done (py "m_30_plan_v1") w)
    as Hs by by_vm.
  split; [exact Hs|].
  by apply (safe_key_is_a_file_name (env := Sample.always_ok) _ _ _ _ Hs).
Defined.

(** *** The static extraction does not read what it wrote *)

Section blindness.
Context {env : Env}.

Lemma onto_assoc w w0 w1 : onto (onto w w0) w1 = onto w (onto w0 w1).
Proof. unfold onto. wsimpl. f_equal; [apply (assoc_L (∪)) | by rewrite app_assoc ..]. Qed.

Lemma onto_empty w : onto w empty_world = w.
Proof.
  destruct w as [fs out us]. unfold onto, empty_world. simpl.
  by rewrite (left_id_L ∅ (∪) fs), !app_nil_r.
Qed.

Lemma replay_replay {A} w w0 (r : res A) : replay (onto w w0) r = replay w (replay w0 r).
Proof. destruct r; simpl; by rewrite onto_assoc. Qed.

Lemma blind_ret {A} (a : A) : blind (mret a).
Proof. intros w. unfold mret, M_ret. simpl. by rewrite onto_empty. Qed.

Lemma blind_raise {A} e : blind (raise (A := A) e).
Proof. intros w. unfold raise. simpl. by rewrite onto_empty. Qed.

Lemma blind_bind {A B} (c : M A) (k : A → M B) :
  blind c → (∀ a, blind (k a)) → blind (c ≫= k).
Proof.
  intros Hc Hk w. unfold mbind, M_bind. rewrite (Hc w).
  destruct (c empty_world) as [a w0|e w0]; simpl; [|done].
  by rewrite (Hk a (onto w w0)), (Hk a w0), replay_replay.
Qed.

Lemma blind_print_end s e : blind (print_end s e).
Proof.
  intros w. unfold print_end, replay, onto, empty_world. simpl.
  by rewrite (left_id_L ∅ (∪) (files w)), app_nil_r.
Qed.

Lemma blind_print s : blind (print s).
Proof. apply blind_print_end. Qed.

Lemma blind_run_curl url : blind (run_curl url).
Proof.
  intros w. unfold run_curl, replay, onto, empty_world. simpl.
  by rewrite (left_id_L ∅ (∪) (files w)), app_nil_r.
Qed.

Lemma blind_dump_json d p : blind (dump_json d p).
Proof.
  intros w. unfold dump_json, replay, onto, empty_world.
  destruct (open_error p); simpl.
  { destruct w. simpl. by rewrite (left_id_L ∅ (∪)), !app_nil_r. }
  destruct (encodable d); simpl;
    by rewrite insert_empty, <-insert_union_singleton_l, !app_nil_r.
Qed.

Lemma blind_mkdir_parents p : blind (mkdir_parents p).
Proof. apply blind_ret. Qed.

Lemma blind_for_each {A} (l : list A) (body : A → M unit) :
  (∀ x, blind (body x)) → blind (for_each l body).
Proof.
  intros Hb. induction l as [|x l IH]; simpl; [apply blind_ret|].
  apply blind_bind; [apply Hb | by intros _].
Qed.

Lemma blind_if {A} (b : bool) (c1 c2 : M A) : blind c1 → blind c2 → blind (if b then c1 else c2).
Proof. by destruct b. Qed.

Ltac blind_step :=
  lazymatch goal with
  | |- blind (for_each _ _) => apply blind_for_each; intros ?
  | |- blind (mbind _ _) => apply blind_bind; [|intros ?]
  | |- blind (if _ then _ else _) => apply blind_if
  | |- blind (print _) => apply blind_print
  | |- blind (print_end _ _) => apply blind_print_end
  | |- blind (run_curl _) => apply blind_run_curl
  | |- blind (dump_json _ _) => apply blind_dump_json
  | |- blind (mkdir_parents _) => apply blind_mkdir_parents
  | |- blind (mret _) => apply blind_ret
  | |- blind (raise _) => apply blind_raise
  end.


Lemma blind_static_fetch_json path : blind (ExtractData.fetch_json path).
Proof.
  unfold ExtractData.fetch_json. blind_step; [blind_step|].
  destruct a as [e|rc out err]; [by repeat blind_step|].
  blind_step; [|by repeat blind_step].
  destruct (json_loads out); by repeat blind_step.
Qed.

Lemma blind_static_save_json data p : blind (ExtractData.save_json data p).
Proof. unfold ExtractData.save_json. by repeat blind_step. Qed.

Lemma blind_py_len v : blind (py_len v).
Proof. destruct v; simpl; by blind_step. Qed.

Lemma blind_py_iter v : blind (py_iter v).
Proof. destruct v; simpl; by blind_step. Qed.

Lemma blind_py_get v k : blind (py_get v k).
Proof. destruct v; simpl; by blind_step. Qed.

Lemma blind_quote v : blind (quote v).
Proof. destruct v; simpl; try by blind_step. destruct (utf8_encode s); by blind_step. Qed.

Lemma blind_py_safe_key v : blind (py_safe_key v).
Proof. destruct v; simpl; by blind_step. Qed.

Ltac blind_all :=
  repeat lazymatch goal with
    | |- blind (ExtractData.fetch_json _) => apply blind_static_fetch_json
    | |- blind (ExtractData.save_json _ _) => apply blind_static_save_json
    | |- blind (py_len _) => apply blind_py_len
    | |- blind (py_iter _) => apply blind_py_iter
    | |- blind (py_get _ _) => apply blind_py_get
    | |- blind (quote _) => apply blind_quote
    | |- blind (py_safe_key _) => apply blind_py_safe_key
    | |- _ => blind_step
    end.

Lemma blind_extract_merchants : blind ExtractData.extract_merchants.
Proof. unfold ExtractData.extract_merchants. by blind_all. Qed.

Lemma blind_extract_plan merchant_id plan : blind (ExtractData.extract_plan merchant_id plan).
Proof. unfold ExtractData.extract_plan. by blind_all. Qed.

Lemma blind_extract_merchant merchant_id : blind (ExtractData.extract_merchant merchant_id).
Proof.
  unfold ExtractData.extract_merchant.
  repeat lazymatch goal with
    | |- blind (ExtractData.extract_plan _ _) => apply blind_extract_plan
    | |- _ => progress blind_all
    end.
Qed.

Lemma blind_extract_transaction it : blind (ExtractData.extract_transaction it).
Proof. destruct it as [i tx_id]. unfold ExtractData.extract_transaction. by blind_all. Qed.

Lemma blind_static_main : blind ExtractData.main.
Proof.
  unfold ExtractData.main, ExtractData.extract_merchant_details,
    ExtractData.extract_transactions.
  repeat lazymatch goal with
    | |- blind ExtractData.extract_merchants => apply blind_extract_merchants
    | |- blind (ExtractData.extract_merchant _) => apply blind_extract_merchant
    | |- blind (ExtractData.extract_transaction _) => apply blind_extract_transaction
    | |- _ => blind_step
    end.
Qed.

(** X5. The static extraction never looks at the data directory: its
    outcome, what it prints and the urls it requests are those of a run from
    an empty directory, and its files are that run's files laid over the
    ones present.  So a second run after a completed one requests every url
    again, prints the same again, and leaves the files as they are. *)
Theorem static_run_ignores_files (w : world) :
  ExtractData.main w = replay w (ExtractData.main empty_world)
  ∧ ∀ w1, ExtractData.main w = Done () w1 →
      ∃ w2, ExtractData.main w1 = Done () w2
            ∧ files w2 = files w1
            ∧ invoked w2 = invoked w1 ++ drop (length (invoked w)) (invoked w1)
            ∧ stdout w2 = stdout w1 ++ drop (length (stdout w)) (stdout w1).
Proof.
  split; [apply blind_static_main|].
  intros w1 H1. rewrite (blind_static_main w1). rewrite (blind_static_main w) in H1.
  destruct (ExtractData.main empty_world) as [[] w0|e w0]; simpl in *; [|done].
  apply Done_inj in H1 as [_ <-]. eexists. split; [done|]. unfold onto. wsimpl.
  rewrite !drop_app_length. split_and!; [|done..].
  by rewrite (assoc_L (∪)), (idemp_L (∪)).
Qed.

End blindness.


(** *** What a run may touch *)

Section bounds.
Context {env : Env}.

Lemma confined_refl d base w : confined d base w w.
Proof.
  split_and!; [by left | exists []; by rewrite app_nil_r | exists []; by rewrite app_nil_r].
Qed.

Lemma confined_trans d base w1 w2 w3 :
  confined d base w1 w2 → confined d base w2 w3 → confined d base w1 w3.
Proof.
  intros (Hf1 & (us1 & Hu1 & HP1) & out1 & Ho1) (Hf2 & (us2 & Hu2 & HP2) & out2 & Ho2).
  split_and!.
  - intros p. destruct (Hf2 p) as [->|?]; [apply Hf1 | by right].
  - exists (us1 ++ us2). rewrite Hu2, Hu1, app_assoc. split; [done|by apply Forall_app].
  - exists (out1 ++ out2). by rewrite Ho2, Ho1, app_assoc.
Qed.

Lemma keeps_ret {A} d base (a : A) : keeps d base (mret a).
Proof. intros w. apply confined_refl. Qed.

Lemma keeps_raise {A} d base e : keeps d base (raise (A := A) e).
Proof. intros w. apply confined_refl. Qed.

Lemma keeps_bind {A B} d base (c : M A) (k : A → M B) :
  keeps d base c → (∀ a, keeps d base (k a)) → keeps d base (c ≫= k).
Proof.
  intros Hc Hk w. unfold mbind, M_bind. specialize (Hc w).
  destruct (c w) as [a w1|e w1]; simpl in *; [|done].
  eapply confined_trans; [exact Hc | apply Hk].
Qed.

Lemma keeps_print_end d base s e : keeps d base (print_end s e).
Proof.
  intros w. unfold print_end. simpl.
  split_and!; [by left | exists []; by rewrite app_nil_r | by eexists].
Qed.

Lemma keeps_print d base s : keeps d base (print s).
Proof. apply keeps_print_end. Qed.

Lemma keeps_run_curl d base url : startswith base url = true → keeps d base (run_curl url).
Proof.
  intros Hu w. unfold run_curl. simpl.
  split_and!; [by left | exists [url]; split; [done|by apply Forall_singleton]
              | exists []; by rewrite app_nil_r].
Qed.

Lemma keeps_dump_json d base data p :
  d `prefix_of` p → d ≠ p → keeps d base (dump_json data p).
Proof.
  intros Hp Hne w. unfold dump_json.
  destruct (open_error p); [apply confined_refl|].
  assert (∀ t, confined d base w
                 (World (<[p := Content t]> (files w)) (stdout w) (invoked w))) as Hins.
  { intros t. split_and!; wsimpl.
    - intros q. destruct (decide (q = p)) as [->|Hq].
      + right. split_and!; [done..|]. rewrite lookup_insert_eq. eauto.
      + left. by rewrite lookup_insert_ne.
    - exists []. by rewrite app_nil_r.
    - exists []. by rewrite app_nil_r. }
  destruct (encodable data); apply Hins.
Qed.

Lemma keeps_mkdir_parents d base p : keeps d base (mkdir_parents p).
Proof. apply keeps_ret. Qed.

Lemma keeps_read_text d base p : keeps d base (read_text p).
Proof. intros w. apply confined_refl. Qed.

Lemma keeps_rglob_json d base p : keeps d base (rglob_json p).
Proof. intros w. apply confined_refl. Qed.

Lemma keeps_glob_json d base p : keeps d base (glob_json p).
Proof. intros w. apply confined_refl. Qed.

Lemma keeps_for_each {A} d base (l : list A) (body : A → M unit) :
  (∀ x, keeps d base (body x)) → keeps d base (for_each l body).
Proof.
  intros Hb. induction l as [|x l IH]; simpl; [apply keeps_ret|].
  apply keeps_bind; [apply Hb | by intros _].
Qed.

Lemma keeps_for_fold {A S} d base (l : list A) (body : A → S → M S) :
  (∀ x s, keeps d base (body x s)) → ∀ s, keeps d base (for_fold l body s).
Proof.
  intros Hb. induction l as [|x l IH]; intros s; simpl; [apply keeps_ret|].
  apply keeps_bind; [apply Hb | apply IH].
Qed.

Lemma keeps_if {A} d base (b : bool) (c1 c2 : M A) :
  keeps d base c1 → keeps d base c2 → keeps d base (if b then c1 else c2).
Proof. by destruct b. Qed.

(** Narrower bounds imply wider ones. *)
Lemma confined_mono d d' base base' w w' :
  d `prefix_of` d' → startswith base base' = true →
  confined d' base' w w' → confined d base w w'.
Proof.
  intros Hd [r ->]%startswith_spec (Hf & (us & Hu & HP) & Hout). split_and!; [|clear Hf|done].
  - intros p. destruct (Hf p) as [?|(Hpre & Hne & Ht)]; [by left|right].
    split_and!; [by etrans | | done].
    intros ->. apply Hne. by apply (anti_symm prefix).
  - exists us. split; [done|]. eapply Forall_impl; [exact HP|]. simpl.
    intros u [r' ->]%startswith_spec. rewrite <-app_assoc. apply startswith_app.
Qed.

Lemma keeps_mono {A} d d' base base' (c : M A) :
  d `prefix_of` d' → startswith base base' = true →
  keeps d' base' c → keeps d base c.
Proof. intros Hd Hb Hc w. by eapply confined_mono. Qed.

Lemma below d (l : path) : l ≠ [] → d `prefix_of` d ++ l ∧ d ≠ d ++ l.
Proof.
  intros Hl. split; [by exists l|]. intros Heq.
  apply (f_equal length) in Heq. rewrite length_app in Heq.
  destruct l; [done|]. simpl in Heq. lia.
Qed.

End bounds.

Section static_bounds.
Context {env : Env}.
Import ExtractData.

Lemma keeps_static_fetch_json d base path :
  startswith base (BASE_URL ++ path) = true → keeps d base (fetch_json path).
Proof.
  intros Hu. unfold fetch_json. apply keeps_bind; [by apply keeps_run_curl|].
  intros [e|rc out err]; [apply keeps_bind; [apply keeps_print|intros _; apply keeps_ret]|].
  apply keeps_if.
  - destruct (json_loads out); [|apply keeps_ret].
    apply keeps_bind; [apply keeps_print|intros _; apply keeps_ret].
  - apply keeps_bind; [apply keeps_print|intros _; apply keeps_ret].
Qed.

Lemma keeps_static_save_json d base data p :
  d `prefix_of` p → d ≠ p → keeps d base (save_json data p).
Proof.
  intros Hp Hne. unfold save_json.
  apply keeps_bind; [apply keeps_mkdir_parents|intros _].
  apply keeps_bind; [by apply keeps_dump_json|intros _]. apply keeps_print.
Qed.

Lemma keeps_py_len d base v : keeps d base (py_len v).
Proof. destruct v; first [apply keeps_ret | apply keeps_raise]. Qed.

Lemma keeps_py_iter d base v : keeps d base (py_iter v).
Proof. destruct v; first [apply keeps_ret | apply keeps_raise]. Qed.

Lemma keeps_py_get d base v k : keeps d base (py_get v k).
Proof. destruct v; first [apply keeps_ret | apply keeps_raise]. Qed.

Lemma keeps_quote d base v : keeps d base (quote v).
Proof.
  destruct v; try apply keeps_raise. simpl.
  destruct (utf8_encode s); [apply keeps_ret | apply keeps_raise].
Qed.

Lemma keeps_py_safe_key d base v : keeps d base (py_safe_key v).
Proof. destruct v; first [apply keeps_ret | apply keeps_raise]. Qed.

Lemma url_below (base path r : text) : startswith (base ++ path) (base ++ path ++ r) = true.
Proof. rewrite app_assoc. apply startswith_app. Qed.

Lemma url_at (base path : text) : startswith (base ++ path) (base ++ path) = true.
Proof. rewrite <-(app_nil_r (base ++ path)) at 2. apply startswith_app. Qed.

Ltac keeps_step :=
  lazymatch goal with
  | |- keeps _ _ (for_each _ _) => apply keeps_for_each; intros ?
  | |- keeps _ _ (mbind _ _) => apply keeps_bind; [|intros ?]
  | |- keeps _ _ (if _ then _ else _) => apply keeps_if
  | |- keeps _ _ (print _) => apply keeps_print
  | |- keeps _ _ (print_end _ _) => apply keeps_print_end
  | |- keeps _ _ (mkdir_parents _) => apply keeps_mkdir_parents
  | |- keeps _ _ (mret _) => apply keeps_ret
  | |- keeps _ _ (py_len _) => apply keeps_py_len
  | |- keeps _ _ (py_iter _) => apply keeps_py_iter
  | |- keeps _ _ (py_get _ _) => apply keeps_py_get
  | |- keeps _ _ (quote _) => apply keeps_quote
  | |- keeps _ _ (py_safe_key _) => apply keeps_py_safe_key
  | |- keeps _ _ (save_json _ (DATA_DIR ++ ?l)) =>
      apply keeps_static_save_json; apply (below DATA_DIR l); discriminate
  | |- keeps _ _ (fetch_json _) => apply keeps_static_fetch_json
  end.

Ltac url_side :=
  try change (py "/merchants/") with (py "/merchants" ++ py "/");
  rewrite <-?app_assoc; first [apply url_below | apply url_at].

Lemma keeps_extract_merchants :
  keeps DATA_DIR (BASE_URL ++ py "/merchants") extract_merchants.
Proof. unfold extract_merchants. repeat keeps_step. url_side. Qed.

Lemma keeps_extract_plan merchant_id plan :
  keeps DATA_DIR (BASE_URL ++ py "/merchants") (extract_plan merchant_id plan).
Proof. unfold extract_plan. repeat keeps_step. url_side. Qed.

Lemma keeps_extract_merchant merchant_id :
  keeps DATA_DIR (BASE_URL ++ py "/merchants") (extract_merchant merchant_id).
Proof.
  unfold extract_merchant.
  repeat lazymatch goal with
    | |- keeps _ _ (extract_plan _ _) => apply keeps_extract_plan
    | |- _ => keeps_step
    end; url_side.
Qed.

Lemma keeps_extract_transaction it :
  keeps DATA_DIR (BASE_URL ++ py "/transactions/") (extract_transaction it).
Proof.
  destruct it as [i tx_id]. unfold extract_transaction. repeat keeps_step; url_side.
Qed.

Lemma keeps_extract_transactions :
  keeps DATA_DIR (BASE_URL ++ py "/transactions/") extract_transactions.
Proof.
  unfold extract_transactions. apply keeps_bind; [apply keeps_print|intros _].
  apply keeps_for_each. apply keeps_extract_transaction.
Qed.

Lemma BASE_URL_prefix r : startswith BASE_URL (BASE_URL ++ r) = true.
Proof. apply startswith_app. Qed.

Lemma keeps_static_main : keeps DATA_DIR BASE_URL main.
Proof.
  unfold main, extract_merchant_details.
  repeat lazymatch goal with
    | |- keeps _ _ extract_merchants =>
        apply (keeps_mono _ DATA_DIR _ (BASE_URL ++ py "/merchants"));
          [done | apply BASE_URL_prefix | apply keeps_extract_merchants]
    | |- keeps _ _ (extract_merchant _) =>
        apply (keeps_mono _ DATA_DIR _ (BASE_URL ++ py "/merchants"));
          [done | apply BASE_URL_prefix | apply keeps_extract_merchant]
    | |- keeps _ _ extract_transactions =>
        apply (keeps_mono _ DATA_DIR _ (BASE_URL ++ py "/transactions/"));
          [done | apply BASE_URL_prefix | apply keeps_extract_transactions]
    | |- _ => keeps_step
    end.
Qed.

(** X8. Whether it completes or raises, the static extraction only adds:
    every file it changes lies below the data directory and holds a document
    afterwards (nothing is removed, nothing outside is touched), every url it
    requests starts with the base url, and what was printed before stays. *)
Theorem static_run_stays_in_data_dir (w : world) :
  let w' := final (main w) in
  (∀ p, files w' !! p ≠ files w !! p →
        DATA_DIR `prefix_of` p ∧ DATA_DIR ≠ p ∧ ∃ t, files w' !! p = Some (Content t))
  ∧ (∀ p, is_Some (files w !! p) → is_Some (files w' !! p))
  ∧ (∃ us, invoked w' = invoked w ++ us ∧ Forall (λ u, startswith BASE_URL u = true) us)
  ∧ (∃ out, stdout w' = stdout w ++ out).
Proof.
  intros w'. destruct (keeps_static_main w) as (Hf & Hu & Hout). fold w' in Hf, Hu, Hout.
  split_and!; [| |done..].
  - intros p Hp. by destruct (Hf p).
  - intros p Hp. destruct (Hf p) as [->|(_ & _ & t & ->)]; eauto.
Qed.

End static_bounds.


(** *** What a plan entry can do to the run *)

Section plan_runs.
Context {env : Env}.
Import ExtractData.

Lemma utf8_char_None c : utf8_char c = None ↔ unencodable c = true.
Proof.
  unfold utf8_char, unencodable.
  destruct (N.ltb_spec c 128), (N.ltb_spec c 2048), (N.leb_spec 55296 c),
    (N.leb_spec c 57343), (N.ltb_spec c 65536), (N.ltb_spec c 1114112),
    (N.leb_spec 1114112 c); simpl; try lia; by split.
Qed.

Lemma utf8_encode_None s : utf8_encode s = None ↔ existsb unencodable s = true.
Proof.
  induction s as [|c s IH]; simpl; [done|].
  rewrite orb_true_iff, <-IH, <-utf8_char_None.
  destruct (utf8_char c), (utf8_encode s); naive_solver.
Qed.

(** A loop over a list, given what one turn does. *)
Lemma for_each_run {A} (body : A → M unit) (stops : A → option exn)
    (files_of : gmap path file → A → gmap path file) (urls : A → list text) :
  (∀ x w, ∃ out, body x w = outcome (stops x) ()
                   (World (files_of (files w) x) (stdout w ++ out) (invoked w ++ urls x))) →
  ∀ l w, ∃ out,
    for_each l body w =
      outcome (first_stop stops l) ()
        (World (foldl files_of (files w) (reached stops l)) (stdout w ++ out)
               (invoked w ++ concat (urls <$> reached stops l))).
Proof.
  intros Hbody. induction l as [|x l IH]; intros w; simpl.
  - exists []. unfold mret, M_ret. by rewrite world_eta.
  - destruct (Hbody x w) as [out1 H1]. erewrite bind_outcome by exact H1.
    destruct (stops x) as [e|]; simpl.
    + exists out1. by rewrite app_nil_r.
    + edestruct IH as [out2 H2]. rewrite H2. wsimpl.
      exists (out1 ++ out2). by rewrite <-!app_assoc.
Qed.

Lemma extract_plans_run merchant_id plans w :
  ∃ out,
    for_each plans (extract_plan merchant_id) w =
      outcome (first_stop (plan_raises merchant_id) plans) ()
        (World (foldl (plan_files_after merchant_id) (files w)
                  (reached (plan_raises merchant_id) plans))
               (stdout w ++ out)
               (invoked w ++ concat (plan_urls merchant_id
                                       <$> reached (plan_raises merchant_id) plans))).
Proof. apply for_each_run. apply extract_plan_run. Qed.

(** The name of a plan artifact: the bytes of the key, five more for the
    suffix, and a NUL exactly when the key has one. *)
Lemma fs_char_utf8 c b : utf8_char c = Some b → fs_char c = Some b.
Proof.
  unfold fs_char. destruct (N.leb_spec 56448 c), (N.leb_spec c 56575); simpl; try done.
  intros Hc. assert (utf8_char c = None) as Hn; [|congruence].
  apply utf8_char_None. unfold unencodable.
  destruct (N.leb_spec 55296 c), (N.leb_spec c 57343); simpl; try done; lia.
Qed.

Lemma fs_encode_utf8 s : ∀ bs, utf8_encode s = Some bs → fs_encode s = Some bs.
Proof.
  induction s as [|c s IH]; intros bs; simpl; [done|].
  destruct (utf8_char c) as [b|] eqn:Hc; [|done].
  destruct (utf8_encode s) as [bs'|]; [|done].
  intros [= <-]. by rewrite (fs_char_utf8 _ _ Hc), (IH bs').
Qed.

Lemma utf8_encode_app s1 s2 bs1 bs2 :
  utf8_encode s1 = Some bs1 → utf8_encode s2 = Some bs2 →
  utf8_encode (s1 ++ s2) = Some (bs1 ++ bs2).
Proof.
  revert bs1. induction s1 as [|c s1 IH]; intros bs1; simpl.
  { by intros [= <-] ->. }
  destruct (utf8_char c) as [b|]; [|done].
  destruct (utf8_encode s1) as [bs'|]; [|done].
  intros [= <-] H2. rewrite (IH bs' eq_refl H2). by rewrite app_assoc.
Qed.

Lemma utf8_char_length c b : utf8_char c = Some b → (c < 128 ↔ length b = 1%nat).
Proof.
  unfold utf8_char.
  destruct (N.ltb_spec c 128); [intros [= <-]; split; [done|lia]|].
  repeat case_match; intros [= <-]; simpl; split; (done || lia).
Qed.

Lemma safe_key_bytes s : ∀ bs,
  utf8_encode s = Some bs →
  ∃ bs', utf8_encode (replace 47 (py "_") (replace 58 (py "_") s)) = Some bs'
         ∧ length bs' = length bs.
Proof.
  rewrite replace_colon_slash.
  induction s as [|c s IH]; intros bs Hbs.
  { simpl in Hbs. injection Hbs as <-. by exists []. }
  cbn [utf8_encode] in Hbs.
  destruct (utf8_char c) as [b|] eqn:Hc; [|done].
  destruct (utf8_encode s) as [bs0|]; [|done]. injection Hbs as <-.
  destruct (IH bs0 eq_refl) as (bs' & Hs' & Hlen).
  rewrite fmap_cons. cbn [utf8_encode]. rewrite Hs'.
  destruct ((c =? 58) || (c =? 47)) eqn:Hsep.
  - assert (utf8_char 95 = Some [95]) as -> by by_vm.
    exists ([95] ++ bs'). split; [done|].
    assert (c < 128) as Hlt.
    { apply orb_true_iff in Hsep as [?%N.eqb_eq|?%N.eqb_eq]; lia. }
    apply (utf8_char_length _ _ Hc) in Hlt. rewrite !length_app, Hlt. simpl. lia.
  - rewrite Hc. exists (b ++ bs'). split; [done|]. rewrite !length_app. lia.
Qed.

Lemma plan_file_error s bs :
  utf8_encode s = Some bs →
  open_error (plan_file s) =
    if bool_decide (0 ∈ s) then Some ValueError
    else if (NAME_MAX <? length bs + 5)%nat then Some OSError
    else None.
Proof.
  intros Hbs. unfold open_error, plan_file, name. rewrite last_app. cbn [last default]. unfold id.
  destruct (safe_key_bytes s bs Hbs) as (bs' & Hsafe & Hlen).
  unfold name_error.
  assert (utf8_encode (py ".json") = Some (py ".json")) as Hsuffix by by_vm.
  rewrite (fs_encode_utf8 _ _ (utf8_encode_app _ _ _ _ Hsafe Hsuffix)).
  rewrite length_app, Hlen.
  assert ((0 ∈ replace 47 (py "_") (replace 58 (py "_") s) ++ py ".json") ↔ 0 ∈ s) as Hnul.
  { rewrite replace_colon_slash, elem_of_app, list_elem_of_fmap. split.
    - intros [(c & Hc & Hin)|Hin].
      + destruct ((c =? 58) || (c =? 47)) eqn:Hsep; [done|]. by subst.
      + apply list_elem_of_In in Hin. vm_compute in Hin. intuition lia.
    - intros Hin. left. exists 0. done. }
  destruct (decide (0 ∈ s)) as [Hin|Hin].
  - rewrite !bool_decide_eq_true_2; [done|done|by apply Hnul].
  - rewrite !bool_decide_eq_false_2; [done|done|]. by rewrite Hnul.
Qed.

End plan_runs.

Section plan_properties.
Context {env : Env}.
Import ExtractData.




(** X7. What a turn of the loop over the plans does, for every entry.  An
    entry that leads to no request leaves everything as it is and raises in
    three cases: it is no object (AttributeError), its plan_key is truthy
    but no string (TypeError), or it is a string with a code point UTF-8
    refuses (UnicodeEncodeError).  An entry that leads to a request raises
    only when the document that comes back is truthy and cannot be saved:
    the key has a NUL (ValueError), its bytes and the suffix .json are
    longer than a file name may be (OSError), both before anything is
    written, or the document has a string that cannot be encoded
    (UnicodeEncodeError), with what was written left in the artifact.  The
    loop ends with what the first entry that raises raises. *)
Theorem plan_entry_errors (merchant_id : Z) (plan : json) (plans : list json) (w : world) :
  (∃ out,
     extract_plan merchant_id plan w =
       outcome (plan_raises merchant_id plan) ()
         (World (plan_files_after merchant_id (files w) plan) (stdout w ++ out)
                (invoked w ++ plan_urls merchant_id plan)))
  ∧ match plan_request plan with
    | None =>
        extract_plan merchant_id plan w = outcome (plan_raises merchant_id plan) () w
        ∧ plan_raises merchant_id plan =
            match plan with
            | JDict kv =>
                let plan_key := dict_get (py "plan_key") kv in
                if truthy plan_key then
                  match plan_key with
                  | JStr _ => Some UnicodeEncodeError
                  | _ => Some TypeError
                  end
                else None
            | _ => Some AttributeError
            end
    | Some (s, bs) =>
        let d := fetched (plan_url merchant_id bs) in
        plan_urls merchant_id plan = [plan_url merchant_id bs]
        ∧ plan_raises merchant_id plan =
            (if truthy d then
               if bool_decide (0 ∈ s) then Some ValueError
               else if (NAME_MAX <? length bs + 5)%nat then Some OSError
               else if encodable d then None else Some UnicodeEncodeError
             else None)
        ∧ plan_files_after merchant_id (files w) plan =
            (if truthy d && negb (bool_decide (0 ∈ s))
                && negb (NAME_MAX <? length bs + 5)%nat
             then <[plan_file s := artifact d]> (files w)
             else files w)
    end
  ∧ (∃ out,
       for_each plans (extract_plan merchant_id) w =
         outcome (first_stop (plan_raises merchant_id) plans) ()
           (World (foldl (plan_files_after merchant_id) (files w)
                     (reached (plan_raises merchant_id) plans))
                  (stdout w ++ out)
                  (invoked w ++ concat (plan_urls merchant_id
                                          <$> reached (plan_raises merchant_id) plans)))).
Proof.
  split; [apply extract_plan_run|]. split; [|apply extract_plans_run].
  destruct (extract_plan_run merchant_id plan w) as [out Hrun].
  destruct (plan_request plan) as [[s bs]|] eqn:Hreq.
  - assert (∃ kv, plan = JDict kv ∧ dict_get (py "plan_key") kv = JStr s
                  ∧ truthy (JStr s) = true ∧ utf8_encode s = Some bs)
      as (kv & -> & Hk & Ht & Hbs).
    { unfold plan_request in Hreq. destruct plan as [| | | | | |kv]; try done.
      exists kv. destruct (dict_get (py "plan_key") kv) as [| | | |s'| |]; try done.
      destruct (truthy (JStr s')) eqn:Ht; [|done].
      destruct (utf8_encode s') as [bs'|] eqn:Hbs; [|done].
      simpl in Hreq. by injection Hreq as -> ->. }
    cbv zeta. unfold plan_urls, plan_files_after, plan_raises. rewrite Hreq, Hk, Ht, Hbs.
    unfold save_if_error, saved_if, save_error, saved.
    rewrite (plan_file_error s bs Hbs).
    split; [done|].
    destruct (truthy (fetched (plan_url merchant_id bs))); [|done].
    destruct (bool_decide (0 ∈ s)); [done|].
    by destruct (NAME_MAX <? length bs + 5)%nat.
  - assert (plan_urls merchant_id plan = []) as Hurls.
    { unfold plan_urls. by rewrite Hreq. }
    assert (plan_files_after merchant_id (files w) plan = files w) as Hfiles.
    { unfold plan_files_after. by rewrite Hreq. }
    assert (plan_raises merchant_id plan =
            match plan with
            | JDict kv =>
                let plan_key := dict_get (py "plan_key") kv in
                if truthy plan_key then
                  match plan_key with
                  | JStr _ => Some UnicodeEncodeError
                  | _ => Some TypeError
                  end
                else None
            | _ => Some AttributeError
            end) as Hraises.
    { unfold plan_raises, plan_request in *. destruct plan as [| | | | | |kv]; try done.
      cbv zeta. destruct (dict_get (py "plan_key") kv) as [| | | |s'| |]; try done.
      destruct (truthy (JStr s')); [|done].
      by destruct (utf8_encode s'). }
    split; [|exact Hraises].
    unfold extract_plan in *. clear Hrun.
    destruct plan as [| | | | | |kv];
      try (unfold py_get, raise, mbind, M_bind; by rewrite Hraises).
    unfold py_get. erewrite bind_Done by reflexivity. rewrite Hraises. cbv zeta.
    unfold plan_request in Hreq.
    destruct (dict_get (py "plan_key") kv) as [|b|z|f|s'|l|kv'];
      try (destruct (truthy _); [unfold quote, raise, mbind, M_bind|unfold mret, M_ret];
           done).
    destruct (truthy (JStr s')); [|done].
    unfold quote. destruct (utf8_encode s'); [done|].
    unfold raise, mbind, M_bind. done.
Qed.

End plan_properties.


(** *** The listed transactions *)

Section static_transactions_runs.
Context {env : Env}.
Import ExtractData.

Lemma extract_transaction_fold_run l : ∀ k w,
  ∃ out, for_each (zip (seq k (length l)) l) extract_transaction w =
    outcome (first_stop static_stops l) ()
      (World (foldl static_files_after (files w) (reached static_stops l)) (stdout w ++ out)
             (invoked w ++ concat (static_urls_of <$> reached static_stops l))).
Proof.
  induction l as [|tx l IH]; intros k w; simpl.
  - exists []. unfold mret, M_ret. by rewrite world_eta.
  - destruct (extract_transaction_run k tx w) as [out1 H1].
    erewrite bind_outcome by exact H1.
    destruct (static_stops tx) as [e|]; simpl.
    + exists out1. by rewrite app_nil_r.
    + edestruct IH as [out2 H2]. rewrite H2. wsimpl.
      exists (out1 ++ out2). by rewrite <-!app_assoc.
Qed.

Lemma extract_transactions_run w :
  ∃ out, extract_transactions w =
    outcome (first_stop static_stops TRANSACTION_IDS) ()
      (World (foldl static_files_after (files w) (reached static_stops TRANSACTION_IDS))
             (stdout w ++ out)
             (invoked w ++ concat (static_urls_of <$> reached static_stops TRANSACTION_IDS))).
Proof.
  unfold extract_transactions, print, print_end, enumerate1.
  erewrite bind_Done by reflexivity.
  match goal with |- context [for_each _ _ ?w1] =>
    destruct (extract_transaction_fold_run TRANSACTION_IDS 1 w1) as [out H1] end.
  rewrite H1. wsimpl. eexists. f_equal. f_equal. rewrite <-app_assoc. reflexivity.
Qed.

(** The names of the artifacts of the listed identifiers open without an
    error. *)
Lemma listed_names :
  Forall (λ tx_id, name_error (tx_id ++ py ".json") = None) TRANSACTION_IDS.
Proof.
  assert (forallb (λ tx_id, match name_error (tx_id ++ py ".json") with
                            | None => true
                            | Some _ => false
                            end) TRANSACTION_IDS = true) as Hall by by_vm.
  apply Forall_forall. intros tx_id Hin%list_elem_of_In.
  rewrite forallb_forall in Hall. apply Hall in Hin.
  by destruct (name_error (tx_id ++ py ".json")).
Qed.

Lemma listed_nonempty : Forall (λ tx_id, tx_id ≠ []) TRANSACTION_IDS.
Proof.
  assert (forallb (λ x, negb (bool_decide (x = []))) TRANSACTION_IDS = true) as Hall by by_vm.
  apply Forall_forall. intros tx_id Hin%list_elem_of_In.
  rewrite forallb_forall in Hall. apply Hall in Hin.
  by apply negb_true_iff, bool_decide_eq_false in Hin.
Qed.

End static_transactions_runs.

Section artifacts.
Context {env : Env}.

Lemma saved_lookup fs d p : open_error p = None → saved fs d p !! p = Some (artifact d).
Proof. intros Hp. unfold saved. by rewrite Hp, lookup_insert_eq. Qed.

Lemma save_if_error_None d p :
  save_if_error d p = None → truthy d = true →
  open_error p = None ∧ encodable d = true ∧ artifact d = Content (json_dumps d).
Proof.
  unfold save_if_error, save_error, artifact. intros Hs Ht. rewrite Ht in Hs.
  destruct (open_error p); [done|]. by destruct (encodable d).
Qed.

(** One turn of the static loop keeps the artifacts of the other
    identifiers, and rewrites its own with the same documents. *)
Lemma static_files_after_tx fs tx_id x :
  name_error (x ++ py ".json") = None →
  truthy (fetched (tx_url x)) = true →
  x = tx_id ∨ fs !! tx_file x = Some (artifact (fetched (tx_url x))) →
  static_files_after fs tx_id !! tx_file x = Some (artifact (fetched (tx_url x))).
Proof.
  intros Hn Hx Hor. unfold static_files_after.
  assert (saved_if fs (fetched (tx_url tx_id)) (tx_file tx_id) !! tx_file x
          = Some (artifact (fetched (tx_url x)))) as H1.
  { destruct (decide (x = tx_id)) as [->|Hne].
    - unfold saved_if. rewrite Hx. apply saved_lookup. by rewrite open_error_tx_file.
    - destruct Hor as [?|Hin]; [done|].
      rewrite saved_if_lookup_ne; [done|]. by intros ?%tx_file_inj. }
  destruct (save_if_error _ _); [done|].
  rewrite saved_if_lookup_ne; [done|]. intros ?. by eapply tx_file_not_why.
Qed.

Lemma static_files_after_why fs tx_id x :
  name_error (x ++ py ".json") = None →
  truthy (fetched (why_url x)) = true →
  (x = tx_id ∧ save_if_error (fetched (tx_url x)) (tx_file x) = None)
  ∨ fs !! why_file x = Some (artifact (fetched (why_url x))) →
  static_files_after fs tx_id !! why_file x = Some (artifact (fetched (why_url x))).
Proof.
  intros Hn Hx Hor. unfold static_files_after.
  destruct (decide (x = tx_id)) as [->|Hne].
  - destruct Hor as [[_ ->]|Hin].
    + unfold saved_if at 1. rewrite Hx. apply saved_lookup. by rewrite open_error_why_file.
    + destruct (save_if_error _ _).
      * rewrite saved_if_lookup_ne; [done|]. apply tx_file_not_why.
      * unfold saved_if at 1. rewrite Hx. apply saved_lookup.
        by rewrite open_error_why_file.
  - destruct Hor as [[? _]|Hin]; [done|].
    assert (saved_if fs (fetched (tx_url tx_id)) (tx_file tx_id) !! why_file x
            = Some (artifact (fetched (why_url x)))) as H1.
    { rewrite saved_if_lookup_ne; [done|]. apply tx_file_not_why. }
    destruct (save_if_error _ _); [done|].
    rewrite saved_if_lookup_ne; [done|]. by intros ?%why_file_inj.
Qed.

Lemma static_fold_tx l : ∀ fs x,
  name_error (x ++ py ".json") = None →
  truthy (fetched (tx_url x)) = true →
  x ∈ l ∨ fs !! tx_file x = Some (artifact (fetched (tx_url x))) →
  foldl static_files_after fs l !! tx_file x = Some (artifact (fetched (tx_url x))).
Proof.
  induction l as [|tx l IH]; intros fs x Hn Hx Hor; simpl.
  - destruct Hor as [?%elem_of_nil|?]; done.
  - apply IH; [done..|].
    destruct Hor as [[->|?]%elem_of_cons|?]; [right|by left|right];
      apply static_files_after_tx; auto.
Qed.

Lemma static_fold_why l : ∀ fs x,
  name_error (x ++ py ".json") = None →
  truthy (fetched (why_url x)) = true →
  save_if_error (fetched (tx_url x)) (tx_file x) = None →
  x ∈ l ∨ fs !! why_file x = Some (artifact (fetched (why_url x))) →
  foldl static_files_after fs l !! why_file x = Some (artifact (fetched (why_url x))).
Proof.
  induction l as [|tx l IH]; intros fs x Hn Hx Hs Hor; simpl.
  - destruct Hor as [?%elem_of_nil|?]; done.
  - apply IH; [done..|].
    destruct Hor as [[->|?]%elem_of_cons|?]; [right|by left|right];
      apply static_files_after_why; auto.
Qed.

(** X9. The static loop over the listed transactions takes the listed
    identifiers in order and, for each, requests the detail url and then the
    why url, also when the detail fetch failed; every truthy document is
    saved to its artifact.  The names of the artifacts are never refused,
    so the loop raises only when a truthy document cannot be encoded: it
    ends there, with what was written in the artifact, and without the why
    request when it was the detail document.  When no document is like
    that it makes 94 requests and every truthy document is in its
    artifact. *)
Theorem static_transactions_run (w : world) :
  let ids := ExtractData.TRANSACTION_IDS in
  let w' := final (ExtractData.extract_transactions w) in
  ExtractData.extract_transactions w = outcome (first_stop static_stops ids) () w'
  ∧ invoked w' = invoked w ++ concat (static_urls_of <$> reached static_stops ids)
  ∧ (∀ tx_id, tx_id ∈ ids →
       let data := fetched (tx_url tx_id) in
       let why := fetched (why_url tx_id) in
       static_stops tx_id
       = (if truthy data && negb (encodable data) then Some UnicodeEncodeError
          else if truthy why && negb (encodable why) then Some UnicodeEncodeError
          else None)
       ∧ static_urls_of tx_id
         = (if truthy data && negb (encodable data) then [tx_url tx_id]
            else [tx_url tx_id; why_url tx_id]))
  ∧ (∀ tx_id, tx_id ∈ reached static_stops ids →
       let data := fetched (tx_url tx_id) in
       let why := fetched (why_url tx_id) in
       (truthy data = true → files w' !! tx_file tx_id = Some (artifact data))
       ∧ (truthy why = true → (truthy data = true → encodable data = true) →
            files w' !! why_file tx_id = Some (artifact why)))
  ∧ (first_stop static_stops ids = None →
       ExtractData.extract_transactions w = Done () w'
       ∧ length (invoked w') = (length (invoked w) + 94)%nat
       ∧ ∀ tx_id, tx_id ∈ ids →
           let data := fetched (tx_url tx_id) in
           let why := fetched (why_url tx_id) in
           (truthy data = true → files w' !! tx_file tx_id = Some (Content (json_dumps data)))
           ∧ (truthy why = true →
                files w' !! why_file tx_id = Some (Content (json_dumps why)))).
Proof.
  intros ids w'.
  destruct (extract_transactions_run w) as [out Hrun]. fold ids in Hrun.
  assert (w' = World (foldl static_files_after (files w) (reached static_stops ids))
                 (stdout w ++ out)
                 (invoked w ++ concat (static_urls_of <$> reached static_stops ids))) as Hw'.
  { unfold w'. rewrite Hrun. by destruct (first_stop static_stops ids). }
  assert (∀ tx_id d, tx_id ∈ ids →
            save_if_error d (tx_file tx_id)
            = (if truthy d && negb (encodable d) then Some UnicodeEncodeError else None)
            ∧ save_if_error d (why_file tx_id)
              = (if truthy d && negb (encodable d) then Some UnicodeEncodeError else None))
    as Hsave.
  { intros tx_id d Hin. pose proof (proj1 (Forall_forall _ _) listed_names _ Hin) as Hn.
    unfold save_if_error, save_error.
    rewrite open_error_tx_file, open_error_why_file, Hn.
    destruct (truthy d); [|done]. by destruct (encodable d). }
  assert (∀ tx_id, tx_id ∈ reached static_stops ids →
       (truthy (fetched (tx_url tx_id)) = true →
          files w' !! tx_file tx_id = Some (artifact (fetched (tx_url tx_id))))
       ∧ (truthy (fetched (why_url tx_id)) = true →
          (truthy (fetched (tx_url tx_id)) = true → encodable (fetched (tx_url tx_id)) = true) →
            files w' !! why_file tx_id = Some (artifact (fetched (why_url tx_id))))) as Hfiles.
  { intros tx_id Hin. pose proof (elem_of_reached _ _ _ Hin) as Hin0.
    pose proof (proj1 (Forall_forall _ _) listed_names _ Hin0) as Hn.
    rewrite Hw'. wsimpl. split.
    - intros Ht. apply static_fold_tx; auto.
    - intros Ht Henc. apply static_fold_why; auto.
      rewrite (proj1 (Hsave tx_id _ Hin0)).
      destruct (truthy (fetched (tx_url tx_id))); [|done]. by rewrite Henc. }
  split_and!.
  - by rewrite Hrun, Hw'.
  - by rewrite Hw'.
  - intros tx_id Hin data why. subst data why. unfold static_stops, static_urls_of.
    rewrite (proj1 (Hsave tx_id _ Hin)), (proj2 (Hsave tx_id _ Hin)).
    by destruct (truthy (fetched (tx_url tx_id)) && negb (encodable (fetched (tx_url tx_id)))).
  - exact Hfiles.
  - intros Hnone. split_and!.
    + by rewrite Hrun, Hw', Hnone.
    + rewrite Hw'. wsimpl. rewrite (reached_all _ _ Hnone), length_app. f_equal.
      assert (∀ l, first_stop static_stops l = None →
                length (concat (static_urls_of <$> l)) = (2 * length l)%nat) as Hlen.
      { induction l as [|x l IH]; [done|]. cbn [first_stop]. unfold static_stops at 1.
        rewrite fmap_cons, concat_cons, length_app. unfold static_urls_of at 1.
        destruct (save_if_error (fetched (tx_url x)) (tx_file x)); [done|].
        cbn [or_else]. destruct (save_if_error _ _); [done|].
        intros Hl. rewrite (IH Hl). simpl. lia. }
      by rewrite (Hlen ids Hnone).
    + intros tx_id Hin data why. subst data why.
      set (data := fetched (tx_url tx_id)). set (why := fetched (why_url tx_id)).
      assert (tx_id ∈ reached static_stops ids) as Hr by by rewrite (reached_all _ _ Hnone).
      assert (static_stops tx_id = None) as Hstop.
      { clear -Hin Hnone. induction ids as [|x l IH]; [by apply elem_of_nil in Hin|].
        cbn [first_stop] in Hnone. destruct (static_stops x) eqn:Hx; [done|].
        apply elem_of_cons in Hin as [->|Hin]; [done|]. by apply IH. }
      unfold static_stops in Hstop.
      rewrite (proj1 (Hsave tx_id _ Hin)), (proj2 (Hsave tx_id _ Hin)) in Hstop.
      fold data why in Hstop.
      destruct (Hfiles tx_id Hr) as [Htx Hwhy]. fold data why in Htx, Hwhy.
      unfold artifact in Htx, Hwhy. split.
      * intros Ht. rewrite (Htx Ht). rewrite Ht in Hstop.
        by destruct (encodable data).
      * intros Ht. rewrite Hwhy; [| done |].
        -- destruct (truthy data && negb (encodable data)); [done|].
           rewrite Ht in Hstop. by destruct (encodable why).
        -- intros Hd. rewrite Hd in Hstop. by destruct (encodable data).
Qed.

(** X10. The two scripts agree on where a transaction lives: for every
    listed identifier that the static loop gets to and whose detail document
    is truthy, the detail artifact is there afterwards (whole, or as far as
    the dump got), so the discovery script counts the identifier as already
    extracted and leaves it out of its work list. *)
Theorem static_artifacts_count_as_extracted (w : world) :
  let w' := final (ExtractData.extract_transactions w) in
  ∀ tx_id,
    tx_id ∈ reached static_stops ExtractData.TRANSACTION_IDS →
    primary_ok tx_id = true →
    is_Some (files w' !! tx_file tx_id)
    ∧ tx_id ∈ existing (files w') ∧ tx_id ∉ work_list (files w').
Proof.
  intros w' tx_id Hin Hok.
  destruct (static_transactions_run w) as (_ & _ & _ & Hfiles & _).
  destruct (Hfiles tx_id Hin) as [Htx _]. specialize (Htx Hok). fold w' in Htx.
  assert (tx_id ∈ existing (files w')) as Hex.
  { apply artifact_existing; [|by rewrite Htx].
    apply (proj1 (Forall_forall _ _) listed_nonempty). by eapply elem_of_reached. }
  split_and!; [by rewrite Htx|done|]. rewrite elem_of_work_list. tauto.
Qed.

End artifacts.

Lemma static_artifacts_count_as_extracted_witness :
  let w' := final (ExtractData.extract_transactions (H := Sample.garbled) (Sample.start ∅)) in
  Sample.id1 ∈ existing (H := Sample.garbled) (files w')
  ∧ length (invoked w') = 1%nat.
Proof.
  intros w'.
  destruct (static_artifacts_count_as_extracted (env := Sample.garbled) (Sample.start ∅)
              Sample.id1) as (_ & Hex & _).
  - apply (bool_decide_eq_true_1 _). by_vm.
  - by_vm.
  - split; [exact Hex|]. by_vm.
Defined.

(** *** When the static extraction stops early *)

Section static_outcome.
Context {env : Env}.
Import ExtractData.












End static_outcome.

Section static_crash.
Context {env : Env}.
Import ExtractData.




End static_crash.

(** *** The worker loop of the discovery script *)

Section worker.
Context {env : Env}.
Import ExtractAllTransactions.

Lemma counts_after_fold l : ∀ s f,
  foldl counts_after (s, f) l
  = ((s + length (filter (λ x, primary_ok x = true) l))%nat,
     (f + length (filter (λ x, primary_ok x = false) l))%nat).
Proof.
  induction l as [|x l IH]; intros s f; simpl; [by rewrite !Nat.add_0_r|].
  unfold counts_after at 2. rewrite !filter_cons.
  destruct (primary_ok x) eqn:Hx; simpl; rewrite IH; simpl; f_equal; lia.
Qed.

Lemma length_filter_split {A} (P : A → bool) (l : list A) :
  (length (filter (λ x, P x = true) l) + length (filter (λ x, P x = false) l))%nat
  = length l.
Proof.
  induction l as [|x l IH]; simpl; [done|]. rewrite !filter_cons.
  destruct (P x) eqn:Hx; simpl; lia.
Qed.

(** What stops the worker at an identifier of a work list: its name is
    never refused, so it is a document that cannot be encoded. *)
Lemma stops_plain x :
  name_error (x ++ py ".json") = None →
  stops x =
    let data := fetched (tx_url x) in
    let why := fetched (why_url x) in
    if truthy data then
      if encodable data then
        if truthy why && negb (encodable why) then Some UnicodeEncodeError else None
      else Some UnicodeEncodeError
    else None.
Proof.
  intros Hn. unfold stops, save_if_error, save_error.
  rewrite open_error_tx_file, open_error_why_file, Hn. cbv zeta.
  destruct (truthy (fetched (tx_url x))); [|done].
  destruct (encodable (fetched (tx_url x))); [|done]. cbn [or_else].
  destruct (truthy (fetched (why_url x))); [|done].
  by destruct (encodable (fetched (why_url x))).
Qed.

Lemma urls_of_plain x :
  name_error (x ++ py ".json") = None →
  urls_of x = if primary_ok x && encodable (fetched (tx_url x))
              then [tx_url x; why_url x] else [tx_url x].
Proof.
  intros Hn. unfold urls_of, primary_ok, save_error. rewrite open_error_tx_file, Hn.
  cbv zeta. destruct (truthy (fetched (tx_url x))); [|done].
  by destruct (encodable (fetched (tx_url x))).
Qed.

Lemma length_urls l :
  Forall (λ x, name_error (x ++ py ".json") = None) l →
  first_stop stops l = None →
  length (concat (urls_of <$> l))
  = (2 * length (filter (λ x, primary_ok x = true) l)
     + length (filter (λ x, primary_ok x = false) l))%nat.
Proof.
  induction l as [|x l IH]; [done|]. intros [Hn Hl]%Forall_cons Hnone.
  cbn [first_stop] in Hnone.
  destruct (stops x) eqn:Hx; [done|]. cbn [or_else] in Hnone.
  rewrite fmap_cons, concat_cons, length_app, IH, !filter_cons by done.
  rewrite (urls_of_plain _ Hn). rewrite (stops_plain _ Hn) in Hx. cbv zeta in Hx.
  unfold primary_ok in *.
  destruct (truthy (fetched (tx_url x))); simpl; [|lia].
  destruct (encodable (fetched (tx_url x))); [|done]. simpl. lia.
Qed.

(** X12. The worker loop takes the identifiers of the work set in order.
    When no document it has to save is one that cannot be encoded, it
    counts every identifier once: success plus failed is the size of the
    set, success is the number of identifiers whose detail document is
    truthy, and it makes two requests for each success and one for each
    failure.  Otherwise it raises UnicodeEncodeError at the first such
    document, and no count is returned. *)
Theorem worker_counts (w v : world) :
  let missing := discovered (files w) ∖ existing (files w) in
  let order := work_list (files w) in
  (∀ tx_id, tx_id ∈ order →
     let data := fetched (tx_url tx_id) in
     let why := fetched (why_url tx_id) in
     stops tx_id =
       if truthy data then
         if encodable data then
           if truthy why && negb (encodable why) then Some UnicodeEncodeError else None
         else Some UnicodeEncodeError
       else None)
  ∧ match first_stop stops order with
    | Some e => e = UnicodeEncodeError ∧ ∃ v', extract_missing missing v = Raise e v'
    | None =>
        ∃ success failed v',
          extract_missing missing v = Done (success, failed) v'
          ∧ (success + failed)%nat = size missing
          ∧ success = length (filter (λ x, primary_ok x = true) (elements missing))
          ∧ failed = length (filter (λ x, primary_ok x = false) (elements missing))
          ∧ length (invoked v') = (length (invoked v) + 2 * success + failed)%nat
    end.
Proof.
  intros missing order.
  assert (∀ tx_id, tx_id ∈ order → name_error (tx_id ++ py ".json") = None) as Hnames.
  { intros tx_id Hin. by apply (proj1 (Forall_forall _ _) (work_list_names (files w))). }
  split.
  { intros tx_id Hin data why. by apply stops_plain, Hnames. }
  unfold extract_missing, enumerate1.
  change (sorted (elements missing)) with order.
  destruct (extract_fold_run (size missing) order 1 (O, O) v) as [out Hrun].
  rewrite counts_after_fold in Hrun.
  destruct (first_stop stops order) as [e|] eqn:Hstop; cbn [outcome] in Hrun.
  - split; [|by eexists].
    clear Hrun. induction order as [|x l IH]; [done|]. cbn [first_stop] in Hstop.
    destruct (stops x) as [e'|] eqn:Hx; cbn [or_else] in Hstop.
    + injection Hstop as <-. rewrite stops_plain in Hx by (apply Hnames; by left).
      cbv zeta in Hx. repeat case_match; congruence.
    + apply IH; [|done]. intros y Hy. apply Hnames. by right.
  - rewrite (reached_all _ _ Hstop) in Hrun.
    do 3 eexists. split; [exact Hrun|]. wsimpl.
    rewrite length_app, length_urls by (done || apply work_list_names).
    assert (∀ b, length (filter (λ x, primary_ok x = b) order)
                 = length (filter (λ x, primary_ok x = b) (elements missing))) as Hperm.
    { intros b. apply Permutation_length. unfold order, work_list. by rewrite sorted_perm. }
    rewrite !Hperm.
    pose proof (length_filter_split primary_ok (elements missing)) as Hsplit.
    change (size missing) with (length (elements missing)).
    split_and!; lia.
Qed.

End worker.

Section worker_files.
Context {env : Env}.
Import ExtractAllTransactions.

Lemma files_after_tx fs tx_id x :
  name_error (x ++ py ".json") = None →
  primary_ok x = true →
  x = tx_id ∨ fs !! tx_file x = Some (artifact (fetched (tx_url x))) →
  files_after fs tx_id !! tx_file x = Some (artifact (fetched (tx_url x))).
Proof.
  intros Hn Hx Hor. unfold files_after. cbv zeta.
  destruct (decide (x = tx_id)) as [->|Hne].
  - unfold primary_ok in Hx. rewrite Hx.
    assert (saved fs (fetched (tx_url tx_id)) (tx_file tx_id) !! tx_file tx_id
            = Some (artifact (fetched (tx_url tx_id)))) as H1.
    { apply saved_lookup. by rewrite open_error_tx_file. }
    destruct (save_error _ _); [done|].
    rewrite saved_if_lookup_ne; [done|]. intros ?. by eapply tx_file_not_why.
  - destruct Hor as [?|Hin]; [done|].
    destruct (truthy (fetched (tx_url tx_id))); [|done].
    assert (saved fs (fetched (tx_url tx_id)) (tx_file tx_id) !! tx_file x
            = Some (artifact (fetched (tx_url x)))) as H1.
    { rewrite saved_lookup_ne; [done|]. by intros ?%tx_file_inj. }
    destruct (save_error _ _); [done|].
    rewrite saved_if_lookup_ne; [done|]. intros ?. by eapply tx_file_not_why.
Qed.

Lemma files_after_why_content fs tx_id x :
  name_error (x ++ py ".json") = None →
  primary_ok x = true → encodable (fetched (tx_url x)) = true →
  truthy (fetched (why_url x)) = true →
  x = tx_id ∨ fs !! why_file x = Some (artifact (fetched (why_url x))) →
  files_after fs tx_id !! why_file x = Some (artifact (fetched (why_url x))).
Proof.
  intros Hn Hx Henc Hy Hor. unfold files_after. cbv zeta.
  destruct (decide (x = tx_id)) as [->|Hne].
  - unfold primary_ok in Hx. rewrite Hx. unfold save_error.
    rewrite open_error_tx_file, Hn, Henc. unfold saved_if. rewrite Hy.
    apply saved_lookup. by rewrite open_error_why_file.
  - destruct Hor as [?|Hin]; [done|].
    destruct (truthy (fetched (tx_url tx_id))); [|done].
    assert (saved fs (fetched (tx_url tx_id)) (tx_file tx_id) !! why_file x
            = Some (artifact (fetched (why_url x)))) as H1.
    { rewrite saved_lookup_ne; [done|]. apply tx_file_not_why. }
    destruct (save_error _ _); [done|].
    rewrite saved_if_lookup_ne; [done|]. by intros ?%why_file_inj.
Qed.

Lemma files_after_fold_tx l : ∀ fs x,
  name_error (x ++ py ".json") = None →
  primary_ok x = true →
  x ∈ l ∨ fs !! tx_file x = Some (artifact (fetched (tx_url x))) →
  foldl files_after fs l !! tx_file x = Some (artifact (fetched (tx_url x))).
Proof.
  induction l as [|tx l IH]; intros fs x Hn Hx Hor; simpl.
  - destruct Hor as [?%elem_of_nil|?]; done.
  - apply IH; [done..|].
    destruct Hor as [[->|?]%elem_of_cons|?]; [right|by left|right];
      apply files_after_tx; auto.
Qed.

Lemma files_after_fold_why l : ∀ fs x,
  name_error (x ++ py ".json") = None →
  primary_ok x = true → encodable (fetched (tx_url x)) = true →
  truthy (fetched (why_url x)) = true →
  x ∈ l ∨ fs !! why_file x = Some (artifact (fetched (why_url x))) →
  foldl files_after fs l !! why_file x = Some (artifact (fetched (why_url x))).
Proof.
  induction l as [|tx l IH]; intros fs x Hn Hx Henc Hy Hor; simpl.
  - destruct Hor as [?%elem_of_nil|?]; done.
  - apply IH; [done..|].
    destruct Hor as [[->|?]%elem_of_cons|?]; [right|by left|right];
      apply files_after_why_content; auto.
Qed.

Lemma files_after_change fs tx_id p :
  files_after fs tx_id !! p ≠ fs !! p →
  primary_ok tx_id = true
  ∧ (p = tx_file tx_id
     ∨ (p = why_file tx_id ∧ encodable (fetched (tx_url tx_id)) = true
        ∧ truthy (fetched (why_url tx_id)) = true)).
Proof.
  unfold files_after, primary_ok. cbv zeta.
  destruct (truthy (fetched (tx_url tx_id))); [|done].
  intros Hne. split; [done|].
  destruct (decide (p = tx_file tx_id)) as [|Hp]; [by left|right].
  unfold save_error in Hne.
  destruct (open_error (tx_file tx_id)) eqn:Hopen.
  { by rewrite saved_lookup_ne in Hne. }
  destruct (encodable (fetched (tx_url tx_id))).
  - destruct (decide (p = why_file tx_id)) as [|Hq].
    + split_and!; [done..|]. unfold saved_if in Hne.
      destruct (truthy (fetched (why_url tx_id))); [done|].
      by rewrite saved_lookup_ne in Hne.
    + by rewrite saved_if_lookup_ne, saved_lookup_ne in Hne.
  - by rewrite saved_lookup_ne in Hne.
Qed.

Lemma files_after_fold_change l : ∀ fs p,
  foldl files_after fs l !! p ≠ fs !! p →
  ∃ tx_id, tx_id ∈ l ∧ primary_ok tx_id = true
           ∧ (p = tx_file tx_id
              ∨ (p = why_file tx_id ∧ encodable (fetched (tx_url tx_id)) = true
                 ∧ truthy (fetched (why_url tx_id)) = true)).
Proof.
  induction l as [|tx l IH]; intros fs p Hne; simpl in *; [done|].
  destruct (decide (foldl files_after (files_after fs tx) l !! p = files_after fs tx !! p))
    as [Heq|Hd].
  - rewrite Heq in Hne. apply files_after_change in Hne as [Hok Hp].
    exists tx. split; [by left|done].
  - destruct (IH _ _ Hd) as (x & Hin & Hx). exists x. split; [by right|done].
Qed.

Lemma work_list_no_artifact fs tx_id : tx_id ∈ work_list fs → fs !! tx_file tx_id = None.
Proof.
  intros Hin.
  assert (tx_id ≠ []) as Hne.
  { by apply (proj1 (Forall_forall _ _) (work_list_nonempty fs)). }
  apply elem_of_work_list in Hin as [_ Hex].
  destruct (fs !! tx_file tx_id) eqn:Hf; [|done].
  destruct Hex. apply artifact_existing; [done|]. by rewrite Hf.
Qed.

(** X13. However it ends, a run of the discovery script writes the
    artifacts of the identifiers of its work list that it gets to, and
    nothing else: for each of them whose detail document is truthy the
    detail artifact holds the dump of that document or, when the dump
    stopped at a string it cannot encode, what it had written; when the
    detail document was saved and the why document is truthy, the why
    artifact holds the why document likewise.  Every other file is
    unchanged, and no entry of the transactions directory itself is
    overwritten.  In a run that goes to its end the artifacts hold the
    whole documents. *)
Theorem discovery_run_files (w : world) :
  let w1 := final (main w) in
  let attempted := reached stops (work_list (files w)) in
  (∀ tx_id, tx_id ∈ attempted → primary_ok tx_id = true →
     files w1 !! tx_file tx_id = Some (artifact (fetched (tx_url tx_id)))
     ∧ (encodable (fetched (tx_url tx_id)) = true →
        truthy (fetched (why_url tx_id)) = true →
          files w1 !! why_file tx_id = Some (artifact (fetched (why_url tx_id)))))
  ∧ (∀ p, files w1 !! p ≠ files w !! p →
       ∃ tx_id, tx_id ∈ attempted ∧ primary_ok tx_id = true
                ∧ files w !! tx_file tx_id = None
                ∧ (p = tx_file tx_id
                   ∨ (p = why_file tx_id ∧ encodable (fetched (tx_url tx_id)) = true
                      ∧ truthy (fetched (why_url tx_id)) = true)))
  ∧ (∀ p f, files w !! p = Some f → parent p = TX_DIR → files w1 !! p = Some f)
  ∧ (first_stop stops (work_list (files w)) = None →
       main w = Done () w1
       ∧ ∀ tx_id, tx_id ∈ work_list (files w) → primary_ok tx_id = true →
           files w1 !! tx_file tx_id = Some (Content (json_dumps (fetched (tx_url tx_id))))
           ∧ (truthy (fetched (why_url tx_id)) = true →
                files w1 !! why_file tx_id
                = Some (Content (json_dumps (fetched (why_url tx_id)))))).
Proof.
  intros w1 attempted.
  destruct (main_run w) as [out Hrun]. fold attempted in Hrun.
  assert (files w1 = foldl files_after (files w) attempted) as Hw1.
  { unfold w1. rewrite Hrun. by destruct (first_stop stops (work_list (files w))). }
  assert (∀ tx_id, tx_id ∈ attempted → name_error (tx_id ++ py ".json") = None) as Hnames.
  { intros tx_id Hin%elem_of_reached.
    by apply (proj1 (Forall_forall _ _) (work_list_names (files w))). }
  assert (∀ p, files w1 !! p ≠ files w !! p →
    ∃ tx_id, tx_id ∈ attempted ∧ primary_ok tx_id = true
             ∧ files w !! tx_file tx_id = None
             ∧ (p = tx_file tx_id
                ∨ (p = why_file tx_id ∧ encodable (fetched (tx_url tx_id)) = true
                   ∧ truthy (fetched (why_url tx_id)) = true))) as Hchange.
  { intros p. rewrite Hw1. intros (x & Hin & Hok & Hp)%files_after_fold_change.
    exists x. split_and!; [done..| |done].
    apply work_list_no_artifact. by eapply elem_of_reached. }
  assert (∀ tx_id, tx_id ∈ attempted → primary_ok tx_id = true →
     files w1 !! tx_file tx_id = Some (artifact (fetched (tx_url tx_id)))
     ∧ (encodable (fetched (tx_url tx_id)) = true →
        truthy (fetched (why_url tx_id)) = true →
          files w1 !! why_file tx_id = Some (artifact (fetched (why_url tx_id))))) as Hfiles.
  { intros tx_id Hin Hok. rewrite Hw1. split.
    - apply files_after_fold_tx; auto.
    - intros Henc Hy. apply files_after_fold_why; auto. }
  split_and!; [done|done| |].
  - intros p f Hf Hpar.
    destruct (decide (files w1 !! p = files w !! p)) as [->|Hne]; [done|].
    destruct (Hchange p Hne) as (x & Hin & Hok & Hnone & [->| [-> _]]).
    + congruence.
    + by apply WHY_DIR_parent in Hpar.
  - intros Hnone. split.
    { unfold w1. rewrite Hrun, Hnone. done. }
    intros tx_id Hin Hok.
    assert (tx_id ∈ attempted) as Hr.
    { unfold attempted. by rewrite (reached_all _ _ Hnone). }
    assert (stops tx_id = None) as Hstop.
    { clear -Hin Hnone. induction (work_list (files w)) as [|x l IH];
        [by apply elem_of_nil in Hin|].
      cbn [first_stop] in Hnone. destruct (stops x) eqn:Hx; [done|].
      apply elem_of_cons in Hin as [->|Hin]; [done|]. by apply IH. }
    rewrite (stops_plain _ (Hnames _ Hr)) in Hstop. cbv zeta in Hstop.
    unfold primary_ok in Hok. rewrite Hok in Hstop.
    destruct (encodable (fetched (tx_url tx_id))) eqn:Henc; [|done].
    destruct (Hfiles tx_id Hr Hok) as [Htx Hwhy]. unfold artifact in Htx, Hwhy.
    rewrite Henc in Htx. split; [done|].
    intros Hy. rewrite (Hwhy Henc Hy). rewrite Hy in Hstop.
    by destruct (encodable (fetched (why_url tx_id))).
Qed.

End worker_files.

Section worker_requests.
Context {env : Env}.
Import ExtractAllTransactions.

Lemma NoDup_concat_fmap {A B} (f : A → list B) (l : list A) :
  NoDup l → (∀ x, x ∈ l → NoDup (f x)) →
  (∀ x y u, x ∈ l → y ∈ l → u ∈ f x → u ∈ f y → x = y) →
  NoDup (concat (f <$> l)).
Proof.
  induction l as [|x l IH]; intros Hnd Hf Hdisj; [constructor|].
  rewrite fmap_cons, concat_cons. apply NoDup_cons in Hnd as [Hx Hnd].
  apply NoDup_app. split_and!.
  - apply Hf. by left.
  - intros u Hu (X & (y & -> & Hy)%list_elem_of_fmap & Hin)%elem_of_concat.
    assert (x = y) as -> by (eapply Hdisj; [by left|by right|done..]). done.
  - apply IH; [done| |].
    + intros y Hy. apply Hf. by right.
    + intros y z u Hy Hz. apply Hdisj; by right.
Qed.

Lemma tx_url_inj a b : tx_url a = tx_url b → a = b.
Proof. unfold tx_url. by intros ?%app_inv_head%app_inv_head. Qed.

Lemma why_url_inj a b : why_url a = why_url b → a = b.
Proof. unfold why_url. by intros ?%app_inv_head%app_inv_head%app_inv_tail. Qed.

Lemma tx_url_not_why a b : Forall is_hexdash a → tx_url a ≠ why_url b.
Proof.
  unfold tx_url, why_url. intros Ha ->%app_inv_head%app_inv_head.
  apply Forall_app in Ha as [_ Ha]. by apply Forall_cons in Ha as [? _].
Qed.

Lemma hexdash_always_safe c : is_hexdash c → always_safe c = true.
Proof.
  unfold is_hexdash, always_safe. intros Hc.
  destruct (N.leb_spec 97 c), (N.leb_spec c 102), (N.leb_spec 48 c), (N.leb_spec c 57),
    (N.eqb_spec c 45), (N.leb_spec 65 c), (N.leb_spec c 90), (N.leb_spec c 122),
    (N.eqb_spec c 95), (N.eqb_spec c 46), (N.eqb_spec c 126);
    simpl in *; try done; lia.
Qed.

Lemma work_list_NoDup fs : NoDup (work_list fs).
Proof. unfold work_list. rewrite sorted_perm. apply NoDup_elements. Qed.

Lemma urls_of_NoDup x : Forall is_hexdash x → NoDup (urls_of x).
Proof.
  intros Hx. unfold urls_of. cbv zeta.
  destruct (truthy (fetched (tx_url x))); [|apply NoDup_singleton].
  destruct (save_error _ _); [apply NoDup_singleton|].
  apply NoDup_cons. split; [|apply NoDup_singleton].
  intros ?%list_elem_of_singleton. by eapply tx_url_not_why.
Qed.

Lemma urls_NoDup l :
  NoDup l → Forall (λ x, Forall is_hexdash x) l → NoDup (concat (urls_of <$> l)).
Proof.
  intros Hnd Hhex. apply NoDup_concat_fmap; [done| |].
  - intros x Hx. apply urls_of_NoDup. by apply (proj1 (Forall_forall _ _) Hhex).
  - intros x y u Hx Hy Hux Huy.
    apply elem_of_urls_of in Hux as Hu1. apply elem_of_urls_of in Huy as Hu2.
    pose proof (proj1 (Forall_forall _ _) Hhex x Hx) as Hhx.
    pose proof (proj1 (Forall_forall _ _) Hhex y Hy) as Hhy.
    destruct Hu1 as [->|[-> _]], Hu2 as [Heq|[Heq _]].
    + by apply tx_url_inj.
    + by apply tx_url_not_why in Heq.
    + symmetry in Heq. by apply tx_url_not_why in Heq.
    + by apply why_url_inj.
Qed.

Lemma reached_NoDup {A} (stops : A → option exn) l : NoDup l → NoDup (reached stops l).
Proof. intros Hl. eapply sublist_NoDup; [exact Hl|apply reached_sublist]. Qed.

(** X14. In one run the discovery script requests no url twice, and every
    url it requests is the detail or the why url of an identifier that the
    scan discovered: 36 characters of [a-f0-9-], each of which needs no
    encoding in a url.  This holds however the run ends. *)
Theorem discovery_requests (w : world) :
  let w1 := final (main w) in
  NoDup (drop (length (invoked w)) (invoked w1))
  ∧ ∀ u, u ∈ drop (length (invoked w)) (invoked w1) →
      ∃ tx_id, tx_id ∈ discovered (files w)
               ∧ files w !! tx_file tx_id = None
               ∧ length tx_id = 36%nat
               ∧ Forall (λ c, always_safe c = true) tx_id
               ∧ (u = tx_url tx_id ∨ u = why_url tx_id).
Proof.
  intros w1. destruct (main_run w) as [out Hrun].
  assert (invoked w1
          = invoked w ++ concat (urls_of <$> reached stops (work_list (files w)))) as ->.
  { unfold w1. rewrite Hrun. by destruct (first_stop stops (work_list (files w))). }
  rewrite drop_app_length. split.
  - apply urls_NoDup.
    + apply reached_NoDup, work_list_NoDup.
    + apply Forall_reached, work_list_hexdash.
  - intros u (X & (x & -> & Hx%elem_of_reached)%list_elem_of_fmap & Hu)%elem_of_concat.
    exists x. pose proof (work_list_no_artifact _ _ Hx) as Hnone.
    apply elem_of_work_list in Hx as [Hd _].
    destruct (discovered_shape _ _ Hd) as [Hlen Hhex].
    split_and!; [done..| |].
    + eapply Forall_impl; [exact Hhex|]. apply hexdash_always_safe.
    + apply elem_of_urls_of in Hu as [->|[-> _]]; auto.
Qed.

Lemma json_name_not_why nm : is_json_name nm → nm ≠ py "why".
Proof.
  unfold is_json_name. intros Hj ->. apply Is_true_true, endswith_spec in Hj as [pre Hpre].
  apply (f_equal length) in Hpre. rewrite length_app in Hpre. simpl in Hpre. lia.
Qed.

(** X15. The identifiers counted as already extracted are the stems of all
    entries of the transactions directory that match *.json: the test on the
    name why excludes nothing, since no such entry is named why.  For an
    identifier of 36 characters this means: it is counted exactly when its
    detail artifact exists.  Listing them changes nothing. *)
Theorem existing_is_the_artifacts (w : world) :
  ∃ stems,
    existing_ids w = Done stems w
    ∧ (∀ s, s ∈ stems ↔
         ∃ p, is_Some (files w !! p) ∧ p ≠ [] ∧ parent p = TX_DIR
              ∧ is_json_name (name p) ∧ s = stem p)
    ∧ (∀ p, is_json_name (name p) → name p ≠ py "why")
    ∧ (∀ tx_id, length tx_id = 36%nat →
         tx_id ∈ stems ↔ is_Some (files w !! tx_file tx_id)).
Proof.
  exists (existing (files w)). split; [apply existing_ids_run|]. split_and!.
  - intros s. rewrite elem_of_existing. split.
    + intros (p & ? & ? & ? & ? & _ & ?). by exists p.
    + intros (p & ? & ? & ? & Hj & ?). exists p. split_and!; try done.
      by apply json_name_not_why.
  - intros p. apply json_name_not_why.
  - intros tx_id Hlen. split.
    + intros Hin. apply existing_artifact; [done|]. intros ->. done.
    + apply artifact_existing. intros ->. done.
Qed.

End worker_requests.

(** *** What the two fetch functions print *)

Section fetch_logging.
Context {env : Env}.

(** X16. The fetch functions of the two scripts make the same request and
    return the same document, write no file, never raise and print at most
    one line.  They print the same, except when curl completes with a
    non-zero status or with empty output: there the static script prints an
    ERROR line with curl's error output and the discovery script prints
    nothing.  Neither prints when a document was decoded. *)
Theorem fetch_json_logging (path : text) (w : world) :
  let url := ExtractData.BASE_URL ++ path in
  ∃ out_static out_discovery,
    ExtractData.fetch_json path w
    = Done (fetched url) (World (files w) (stdout w ++ out_static) (invoked w ++ [url]))
    ∧ ExtractAllTransactions.fetch_json path w
      = Done (fetched url) (World (files w) (stdout w ++ out_discovery) (invoked w ++ [url]))
    ∧ (length out_discovery ≤ length out_static ≤ 1)%nat
    ∧ match curl url with
      | RunRaised e =>
          out_static = [(py "  ERROR fetching " ++ url ++ py ": " ++ e) ++ nl]
          ∧ out_discovery = out_static
      | Completed returncode out err =>
          if (returncode =? 0)%Z && bool_decide (out ≠ []) then
            out_discovery = out_static
            ∧ match json_loads out with
              | inr _ => out_static = []
              | inl e => out_static = [(py "  ERROR fetching " ++ url ++ py ": " ++ e) ++ nl]
              end
          else
            out_static = [(py "  ERROR fetching " ++ url ++ py ": " ++ err) ++ nl]
            ∧ out_discovery = []
      end.
Proof.
  intros url.
  unfold ExtractData.fetch_json, ExtractAllTransactions.fetch_json, fetched, run_curl,
    mbind, M_bind, print, print_end, mret, M_ret.
  change ExtractAllTransactions.BASE_URL with ExtractData.BASE_URL. fold url.
  destruct (curl url) as [e|rc out err]; wsimpl.
  { exists [(py "  ERROR fetching " ++ url ++ py ": " ++ e) ++ nl],
      [(py "  ERROR fetching " ++ url ++ py ": " ++ e) ++ nl].
    split_and!; try done; simpl; lia. }
  destruct ((rc =? 0)%Z && bool_decide (out ≠ [])); wsimpl.
  - destruct (json_loads out) as [e|v]; wsimpl.
    + exists [(py "  ERROR fetching " ++ url ++ py ": " ++ e) ++ nl],
        [(py "  ERROR fetching " ++ url ++ py ": " ++ e) ++ nl].
      split_and!; try done; simpl; lia.
    + exists [], []. rewrite !app_nil_r. split_and!; try done; simpl; lia.
  - exists [(py "  ERROR fetching " ++ url ++ py ": " ++ err) ++ nl], [].
    rewrite !app_nil_r. split_and!; try done; simpl; lia.
Qed.

End fetch_logging.

(** *** A checkout below a directory named after transactions *)

Section checkout.
Context {env : Env}.
Import ExtractAllTransactions.

Lemma startswith_app_l p s r : startswith p s = true → startswith p (s ++ r) = true.
Proof.
  intros [q ->]%startswith_spec. rewrite <-app_assoc. apply startswith_app.
Qed.

Lemma contains_app_l needle x y :
  contains needle x = true → contains needle (x ++ y) = true.
Proof.
  induction x as [|c x IH]; simpl.
  - rewrite orb_false_r. intros Hs. apply contains_startswith.
    by apply (startswith_app_l _ []).
  - intros [Hs|Hc]%orb_true_iff; apply orb_true_iff.
    + left. by apply (startswith_app_l _ (c :: x)).
    + right. by apply IH.
Qed.

(** X17. The scan tests the whole path of an entry for the word
    transactions, the directory of the script included: when the script
    lives below a directory with that word in its name, the scan leaves out
    every entry, no identifier is discovered, and a run requests nothing,
    writes nothing and reports that all transactions are already
    extracted. *)
Theorem scan_finds_nothing_in_such_a_checkout (w : world) :
  contains (py "transactions") (str_of_path script_dir) = true →
  discovered (files w) = ∅
  ∧ ∃ w1, main w = Done () w1
          ∧ files w1 = files w ∧ invoked w1 = invoked w
          ∧ last (stdout w1) = Some nothing_to_do.
Proof.
  intros Hdir.
  assert (discovered (files w) = ∅) as Hnone.
  { apply set_eq. intros g. split; [|by intros ?%not_elem_of_empty].
    intros (p & t & _ & [q ->] & _ & _ & Hc & _)%elem_of_discovered.
    unfold DATA_DIR in Hc. rewrite <-app_assoc, str_of_path_app in Hc.
    by rewrite contains_app_l in Hc. }
  split; [done|].
  destruct (main_nothing_to_do w) as [out Hrun].
  { rewrite Hnone. apply set_eq. intros g. rewrite elem_of_difference.
    split; [by intros [?%not_elem_of_empty _]|by intros ?%not_elem_of_empty]. }
  eexists. split; [exact Hrun|]. wsimpl. split_and!; [done..|].
  by rewrite !app_assoc, last_snoc.
Qed.

End checkout.

Lemma scan_finds_nothing_in_such_a_checkout_witness :
  contains (py "transactions") (str_of_path (script_dir (Env := Sample.in_transactions_checkout)))
  = true
  ∧ discovered (H := Sample.in_transactions_checkout)
      {[ [py "srv"; py "transactions-demo"; py "data"; py "merchants.json"]
         := Content (Sample.quoted (py "transaction_id") ++ py ": " ++ Sample.quoted Sample.id1) ]}
    = ∅.
Proof.
  assert (contains (py "transactions")
            (str_of_path (script_dir (Env := Sample.in_transactions_checkout))) = true)
    as Hdir by by_vm.
  split; [exact Hdir|].
  exact (proj1 (scan_finds_nothing_in_such_a_checkout
                  (env := Sample.in_transactions_checkout)
                  (Sample.start {[ [py "srv"; py "transactions-demo"; py "data"; py "merchants.json"]
                     := Content (Sample.quoted (py "transaction_id") ++ py ": "
                                 ++ Sample.quoted Sample.id1) ]}) Hdir)).
Defined.


(** *** The order of the work *)

Section order.
Context {env : Env}.
Import ExtractAllTransactions.

Lemma text_leb_total a : ∀ b, text_leb a b = true ∨ text_leb b a = true.
Proof.
  induction a as [|x a IH]; intros [|y b]; simpl; auto.
  destruct (IH b) as [H|H]; rewrite H;
    destruct (N.ltb_spec x y), (N.ltb_spec y x), (N.eqb_spec x y), (N.eqb_spec y x);
    simpl; auto; lia.
Qed.

Lemma text_leb_trans a : ∀ b c,
  text_leb a b = true → text_leb b c = true → text_leb a c = true.
Proof.
  induction a as [|x a IH]; intros [|y b] [|z c]; simpl; try done.
  intros Hab Hbc.
  destruct (N.ltb_spec x y), (N.ltb_spec y z), (N.ltb_spec x z),
    (N.eqb_spec x y), (N.eqb_spec y z), (N.eqb_spec x z); simpl in *; try done; try lia.
  by eapply IH.
Qed.

Lemma text_leb_antisym a : ∀ b, text_leb a b = true → text_leb b a = true → a = b.
Proof.
  induction a as [|x a IH]; intros [|y b]; simpl; try done.
  intros Hab Hba.
  destruct (N.ltb_spec x y), (N.ltb_spec y x), (N.eqb_spec x y), (N.eqb_spec y x);
    simpl in *; try done; try lia.
  subst. f_equal. by apply IH.
Qed.

Lemma insert_sorted_sorted x l :
  StronglySorted (λ a b, text_leb a b = true) l →
  StronglySorted (λ a b, text_leb a b = true) (insert_sorted x l).
Proof.
  induction 1 as [|y l Hl IH Hy]; simpl; [by repeat constructor|].
  destruct (text_leb x y) eqn:Hxy.
  - constructor; [by constructor|]. constructor; [done|].
    eapply Forall_impl; [exact Hy|]. simpl. intros z Hz. by eapply text_leb_trans.
  - constructor; [done|]. rewrite insert_sorted_perm. constructor; [|done].
    destruct (text_leb_total x y); congruence.
Qed.

Lemma sorted_sorted l : StronglySorted (λ a b, text_leb a b = true) (sorted l).
Proof.
  unfold sorted. induction l as [|x l IH]; simpl; [constructor|].
  by apply insert_sorted_sorted.
Qed.

Lemma reached_prefix {A} (stops : A → option exn) l : reached stops l `prefix_of` l.
Proof.
  induction l as [|x l IH]; simpl; [done|].
  destruct (stops x); [by exists l|]. by apply prefix_cons.
Qed.

Lemma elem_of_urls_of_tx x : tx_url x ∈ urls_of x.
Proof.
  unfold urls_of. cbv zeta. destruct (truthy (fetched (tx_url x))); [|by left].
  destruct (save_error _ _); by left.
Qed.

(** X18. The identifiers are worked on in ascending order of their code
    points, each one once, and this order does not depend on the order in
    which the work set is enumerated: sorting any enumeration of the set
    gives the same list.  The requests of a run follow that list as far as
    the run gets, which is to its end when no save raises: the detail url
    of every identifier it gets to is requested. *)
Theorem work_order (w : world) :
  let order := work_list (files w) in
  let w1 := final (main w) in
  StronglySorted (λ a b, text_leb a b = true) order
  ∧ NoDup order
  ∧ (∀ tx_id, tx_id ∈ order ↔ tx_id ∈ discovered (files w) ∖ existing (files w))
  ∧ (∀ l, l ≡ₚ elements (discovered (files w) ∖ existing (files w)) → sorted l = order)
  ∧ reached stops order `prefix_of` order
  ∧ drop (length (invoked w)) (invoked w1) = concat (urls_of <$> reached stops order)
  ∧ (∀ tx_id, tx_id ∈ reached stops order →
       tx_url tx_id ∈ drop (length (invoked w)) (invoked w1))
  ∧ (first_stop stops order = None →
       main w = Done () w1 ∧ reached stops order = order).
Proof.
  intros order w1.
  destruct (main_run w) as [out Hrun]. fold order in Hrun.
  assert (invoked w1 = invoked w ++ concat (urls_of <$> reached stops order)) as Hw1.
  { unfold w1. rewrite Hrun. by destruct (first_stop stops order). }
  split_and!.
  - apply sorted_sorted.
  - apply work_list_NoDup.
  - intros tx_id. unfold order. by rewrite elem_of_work_list, elem_of_difference.
  - intros l Hl. unfold order, work_list.
    apply (StronglySorted_unique_strong (λ a b, text_leb a b = true)).
    + intros a b _ _. apply text_leb_antisym.
    + apply sorted_sorted.
    + apply sorted_sorted.
    + by rewrite !sorted_perm.
  - apply reached_prefix.
  - by rewrite Hw1, drop_app_length.
  - intros tx_id Hin. rewrite Hw1, drop_app_length.
    apply elem_of_concat. exists (urls_of tx_id).
    split; [apply list_elem_of_fmap; by exists tx_id|]. apply elem_of_urls_of_tx.
  - intros Hnone. split; [|by apply reached_all].
    unfold w1. rewrite Hrun, Hnone. done.
Qed.

End order.

(** *** A merchant without plans *)

Section merchant_run.
Context {env : Env}.
Import ExtractData.

(** X19. A merchant whose plans document is falsy (the fetch failed, or the
    list is empty) and whose turn does not raise costs exactly four
    requests, in this order: detail, monthly, plans, stability.  The failed
    plans fetch does not stop the stability fetch, and each of the three
    other documents is saved when it is truthy. *)
Theorem merchant_without_plans (merchant_id : Z) (w : world) :
  truthy (fetched (plans_url merchant_id)) = false →
  merchant_raises merchant_id = None →
  let detail := fetched (merchant_url merchant_id []) in
  let monthly := fetched (merchant_url merchant_id (py "/monthly")) in
  let stability := fetched (merchant_url merchant_id (py "/stability")) in
  ∃ w',
    extract_merchant merchant_id w = Done () w'
    ∧ invoked w' = invoked w ++ [merchant_url merchant_id [];
                                 merchant_url merchant_id (py "/monthly");
                                 plans_url merchant_id;
                                 merchant_url merchant_id (py "/stability")]
    ∧ files w' = saved_if
                   (saved_if
                      (saved_if (files w) detail (merchant_file (py "merchants") merchant_id))
                      monthly (merchant_file (py "monthly") merchant_id))
                   stability (merchant_file (py "stability") merchant_id)
    ∧ (∀ d dir, truthy d = true → save_if_error d (merchant_file dir merchant_id) = None →
         saved_if (files w) d (merchant_file dir merchant_id)
         = <[merchant_file dir merchant_id := Content (json_dumps d)]> (files w)).
Proof.
  intros Hplans Hraises detail monthly stability.
  unfold merchant_raises, plans_raise in Hraises. rewrite Hplans in Hraises.
  fold detail monthly stability in Hraises.
  destruct (save_if_error detail _) eqn:H1; [done|]. cbn [or_else] in Hraises.
  destruct (save_if_error monthly _) eqn:H2; [done|]. cbn [or_else] in Hraises.
  rename Hraises into H4.
  unfold extract_merchant, print, print_end. cbv zeta.
  erewrite bind_Done by reflexivity.
  match goal with |- context [mbind _ (fetch_json ?p) ?w1] =>
    destruct (static_fetch_json_run p w1) as [o1 ->%(bind_Done _ _)] end.
  replace (BASE_URL ++ py "/merchants/" ++ str_of_Z merchant_id)
    with (merchant_url merchant_id []) by (unfold merchant_url; by rewrite app_nil_r).
  fold detail.
  match goal with |- context [mbind _ (if truthy ?d then save_json ?d ?q else mret ()) ?w1] =>
    destruct (static_save_if_run d q w1) as [o2 ->%(bind_outcome _ _)] end.
  change (DATA_DIR ++ [py "merchants"; str_of_Z merchant_id ++ py ".json"])
    with (merchant_file (py "merchants") merchant_id).
  rewrite H1.
  match goal with |- context [mbind _ (fetch_json ?p) ?w1] =>
    destruct (static_fetch_json_run p w1) as [o3 ->%(bind_Done _ _)] end.
  change (BASE_URL ++ py "/merchants/" ++ str_of_Z merchant_id ++ py "/monthly")
    with (merchant_url merchant_id (py "/monthly")).
  fold monthly.
  match goal with |- context [mbind _ (if truthy ?d then save_json ?d ?q else mret ()) ?w1] =>
    destruct (static_save_if_run d q w1) as [o4 ->%(bind_outcome _ _)] end.
  change (DATA_DIR ++ [py "monthly"; str_of_Z merchant_id ++ py ".json"])
    with (merchant_file (py "monthly") merchant_id).
  rewrite H2.
  match goal with |- context [mbind _ (fetch_json ?p) ?w1] =>
    destruct (static_fetch_json_run p w1) as [o5 ->%(bind_Done _ _)] end.
  change (BASE_URL ++ py "/merchants/" ++ str_of_Z merchant_id ++ py "/plans")
    with (plans_url merchant_id).
  rewrite Hplans. erewrite bind_Done by reflexivity.
  match goal with |- context [mbind _ (fetch_json ?p) ?w1] =>
    destruct (static_fetch_json_run p w1) as [o6 ->%(bind_Done _ _)] end.
  change (BASE_URL ++ py "/merchants/" ++ str_of_Z merchant_id ++ py "/stability")
    with (merchant_url merchant_id (py "/stability")).
  fold stability.
  match goal with |- context [(if truthy ?d then save_json ?d ?q else mret ()) ?w1] =>
    destruct (static_save_if_run d q w1) as [o7 ->] end.
  change (DATA_DIR ++ [py "stability"; str_of_Z merchant_id ++ py ".json"])
    with (merchant_file (py "stability") merchant_id).
  rewrite H4. cbn [outcome].
  eexists. split; [reflexivity|]. wsimpl. split_and!.
  - by rewrite <-!app_assoc.
  - done.
  - intros d dir Ht Hs. destruct (save_if_error_None _ _ Hs Ht) as (Hopen & _ & Hart).
    unfold saved_if, saved. by rewrite Ht, Hopen, Hart.
Qed.

End merchant_run.

Lemma merchant_without_plans_witness :
  ∃ w',
    ExtractData.extract_merchant (H := Sample.unreachable) 30 (Sample.start ∅) = Done () w'
    ∧ length (invoked w') = 4%nat.
Proof.
  destruct (merchant_without_plans (env := Sample.unreachable) 30 (Sample.start ∅)
              ltac:(by_vm) ltac:(by_vm))
    as (w' & Hrun & Hinv & _).
  exists w'. split; [exact Hrun|]. by rewrite Hinv.
Defined.
